(** * ramsey_chevron.py: the Ramsey chevron measurement, embedded in Rocq

    The class [RamseyChevron] of [src/ramsey_chevron.py] assembles the
    parameters of a pulsed experiment, issues a sequence of calls to the
    vendor package [presto], stores the acquired arrays in an HDF5 file and
    fits the stored response.

    Conventions of the embedding:
    - a Python [float] is an exact rational [Q]; rounding of [float64]
      arithmetic is not part of the model.  Equality of computed numbers is
      [Qeq] ([==]);
    - a Python [int] is a [Z];
    - a numpy array is a shape together with its elements in row-major
      (C) order, as numpy stores it;
    - a raised exception is a value [Raise e]; statements that can raise
      live in the monad [M], which threads the object [self], the list of
      vendor calls issued so far and the files on disk;
    - what the vendor package answers is a record [Presto] that every
      definition takes as a parameter;
    - what the interpreter and the base class [Base], which is not among
      the sources, contribute is a record [Python]; [python] is the
      interpreter whose [str] and [ast.literal_eval] are written out for
      the values of [jpa_params]. *)

From Stdlib Require Import ZArith QArith Qround Qabs Lqa Lia.
From Stdlib Require Import Sorted.
From stdpp Require Import gmap strings list.

Set Warnings "-register-all".
Local Open Scope string_scope.

(** ** Exceptions and results *)

Inductive exn : Type :=
| AssertionError
| KeyError (key : string)
| IndexError
| ValueError
| TypeError
| ZeroDivisionError
| FileNotFoundError (path : string)
| RuntimeError (msg : string)
| VendorError (msg : string).

Inductive result (A : Type) : Type :=
| Ok (a : A)
| Raise (e : exn).
Arguments Ok {A} a.
Arguments Raise {A} e.

Definition rbind {A B} (r : result A) (k : A -> result B) : result B :=
  match r with
  | Ok a => k a
  | Raise e => Raise e
  end.

Declare Scope result_scope.
Delimit Scope result_scope with res.
Notation "x <- r ;; k" := (rbind r (fun x => k))
  (at level 100, r at next level, right associativity) : result_scope.
Notation "r ;; k" := (rbind r (fun _ => k))
  (at level 100, right associativity) : result_scope.

(** [assert c]. *)
Definition assert (c : bool) : result unit :=
  if c then Ok tt else Raise AssertionError.

(** [l[i]] for a non-negative index: [IndexError] out of range. *)
Definition getitem {A} (l : list A) (i : nat) : result A :=
  match l !! i with
  | Some x => Ok x
  | None => Raise IndexError
  end.

(** [l[-1]]. *)
Definition getlast {A} (l : list A) : result A :=
  match last l with
  | Some x => Ok x
  | None => Raise IndexError
  end.

(** [d[k]] on a dict or on HDF5 attributes: [KeyError] when absent. *)
Definition getkey {V} (d : gmap string V) (k : string) : result V :=
  match d !! k with
  | Some v => Ok v
  | None => Raise (KeyError k)
  end.

(** ** Numbers *)

(** A Python number as the constructor can receive it. *)
Inductive pynum : Type :=
| PyInt (z : Z)
| PyFloat (q : Q).

(** [np.float64(x)]. *)
Definition to_float64 (x : pynum) : Q :=
  match x with
  | PyInt z => inject_Z z
  | PyFloat q => q
  end.

(** [complex128]: real and imaginary part. *)
Definition complex : Type := (Q * Q)%type.

Definition cadd (a b : complex) : complex := (fst a + fst b, snd a + snd b)%Q.
Definition cdivn (a : complex) (n : nat) : complex :=
  (fst a / inject_Z (Z.of_nat n), snd a / inject_Z (Z.of_nat n))%Q.

(** [int(round(x))]: Python rounds a tie to the even neighbour. *)
Definition py_round (x : Q) : Z :=
  let f := Qfloor x in
  match (x - inject_Z f ?= 1 # 2)%Q with
  | Lt => f
  | Gt => (f + 1)%Z
  | Eq => if Z.even f then f else (f + 1)%Z
  end.

Definition Qltb (a b : Q) : bool :=
  match (a ?= b)%Q with Lt => true | _ => false end.

Definition Qeqb (a b : Q) : bool := Qeq_bool a b.

(** ** numpy arrays *)

Record ndarray (A : Type) : Type := mk_ndarray {
  shape : list nat;
  data : list A
}.
Arguments mk_ndarray {A} shape data.
Arguments shape {A} n.
Arguments data {A} n.

Definition ndim {A} (a : ndarray A) : nat := length (shape a).

(** Number of elements a shape asks for. *)
Definition shape_size (s : list nat) : nat := fold_right Nat.mul 1%nat s.

(** A one-dimensional array. *)
Definition array1 {A} (l : list A) : ndarray A :=
  {| shape := [length l]; data := l |}.

(** What [np.asarray] accepts for [delay_arr]: a number, a (nested)
    sequence, or an array. *)
Inductive array_like : Type :=
| Scalar (x : pynum)
| Seq (xs : list array_like)
| NdArr (a : ndarray pynum).

Definition shape_eqb (s t : list nat) : bool := bool_decide (s = t).

(** [np.asarray]: a number is a 0-d array; a sequence of [n] items of a
    common shape [s] is an array of shape [n :: s]; ragged input is
    refused. *)
Fixpoint np_asarray (a : array_like) : result (ndarray pynum) :=
  match a with
  | Scalar x => Ok {| shape := []; data := [x] |}
  | NdArr a => Ok a
  | Seq xs =>
      let fix items (l : list array_like) : result (list (ndarray pynum)) :=
        match l with
        | [] => Ok []
        | x :: l' =>
            match np_asarray x with
            | Raise e => Raise e
            | Ok r =>
                match items l' with
                | Raise e => Raise e
                | Ok rs => Ok (r :: rs)
                end
            end
        end in
      match items xs with
      | Raise e => Raise e
      | Ok [] => Ok {| shape := [0%nat]; data := [] |}
      | Ok (r :: rs) =>
          if forallb (fun r' => shape_eqb (shape r') (shape r)) rs
          then Ok {| shape := S (length rs) :: shape r;
                     data := concat (map data (r :: rs)) |}
          else Raise ValueError
      end
  end.

(** [np.atleast_1d] on an array: a 0-d array becomes a length-1 array,
    anything else is returned as it is. *)
Definition np_atleast_1d {A} (a : ndarray A) : ndarray A :=
  match shape a with
  | [] => {| shape := [1%nat]; data := data a |}
  | _ => a
  end.

(** [a.astype(np.float64)]. *)
Definition astype_float64 (a : ndarray pynum) : ndarray Q :=
  {| shape := shape a; data := map to_float64 (data a) |}.

(** [np.linspace(start, stop, num)] with the default [endpoint=True]:
    the [num] samples [i * step + start] with
    [step = (stop - start) / (num - 1)], the last of which, when there is
    more than one, is set to [stop]; a single sample is [start]; a
    negative [num] is refused. *)
Definition np_linspace (start stop : Q) (num : Z) : result (list Q) :=
  if (num <? 0)%Z then Raise ValueError
  else
    let n := Z.to_nat num in
    let div := inject_Z (num - 1) in
    let step := ((stop - start) / div)%Q in
    let y := map (fun i : nat => (inject_Z (Z.of_nat i) * step + start)%Q)
               (seq 0 n) in
    Ok (if (1 <? num)%Z then <[(n - 1)%nat := stop]> y else y).

(** [np.full_like(a, v)]. *)
Definition np_full_like {A B} (a : list A) (v : B) : list B :=
  repeat v (length a).

(** ** The class *)

(** The optional [jpa_params] dict, keyed by string. *)
Abbreviation jpa_dict := (gmap string Q).

Record RamseyChevron : Type := mk_RamseyChevron {
  readout_freq : Q;
  control_freq_center : Q;
  control_freq_span : Q;
  control_freq_nr : Z;
  readout_amp : Q;
  control_amp : Q;
  readout_duration : Q;
  control_duration : Q;
  sample_duration : Q;
  delay_arr : ndarray Q;
  readout_port : Z;
  control_port : Z;
  sample_port : Z;
  wait_delay : Q;
  readout_sample_delay : Q;
  num_averages : Z;
  jpa_params : option jpa_dict;
  drag : Q;
  control_freq_arr : option (ndarray Q);  (* replaced by run *)
  t_arr : option (ndarray Q);             (* replaced by run *)
  store_arr : option (ndarray complex)    (* replaced by run *)
}.

(** [RamseyChevron.__init__]. *)
Definition __init__
    (readout_freq control_freq_center control_freq_span : Q)
    (control_freq_nr : Z)
    (readout_amp control_amp readout_duration control_duration
       sample_duration : Q)
    (delay_arr : array_like)
    (readout_port control_port sample_port : Z)
    (wait_delay readout_sample_delay : Q)
    (num_averages : Z)
    (jpa_params : option jpa_dict)
    (drag : Q) : result RamseyChevron :=
  (a <- np_asarray delay_arr ;;
   Ok {| readout_freq := readout_freq;
         control_freq_center := control_freq_center;
         control_freq_span := control_freq_span;
         control_freq_nr := control_freq_nr;
         readout_amp := readout_amp;
         control_amp := control_amp;
         readout_duration := readout_duration;
         control_duration := control_duration;
         sample_duration := sample_duration;
         delay_arr := astype_float64 (np_atleast_1d a);
         readout_port := readout_port;
         control_port := control_port;
         sample_port := sample_port;
         wait_delay := wait_delay;
         readout_sample_delay := readout_sample_delay;
         num_averages := num_averages;
         jpa_params := jpa_params;
         drag := drag;
         control_freq_arr := None;
         t_arr := None;
         store_arr := None |})%res.

(** ** The vendor package [presto] *)

Module presto.

(** [presto.hardware] enumerations used in the converter configuration. *)
Inductive AdcMode : Type := AdcMode_Direct | AdcMode_Mixed.
Inductive AdcFSample : Type := AdcFSample_G2 | AdcFSample_G4.
Inductive DacMode : Type := DacMode_Direct | DacMode_Mixed02 | DacMode_Mixed42.
Inductive DacFSample : Type := DacFSample_G6 | DacFSample_G10.

Record converter_configuration : Type := {
  adc_mode : AdcMode;
  adc_fsample : AdcFSample;
  dac_mode : list DacMode;
  dac_fsample : list DacFSample
}.

(** The object [setup_long_drive] or [setup_template] hands back. *)
Definition pulse : Type := nat.

(** An angle [q * pi], for the phases the program writes as multiples
    of [np.pi]. *)
Inductive angle : Type := pi_times (q : Q).

(** A template waveform, kept symbolic: [sin2(ns, drag=d)] of
    [presto.utils], scaled by a real number, by [np.sqrt(2)] or by
    [np.sqrt(2) * np.exp(1j * np.pi / 4)]. *)
Inductive factor : Type :=
| real (q : Q)
| sqrt2
| sqrt2_exp_i (a : angle).

Inductive wave : Type :=
| sin2 (ns : Z) (drag : Q)
| scaled (f : factor) (w : wave).

(** A scalar or an array argument. *)
Inductive arg (A : Type) : Type :=
| one (x : A)
| many (xs : list A).
Arguments one {A} x.
Arguments many {A} xs.

(** The calls the program makes on the package, with their arguments. *)
Inductive call : Type :=
| Pulsed_enter (address : string) (port : option Z) (ext_ref_clk : bool)
    (conf : converter_configuration)
| Pulsed_exit
| get_fs (which : string)
| get_clk_f
| get_clk_T
| hardware_set_adc_attenuation (port : Z) (att : Q)
| hardware_set_dac_current (port : Z) (current : Z)
| hardware_set_inv_sinc (port : Z) (v : Z)
| hardware_configure_mixer (freq : Q) (in_ports : option Z) (out_ports : Z)
    (sync : bool)
| hardware_set_lmx (freq pwr port : Q)
| hardware_set_dc_bias (bias port : Q)
| hardware_sleep (t : Q) (b : bool)
| setup_freq_lut (output_ports group : Z) (frequencies : arg Q)
    (phases phases_q : arg angle)
| setup_scale_lut (output_ports group : Z) (scales : Q)
| setup_long_drive (output_port group : Z)
    (duration amplitude amplitude_q rise_time fall_time : Q)
| setup_template (output_port group : Z) (template : wave)
    (template_q : option wave) (envelope : bool)
| set_store_ports (port : Z)
| set_store_duration (d : Q)
| reset_phase (t : Q) (port : Z)
| output_pulse (t : Q) (p : pulse)
| store (t : Q)
| next_frequency (t : Q) (port : Z)
| run (period : Q) (repeat_count num_averages : Z) (print_time : bool)
| get_store_data.

(** The calls on [pls.hardware]: they configure the instrument. *)
Definition is_hardware_call (c : call) : bool :=
  match c with
  | hardware_set_adc_attenuation _ _ | hardware_set_dac_current _ _
  | hardware_set_inv_sinc _ _ | hardware_configure_mixer _ _ _ _
  | hardware_set_lmx _ _ _ | hardware_set_dc_bias _ _
  | hardware_sleep _ _ => true
  | _ => false
  end.

(** The calls that set up lookup tables, pulses and the store window. *)
Definition is_setup_call (c : call) : bool :=
  match c with
  | setup_freq_lut _ _ _ _ _ | setup_scale_lut _ _ _
  | setup_long_drive _ _ _ _ _ _ _ | setup_template _ _ _ _ _
  | set_store_ports _ | set_store_duration _ => true
  | _ => false
  end.

(** The calls that place an event of the sequence at a time. *)
Definition is_sequence_call (c : call) : bool :=
  match c with
  | reset_phase _ _ | output_pulse _ _ | store _ | next_frequency _ _ => true
  | _ => false
  end.

(** The calls that only ask for a rate of the instrument. *)
Definition is_query (c : call) : bool :=
  match c with
  | get_fs _ | get_clk_f | get_clk_T => true
  | _ => false
  end.

(** What the package answers.  [raises] tells, from the calls made so
    far and the call attempted, whether that call raises. *)
Record Presto : Type := {
  hardware : bool;                       (* [pls.hardware is not None] *)
  fs : string -> Q;                      (* [get_fs] *)
  clk_f : Q;                             (* [get_clk_f] *)
  clk_T : Q;                             (* [get_clk_T] *)
  long_drive : pulse;                    (* result of [setup_long_drive] *)
  template : pulse;                      (* result of [setup_template] *)
  store_data : ndarray Q * ndarray complex;  (* [get_store_data] *)
  raises : list call -> call -> option string
}.

End presto.

(** ** HDF5 files *)

Inductive h5attr : Type :=
| AttrFloat (q : Q)
| AttrInt (z : Z)
| AttrStr (s : string).

Inductive h5dataset : Type :=
| DsFloat (a : ndarray Q)
| DsComplex (a : ndarray complex).

Record h5file : Type := mk_h5file {
  attrs : gmap string h5attr;
  datasets : gmap string h5dataset
}.

(** ** Effects *)

(** What happens outside the object, in order. *)
Inductive event : Type :=
| Call (c : presto.call)
| H5Write (path : string).

Record state : Type := mk_state {
  self : RamseyChevron;
  trace : list event;
  files : gmap string h5file
}.

Definition M (A : Type) : Type := state -> result A * state.

Definition ret {A} (a : A) : M A := fun st => (Ok a, st).
Definition raise {A} (e : exn) : M A := fun st => (Raise e, st).
Definition bind {A B} (m : M A) (k : A -> M B) : M B :=
  fun st =>
    match m st with
    | (Ok a, st') => k a st'
    | (Raise e, st') => (Raise e, st')
    end.
Definition lift {A} (r : result A) : M A := fun st => (r, st).

Declare Scope M_scope.
Delimit Scope M_scope with M.
Notation "x <- m ;; k" := (bind m (fun x => k))
  (at level 100, m at next level, right associativity) : M_scope.
Notation "m ;; k" := (bind m (fun _ => k))
  (at level 100, right associativity) : M_scope.

Definition get_self : M RamseyChevron := fun st => (Ok (self st), st).

Definition set_self (f : RamseyChevron -> RamseyChevron) : M unit :=
  fun st => (Ok tt, {| self := f (self st); trace := trace st; files := files st |}).

Definition log (e : event) (st : state) : state :=
  {| self := self st; trace := trace st ++ [e]; files := files st |}.

(** The calls among the events. *)
Definition calls_of (tr : list event) : list presto.call :=
  omap (fun e => match e with Call c => Some c | _ => None end) tr.

(** [self.control_freq_arr = v] and [self.t_arr, self.store_arr = v]. *)
Definition set_control_freq_arr (v : ndarray Q) (s : RamseyChevron) : RamseyChevron :=
  {| readout_freq := readout_freq s;
     control_freq_center := control_freq_center s;
     control_freq_span := control_freq_span s;
     control_freq_nr := control_freq_nr s;
     readout_amp := readout_amp s;
     control_amp := control_amp s;
     readout_duration := readout_duration s;
     control_duration := control_duration s;
     sample_duration := sample_duration s;
     delay_arr := delay_arr s;
     readout_port := readout_port s;
     control_port := control_port s;
     sample_port := sample_port s;
     wait_delay := wait_delay s;
     readout_sample_delay := readout_sample_delay s;
     num_averages := num_averages s;
     jpa_params := jpa_params s;
     drag := drag s;
     control_freq_arr := Some v;
     t_arr := t_arr s;
     store_arr := store_arr s |}.

Definition set_store (v : ndarray Q * ndarray complex) (s : RamseyChevron) : RamseyChevron :=
  {| readout_freq := readout_freq s;
     control_freq_center := control_freq_center s;
     control_freq_span := control_freq_span s;
     control_freq_nr := control_freq_nr s;
     readout_amp := readout_amp s;
     control_amp := control_amp s;
     readout_duration := readout_duration s;
     control_duration := control_duration s;
     sample_duration := sample_duration s;
     delay_arr := delay_arr s;
     readout_port := readout_port s;
     control_port := control_port s;
     sample_port := sample_port s;
     wait_delay := wait_delay s;
     readout_sample_delay := readout_sample_delay s;
     num_averages := num_averages s;
     jpa_params := jpa_params s;
     drag := drag s;
     control_freq_arr := control_freq_arr s;
     t_arr := Some (fst v);
     store_arr := Some (snd v) |}.

(** ** Module constants *)

Definition DAC_CURRENT : Z := 32000.  (* uA *)

Definition CONVERTER_CONFIGURATION : presto.converter_configuration :=
  {| presto.adc_mode := presto.AdcMode_Mixed;
     presto.adc_fsample := presto.AdcFSample_G4;
     presto.dac_mode :=
       [presto.DacMode_Mixed42; presto.DacMode_Mixed02;
        presto.DacMode_Mixed02; presto.DacMode_Mixed02];
     presto.dac_fsample :=
       [presto.DacFSample_G10; presto.DacFSample_G6;
        presto.DacFSample_G6; presto.DacFSample_G6] |}.

Definition IDX_LOW : nat := 1500.
Definition IDX_HIGH : nat := 2000.

(** [__file__]. *)
Definition __file__ : string := "ramsey_chevron.py".

(** What the interpreter and the base class contribute: [str] and
    [ast.literal_eval] on the value of [jpa_params], and the path
    [Base.save] writes to.  How the base class chooses that path is not
    known: it is given the script and the requested file name, and may
    look at anything else, the object, what has happened so far and what
    is on disk. *)
Record Python : Type := {
  str : option jpa_dict -> string;
  literal_eval : string -> result (option jpa_dict);
  save_path : state -> string -> option string -> string
}.

(** ** What Python writes for [jpa_params], and reads back

    [Base.save] has to leave [jpa_params] in the file as a text that
    [load] can hand to [ast.literal_eval]; Python's own text of a value
    is [str].  Both are written out here for the values [jpa_params]
    holds: [None], or a dict from strings to numbers. *)

(** A text, character by character. *)
Definition text : Type := list Ascii.ascii.

Definition text_of (s : string) : text := String.list_ascii_of_string s.

(** The character of a one-character string. *)
Definition chr (s : string) : Ascii.ascii :=
  match s with
  | String.String c _ => c
  | String.EmptyString => Ascii.zero
  end.

Definition backslash : Ascii.ascii := Ascii.ascii_of_nat 92.
Definition apostrophe : Ascii.ascii := Ascii.ascii_of_nat 39.
Definition double_quote : Ascii.ascii := Ascii.ascii_of_nat 34.

(** The character of a digit, decimal or hexadecimal. *)
Definition digit_char (n : Z) : Ascii.ascii :=
  Ascii.ascii_of_nat (Z.to_nat (if (n <? 10)%Z then 48 + n else 87 + n)).

(** The last [p] decimal digits of [x]. *)
Fixpoint digits (p : nat) (x : Z) : text :=
  match p with
  | O => []
  | S p' => (digits p' (x / 10) ++ [digit_char (x mod 10)])%list
  end.

(** The number of decimal digits of [x >= 0]: 1 for [0]. *)
Fixpoint ndigits_from (fuel : nat) (x : Z) : nat :=
  match fuel with
  | O => 1
  | S fuel' => if (x <? 10)%Z then 1 else S (ndigits_from fuel' (x / 10))
  end.

Definition ndigits (x : Z) : nat := ndigits_from (Z.to_nat (Z.log2 x)) x.

(** The number of zeros [x > 0] ends with. *)
Fixpoint trailing_zeros_from (fuel : nat) (x : Z) : nat :=
  match fuel with
  | O => 0
  | S fuel' =>
      if (x mod 10 =? 0)%Z then S (trailing_zeros_from fuel' (x / 10)) else 0
  end.

Definition trailing_zeros (x : Z) : nat := trailing_zeros_from (ndigits x) x.

(** [str(x)] for an [int] [x >= 0]. *)
Definition repr_nat (x : Z) : text := digits (ndigits x) x.

(** The least number [k] of decimals with which [q] can be written
    exactly, when there is one: the least [k] such that the denominator
    divides [10 ^ k], which is no more than the binary logarithm of the
    denominator. *)
Fixpoint decimals_from (fuel k : nat) (den : Z) : option nat :=
  match fuel with
  | O => None
  | S fuel' =>
      if (10 ^ Z.of_nat k mod den =? 0)%Z then Some k
      else decimals_from fuel' (S k) den
  end.

Definition decimals (q : Q) : option nat :=
  let den := Z.pos (Qden q) in
  decimals_from (S (Z.to_nat (Z.log2 den))) 0 den.

(** The digits of [m] with the last [k] of them after the point:
    [ddd.ddd], with [.0] when there is none. *)
Definition repr_fixed (m : Z) (k : nat) : text :=
  (repr_nat (m / 10 ^ Z.of_nat k)
   ++ chr "." :: (if (k =? 0)%nat then [chr "0"] else digits k m))%list.

(** The exponent [e+XX] or [e-XX], of two digits at least. *)
Definition repr_exponent (e : Z) : text :=
  chr "e" :: (if (e <? 0)%Z then chr "-" else chr "+")
  :: (if (Z.abs e <? 10)%Z then chr "0" :: digits 1 (Z.abs e)
      else repr_nat (Z.abs e)).

(** The [n] digits of [m0] with the point after the first of them, and
    the exponent that goes with it: [d.ddde+XX]. *)
Definition repr_scientific (m0 : Z) (n : nat) (decpt : Z) : text :=
  (digits 1 (m0 / 10 ^ Z.of_nat (n - 1))
   ++ (if (n =? 1)%nat then [] else chr "." :: digits (n - 1) m0)
   ++ repr_exponent (decpt - 1))%list.

(** [repr(x)] for a [float] [x > 0] that is [m / 10 ^ k]: with [m0]
    the digits of [m] up to its last digit that is not zero, [decpt]
    tells where the point stands from the first digit; [x] is written
    with its digits around the point, or, when [decpt] is above 16 or
    below -3, with an exponent. *)
Definition repr_positive (m : Z) (k : nat) : text :=
  let z := trailing_zeros m in
  let m0 := (m / 10 ^ Z.of_nat z)%Z in
  let n := ndigits m0 in
  let decpt := (Z.of_nat n + Z.of_nat z - Z.of_nat k)%Z in
  if (decpt <=? -4)%Z || (16 <? decpt)%Z then repr_scientific m0 n decpt
  else repr_fixed m k.

(** [repr(x)] for a [float] [x].  A rational of the model that stands
    for a [float] has finitely many decimals, all of which are written;
    what has no such expansion, which no [float] is, is cut after 17
    decimals. *)
Definition repr_float (q : Q) : text :=
  let k := default 17%nat (decimals q) in
  let m := (Z.abs (Qnum q) * 10 ^ Z.of_nat k / Z.pos (Qden q))%Z in
  ((if (Qnum q <? 0)%Z then [chr "-"] else [])
   ++ (if (m =? 0)%Z then text_of "0.0" else repr_positive m k))%list.

(** [repr(s)] for a [str] [s]: between apostrophes, or between double
    quotes when [s] holds an apostrophe and no double quote; the quote in
    use and the backslash are escaped, and so are the control
    characters.  (Characters above 127 are written as they are; Python
    escapes the few of them that are not printable.) *)
Definition repr_char (quote c : Ascii.ascii) : text :=
  let n := Ascii.nat_of_ascii c in
  if Ascii.eqb c quote || Ascii.eqb c backslash then [backslash; c]
  else if (n =? 9)%nat then [backslash; chr "t"]
  else if (n =? 10)%nat then [backslash; chr "n"]
  else if (n =? 13)%nat then [backslash; chr "r"]
  else if (n <? 32)%nat || (n =? 127)%nat
  then [backslash; chr "x"; digit_char (Z.of_nat (n / 16));
        digit_char (Z.of_nat (n mod 16))]
  else [c].

Definition repr_str (s : string) : text :=
  let cs := String.list_ascii_of_string s in
  let quote :=
    if existsb (Ascii.eqb apostrophe) cs
       && negb (existsb (Ascii.eqb double_quote) cs)
    then double_quote else apostrophe in
  (quote :: flat_map (repr_char quote) cs ++ [quote])%list.

(** [str(d)] for a [dict] [d]: [{key: value, ...}], every key and value
    as its [repr].  (Python lists the items in the order of insertion,
    which the model does not keep.) *)
Fixpoint join (sep : text) (l : list text) : text :=
  match l with
  | [] => []
  | [x] => x
  | x :: l' => (x ++ sep ++ join sep l')%list
  end.

Definition repr_item (kv : string * Q) : text :=
  (repr_str (fst kv) ++ text_of ": " ++ repr_float (snd kv))%list.

Definition repr_dict (d : jpa_dict) : text :=
  (chr "{" :: join (text_of ", ") (map repr_item (map_to_list d))
   ++ [chr "}"])%list.

(** [str(jpa_params)].  (A number of [jpa_params] that is an [int] in
    Python is written without the point; the model does not tell it
    from the [float] of the same value.) *)
Definition py_str (j : option jpa_dict) : string :=
  String.string_of_list_ascii
    match j with
    | None => text_of "None"
    | Some d => repr_dict d
    end.

(** Reading.  The value of a decimal digit, and of a hexadecimal one. *)
Definition digit_value (c : Ascii.ascii) : option Z :=
  let n := Ascii.nat_of_ascii c in
  if (48 <=? n)%nat && (n <=? 57)%nat then Some (Z.of_nat n - 48)%Z else None.

Definition hex_value (c : Ascii.ascii) : option Z :=
  let n := Ascii.nat_of_ascii c in
  if (48 <=? n)%nat && (n <=? 57)%nat then Some (Z.of_nat n - 48)%Z
  else if (97 <=? n)%nat && (n <=? 102)%nat then Some (Z.of_nat n - 87)%Z
  else if (65 <=? n)%nat && (n <=? 70)%nat then Some (Z.of_nat n - 55)%Z
  else None.

(** The digits [s] starts with: the number they continue [n] to, how
    many they are, and what follows them. *)
Fixpoint read_digits (s : text) (n : Z) (count : nat) : Z * nat * text :=
  match s with
  | c :: s' =>
      match digit_value c with
      | Some d => read_digits s' (10 * n + d) (S count)
      | None => (n, count, s)
      end
  | [] => (n, count, s)
  end.

(** The exponent of a number, if it has one, and what follows it. *)
Definition read_exponent (s : text) : option (Z * text) :=
  match s with
  | c :: s1 =>
      if Ascii.eqb c (chr "e") || Ascii.eqb c (chr "E")
      then
        let '(neg, s2) :=
          match s1 with
          | c' :: s2 =>
              if Ascii.eqb c' (chr "-") then (true, s2)
              else if Ascii.eqb c' (chr "+") then (false, s2)
              else (false, s1)
          | [] => (false, s1)
          end in
        let '(e, ne, s3) := read_digits s2 0 0 in
        if (ne =? 0)%nat then None
        else Some (if neg then (- e)%Z else e, s3)
      else Some (0%Z, s)
  | [] => Some (0%Z, s)
  end.

(** [m * 10 ^ pw]. *)
Definition scale (m : Z) (pw : Z) : Q :=
  if (0 <=? pw)%Z then inject_Z (m * 10 ^ pw)
  else m # Z.to_pos (10 ^ (- pw)).

(** A number in decimal, [ddd[.ddd][e[+-]dd]], and what follows it.
    (Python refuses an integer written with a zero in front, which is
    read here.) *)
Definition read_unsigned (s : text) : option (Q * text) :=
  let '(i, ni, s2) := read_digits s 0 0 in
  let '(m, nf, s3) :=
    match s2 with
    | c :: s3 =>
        if Ascii.eqb c (chr ".") then read_digits s3 i 0 else (i, 0%nat, s2)
    | [] => (i, 0%nat, s2)
    end in
  if (ni =? 0)%nat && (nf =? 0)%nat then None
  else
    match read_exponent s3 with
    | None => None
    | Some (e, s4) => Some (scale m (e - Z.of_nat nf), s4)
    end.

(** A number with its sign, if it has one; its value is put in lowest
    terms. *)
Definition read_number (s : text) : option (Q * text) :=
  match read_unsigned s with
  | Some (v, r) => Some (Qred v, r)
  | None =>
      match s with
      | c :: s1 =>
          if Ascii.eqb c (chr "-")
          then match read_unsigned s1 with
               | Some (v, r) => Some (Qred (- v), r)
               | None => None
               end
          else if Ascii.eqb c (chr "+")
          then match read_unsigned s1 with
               | Some (v, r) => Some (Qred v, r)
               | None => None
               end
          else None
      | [] => None
      end
  end.

(** A string between quotes, after the opening quote, and what follows
    the closing one.  The escapes read are those [repr] writes and the
    other quote. *)
Fixpoint read_str_body (quote : Ascii.ascii) (s : text)
    : option (list Ascii.ascii * text) :=
  match s with
  | [] => None
  | c :: s1 =>
      if Ascii.eqb c quote then Some ([], s1)
      else if Ascii.eqb c backslash then
        match s1 with
        | [] => None
        | e :: s2 =>
            if Ascii.eqb e backslash || Ascii.eqb e apostrophe
               || Ascii.eqb e double_quote
            then match read_str_body quote s2 with
                 | Some (cs, r) => Some (e :: cs, r)
                 | None => None
                 end
            else if Ascii.eqb e (chr "t")
            then match read_str_body quote s2 with
                 | Some (cs, r) => Some (Ascii.ascii_of_nat 9 :: cs, r)
                 | None => None
                 end
            else if Ascii.eqb e (chr "n")
            then match read_str_body quote s2 with
                 | Some (cs, r) => Some (Ascii.ascii_of_nat 10 :: cs, r)
                 | None => None
                 end
            else if Ascii.eqb e (chr "r")
            then match read_str_body quote s2 with
                 | Some (cs, r) => Some (Ascii.ascii_of_nat 13 :: cs, r)
                 | None => None
                 end
            else if Ascii.eqb e (chr "x")
            then match s2 with
                 | h :: l :: s3 =>
                     match hex_value h, hex_value l with
                     | Some a, Some b =>
                         match read_str_body quote s3 with
                         | Some (cs, r) =>
                             Some (Ascii.ascii_of_nat (Z.to_nat (16 * a + b))
                                   :: cs, r)
                         | None => None
                         end
                     | _, _ => None
                     end
                 | _ => None
                 end
            else None
        end
      else if (Ascii.nat_of_ascii c =? 10)%nat then None
      else match read_str_body quote s1 with
           | Some (cs, r) => Some (c :: cs, r)
           | None => None
           end
  end.

(** A string between apostrophes or between double quotes. *)
Definition read_str (s : text) : option (string * text) :=
  match s with
  | q :: s1 =>
      if Ascii.eqb q apostrophe || Ascii.eqb q double_quote
      then match read_str_body q s1 with
           | Some (cs, r) => Some (String.string_of_list_ascii cs, r)
           | None => None
           end
      else None
  | [] => None
  end.

(** What is left of [s] after the spaces it starts with. *)
Fixpoint skip_spaces (s : text) : text :=
  match s with
  | c :: s' => if Ascii.eqb c (chr " ") then skip_spaces s' else s
  | [] => []
  end.

(** The items of a dict display after its opening brace, up to the end
    of the text. *)
Fixpoint read_items (fuel : nat) (s : text) : option (list (string * Q)) :=
  match fuel with
  | O => None
  | S fuel' =>
      match read_str (skip_spaces s) with
      | None => None
      | Some (k, s1) =>
          match skip_spaces s1 with
          | c :: s2 =>
              if Ascii.eqb c (chr ":")
              then match read_number (skip_spaces s2) with
                   | None => None
                   | Some (v, s3) =>
                       match skip_spaces s3 with
                       | c' :: s4 =>
                           if Ascii.eqb c' (chr ",")
                           then match read_items fuel' s4 with
                                | Some items => Some ((k, v) :: items)
                                | None => None
                                end
                           else if Ascii.eqb c' (chr "}")
                           then match skip_spaces s4 with
                                | [] => Some [(k, v)]
                                | _ => None
                                end
                           else None
                       | [] => None
                       end
                   end
              else None
          | [] => None
          end
      end
  end.

(** A dict display; of two items with one key the later one stays. *)
Definition read_dict (s : text) : option jpa_dict :=
  match s with
  | c :: s1 =>
      if Ascii.eqb c (chr "{")
      then match skip_spaces s1 with
           | c' :: s2 =>
               if Ascii.eqb c' (chr "}")
               then match skip_spaces s2 with
                    | [] => Some ∅
                    | _ => None
                    end
               else match read_items (length s1) s1 with
                    | Some items =>
                        Some (list_to_map (reverse items))
                    | None => None
                    end
           | [] => None
           end
      else None
  | [] => None
  end.

(** The text [None], with nothing but spaces after it. *)
Definition None_text (s : text) : bool :=
  match s with
  | a :: b :: c :: d :: s' =>
      Ascii.eqb a (chr "N") && Ascii.eqb b (chr "o") && Ascii.eqb c (chr "n")
      && Ascii.eqb d (chr "e")
      && match skip_spaces s' with [] => true | _ => false end
  | _ => false
  end.

(** [ast.literal_eval(s)] for the texts [str] writes: [None], or a dict
    display whose keys are strings between quotes and whose values are
    numbers in decimal; spaces may stand between the tokens and around
    the text.  Python reads more than this (other spellings of strings
    and numbers, a comma before the closing brace, literals of other
    types, which [jpa_params] does not hold); every other text is
    refused here with [ValueError], as are the texts Python itself
    refuses (some of them with [SyntaxError]). *)
Definition py_literal_eval (s : string) : result (option jpa_dict) :=
  let s := skip_spaces (String.list_ascii_of_string s) in
  if None_text s then Ok None
  else match read_dict s with
       | Some d => Ok (Some d)
       | None => Raise ValueError
       end.

(** The interpreter with [str] and [ast.literal_eval] as written out
    above, and a base class that chooses its paths by [path]. *)
Definition python (path : state -> string -> option string -> string)
    : Python :=
  {| str := py_str; literal_eval := py_literal_eval; save_path := path |}.

(** Iteration [for x in a] where each item is used as a number: the items
    of a 1-d array.  A 0-d array is not iterable; the items of an array of
    more dimensions are arrays themselves, which the sequence of [run]
    cannot use as a time (refused here), unless there is no item at all. *)
Definition iter_numbers {A} (a : ndarray A) : result (list A) :=
  match shape a with
  | [] => Raise TypeError
  | [_] => Ok (data a)
  | O :: _ => Ok []
  | _ => Raise TypeError
  end.

Section Program.

Variable sdk : presto.Presto.
Variable py : Python.

(** A call on the package: recorded, and raising when the package says so. *)
Definition call (c : presto.call) : M unit :=
  fun st =>
    match presto.raises sdk (calls_of (trace st)) c with
    | Some msg => (Raise (VendorError msg), log (Call c) st)
    | None => (Ok tt, log (Call c) st)
    end.

Definition get_fs (which : string) : M Q :=
  (call (presto.get_fs which) ;; ret (presto.fs sdk which))%M.
Definition get_clk_f : M Q :=
  (call presto.get_clk_f ;; ret (presto.clk_f sdk))%M.
Definition get_clk_T : M Q :=
  (call presto.get_clk_T ;; ret (presto.clk_T sdk))%M.
Definition setup_long_drive (output_port group : Z)
    (duration amplitude amplitude_q rise_time fall_time : Q) : M presto.pulse :=
  (call (presto.setup_long_drive output_port group duration amplitude
           amplitude_q rise_time fall_time) ;;
   ret (presto.long_drive sdk))%M.
Definition setup_template (output_port group : Z) (template : presto.wave)
    (template_q : option presto.wave) (envelope : bool) : M presto.pulse :=
  (call (presto.setup_template output_port group template template_q envelope) ;;
   ret (presto.template sdk))%M.
Definition get_store_data : M (ndarray Q * ndarray complex) :=
  (call presto.get_store_data ;; ret (presto.store_data sdk))%M.

(** [with pulsed.Pulsed(...) as pls: body]: the connection is closed
    whether [body] returns or raises. *)
Definition with_Pulsed {A} (address : string) (port : option Z)
    (ext_ref_clk : bool) (conf : presto.converter_configuration)
    (body : M A) : M A :=
  fun st =>
    match call (presto.Pulsed_enter address port ext_ref_clk conf) st with
    | (Raise e, st1) => (Raise e, st1)
    | (Ok _, st1) =>
        let '(r, st2) := body st1 in
        match call presto.Pulsed_exit st2 with
        | (Raise e, st3) => (Raise e, st3)
        | (Ok _, st3) => (r, st3)
        end
    end.

(** *** [run], lines 86-94: figure out frequencies.
    Returns [(control_if_arr, control_nco)]. *)
Definition figure_out_frequencies (s : RamseyChevron) : M (list Q * Q) :=
  (lift (assert (Qltb (control_freq_span s / 2) (control_freq_center s))) ;;
   fs_dac <- get_fs "dac" ;;
   lift (assert (Qltb (control_freq_span s) (fs_dac / 2))) ;;  (* fits in HSB *)
   fs_dac <- get_fs "dac" ;;
   let control_if_center := (fs_dac / 4)%Q in  (* middle of HSB *)
   let control_if_start := (control_if_center - control_freq_span s / 2)%Q in
   let control_if_stop := (control_if_center + control_freq_span s / 2)%Q in
   control_if_arr <-
     lift (np_linspace control_if_start control_if_stop (control_freq_nr s)) ;;
   let control_nco := (control_freq_center s - control_if_center)%Q in
   set_self (set_control_freq_arr
               (array1 (map (fun f => (control_nco + f)%Q) control_if_arr))) ;;
   ret (control_if_arr, control_nco))%M.

(** *** [run], lines 96-119: converters, mixers and the optional JPA. *)
Definition configure_hardware (s : RamseyChevron) (control_nco : Q) : M unit :=
  (call (presto.hardware_set_adc_attenuation (sample_port s) 0) ;;
   call (presto.hardware_set_dac_current (readout_port s) DAC_CURRENT) ;;
   call (presto.hardware_set_dac_current (control_port s) DAC_CURRENT) ;;
   call (presto.hardware_set_inv_sinc (readout_port s) 0) ;;
   call (presto.hardware_set_inv_sinc (control_port s) 0) ;;
   call (presto.hardware_configure_mixer (readout_freq s)
           (Some (sample_port s)) (readout_port s) false) ;;  (* sync in next call *)
   call (presto.hardware_configure_mixer control_nco
           None (control_port s) true) ;;  (* sync here *)
   match jpa_params s with
   | Some jpa =>
       pump_freq <- lift (getkey jpa "pump_freq") ;;
       pump_pwr <- lift (getkey jpa "pump_pwr") ;;
       pump_port <- lift (getkey jpa "pump_port") ;;
       call (presto.hardware_set_lmx pump_freq pump_pwr pump_port) ;;
       bias <- lift (getkey jpa "bias") ;;
       bias_port <- lift (getkey jpa "bias_port") ;;
       call (presto.hardware_set_dc_bias bias bias_port) ;;
       call (presto.hardware_sleep 1 false)
   | None => ret tt
   end)%M.

(** *** [run], lines 127-190: lookup tables, pulses and sampling window.
    Returns [(readout_pulse, control_pulse)]. *)
Definition setup_measurement (s : RamseyChevron) (control_if_arr : list Q)
    : M (presto.pulse * presto.pulse) :=
  (call (presto.setup_freq_lut (readout_port s) 0 (presto.one 0%Q)
           (presto.one (presto.pi_times 0)) (presto.one (presto.pi_times 0))) ;;
   call (presto.setup_freq_lut (control_port s) 0 (presto.many control_if_arr)
           (presto.many (np_full_like control_if_arr (presto.pi_times 0)))
           (presto.many (np_full_like control_if_arr
                           (presto.pi_times (- (1 # 2)))))) ;;  (* HSB *)
   call (presto.setup_scale_lut (readout_port s) 0 (readout_amp s)) ;;
   call (presto.setup_scale_lut (control_port s) 0 1) ;;  (* set amplitude in template *)
   readout_pulse <-
     setup_long_drive (readout_port s) 0 (readout_duration s) 1 1 0 0 ;;
   (* number of samples in the control template *)
   fs_dac <- get_fs "dac" ;;
   let control_ns := py_round (control_duration s * fs_dac) in
   let control_envelope :=
     presto.scaled (presto.real (control_amp s))
       (presto.sin2 control_ns (drag s)) in
   let control_envelope :=
     if Qeqb (drag s) 0
     then presto.scaled presto.sqrt2 control_envelope
     else presto.scaled (presto.sqrt2_exp_i (presto.pi_times (1 # 4)))
            control_envelope in
   control_pulse <-
     setup_template (control_port s) 0 control_envelope
       (if Qeqb (drag s) 0 then Some control_envelope else None) true ;;
   call (presto.set_store_ports (sample_port s)) ;;
   call (presto.set_store_duration (sample_duration s)) ;;
   ret (readout_pulse, control_pulse))%M.

(** *** [run], lines 196-212: the body of [for delay in self.delay_arr],
    from the time [T] on; returns the time for the next iteration. *)
Fixpoint pulse_loop (s : RamseyChevron)
    (readout_pulse control_pulse : presto.pulse)
    (delays : list Q) (T : Q) : M Q :=
  match delays with
  | [] => ret T
  | delay :: delays' =>
      ((* first pi/2 pulse *)
       call (presto.reset_phase T (control_port s)) ;;
       call (presto.output_pulse T control_pulse) ;;
       let T := (T + control_duration s)%Q in
       (* Ramsey delay *)
       let T := (T + delay)%Q in
       (* second pi/2 pulse *)
       call (presto.output_pulse T control_pulse) ;;
       let T := (T + control_duration s)%Q in
       (* Readout *)
       call (presto.reset_phase T (readout_port s)) ;;
       call (presto.output_pulse T readout_pulse) ;;
       call (presto.store (T + readout_sample_delay s)%Q) ;;
       let T := (T + readout_duration s)%Q in
       (* Move to next iteration *)
       let T := (T + wait_delay s)%Q in
       pulse_loop s readout_pulse control_pulse delays' T)%M
  end.

(** *** [run], lines 195-214: program the pulse sequence; returns [T]. *)
Definition program_pulse_sequence (s : RamseyChevron)
    (readout_pulse control_pulse : presto.pulse) : M Q :=
  (let T := 0%Q in  (* s, start at time zero ... *)
   delays <- lift (iter_numbers (delay_arr s)) ;;
   T <- pulse_loop s readout_pulse control_pulse delays T ;;
   call (presto.next_frequency T (control_port s)) ;;
   let T := (T + wait_delay s)%Q in
   ret T)%M.

(** *** [run], lines 216-228: with a JPA, stretch the period to one clock
    cycle past a multiple of the idler period. *)
Definition adjust_period (s : RamseyChevron) (T : Q) : M Q :=
  match jpa_params s with
  | Some jpa =>
      (pump_freq <- lift (getkey jpa "pump_freq") ;;
       let idler_freq := (pump_freq - readout_freq s)%Q in
       let idler_if := Qabs (idler_freq - readout_freq s) in  (* NCO at readout_freq *)
       (if Qeqb idler_if 0 then raise ZeroDivisionError else ret tt) ;;
       let idler_period := (1 / idler_if)%Q in
       clk_f <- get_clk_f ;;
       let T_clk := py_round (T * clk_f) in
       clk_f <- get_clk_f ;;
       let idler_period_clk := py_round (idler_period * clk_f) in
       (if (idler_period_clk =? 0)%Z then raise ZeroDivisionError else ret tt) ;;
       (* first make T a multiple of idler period *)
       let T_clk :=
         if (0 <? T_clk mod idler_period_clk)%Z
         then (T_clk + (idler_period_clk - T_clk mod idler_period_clk))%Z
         else T_clk in
       (* then make it off by one clock cycle *)
       let T_clk := (T_clk + 1)%Z in
       clk_T <- get_clk_T ;;
       ret (inject_Z T_clk * clk_T)%Q)%M
  | None => ret T
  end.

(** *** [run], lines 233-243: run the experiment and fetch the data. *)
Definition run_experiment (s : RamseyChevron) (T : Q) : M unit :=
  (call (presto.run T (control_freq_nr s) (num_averages s) true) ;;
   d <- get_store_data ;;
   set_self (set_store d) ;;
   match jpa_params s with
   | Some jpa =>
       pump_port <- lift (getkey jpa "pump_port") ;;
       call (presto.hardware_set_lmx 0 0 pump_port) ;;
       bias_port <- lift (getkey jpa "bias_port") ;;
       call (presto.hardware_set_dc_bias 0 bias_port)
   | None => ret tt
   end)%M.

(** *** [Base.save] *)

(** The attributes and datasets of the file of an object whose arrays
    are [cfa], [ta] and [sa]. *)
Definition h5_of (s : RamseyChevron) (cfa ta : ndarray Q)
    (sa : ndarray complex) : h5file :=
  {| attrs :=
       list_to_map
         [("readout_freq", AttrFloat (readout_freq s));
          ("control_freq_center", AttrFloat (control_freq_center s));
          ("control_freq_span", AttrFloat (control_freq_span s));
          ("control_freq_nr", AttrInt (control_freq_nr s));
          ("readout_amp", AttrFloat (readout_amp s));
          ("control_amp", AttrFloat (control_amp s));
          ("readout_duration", AttrFloat (readout_duration s));
          ("control_duration", AttrFloat (control_duration s));
          ("sample_duration", AttrFloat (sample_duration s));
          ("readout_port", AttrInt (readout_port s));
          ("control_port", AttrInt (control_port s));
          ("sample_port", AttrInt (sample_port s));
          ("wait_delay", AttrFloat (wait_delay s));
          ("readout_sample_delay", AttrFloat (readout_sample_delay s));
          ("num_averages", AttrInt (num_averages s));
          ("jpa_params", AttrStr (str py (jpa_params s)));
          ("drag", AttrFloat (drag s))];
     datasets :=
       list_to_map
         [("delay_arr", DsFloat (delay_arr s));
          ("control_freq_arr", DsFloat cfa);
          ("t_arr", DsFloat ta);
          ("store_arr", DsComplex sa)] |}.

(** Modelled from the spec: [Base.save] of [_base.py], the base class
    [RamseyChevron.save] delegates to, is not among the sources.  The
    spec has the parameters and the raw arrays persisted verbatim to a
    self-describing attribute-plus-array file: every scalar parameter is
    an attribute and every array a dataset, under the name of the field,
    which are the names [load] reads.  [jpa_params] is written as its
    [str], the form [load] parses.  Nothing is said of the path, which
    is left to the base class ([save_path]); an object whose arrays are
    still [None] cannot be written. *)
Definition Base_save (script_path : string) (save_filename : option string)
    : M string :=
  fun st =>
    let s := self st in
    match control_freq_arr s, t_arr s, store_arr s with
    | Some cfa, Some ta, Some sa =>
        let path := save_path py st script_path save_filename in
        (Ok path,
         {| self := s;
            trace := trace st ++ [H5Write path];
            files := <[path := h5_of s cfa ta sa]> (files st) |})
    | _, _, _ => (Raise TypeError, st)
    end.

(** *** [RamseyChevron.save] *)
Definition save (save_filename : option string) : M string :=
  Base_save __file__ save_filename.

(** *** [RamseyChevron.run] *)
Definition run (presto_address : string) (presto_port : option Z)
    (ext_ref_clk : bool) : M string :=
  (with_Pulsed presto_address presto_port ext_ref_clk CONVERTER_CONFIGURATION
     (lift (assert (presto.hardware sdk)) ;;
      s <- get_self ;;
      freqs <- figure_out_frequencies s ;;
      let control_if_arr := fst freqs in
      let control_nco := snd freqs in
      configure_hardware s control_nco ;;
      pulses <- setup_measurement s control_if_arr ;;
      let readout_pulse := fst pulses in
      let control_pulse := snd pulses in
      T <- program_pulse_sequence s readout_pulse control_pulse ;;
      T <- adjust_period s T ;;
      run_experiment s T) ;;
   save None)%M.

(** *** [RamseyChevron.load] *)

(** The record is typed after the annotations of [__init__]: a [float]
    parameter takes a numeric attribute, an [int] parameter an integer
    one.  An attribute of another kind, which Python would carry on
    unchecked, is refused here with [TypeError]. *)
Definition as_float (a : h5attr) : result Q :=
  match a with
  | AttrFloat q => Ok q
  | AttrInt z => Ok (inject_Z z)
  | AttrStr _ => Raise TypeError
  end.

Definition as_int (a : h5attr) : result Z :=
  match a with
  | AttrInt z => Ok z
  | _ => Raise TypeError
  end.

(** [ast.literal_eval] refuses what is not a string. *)
Definition as_str (a : h5attr) : result string :=
  match a with
  | AttrStr s => Ok s
  | _ => Raise ValueError
  end.

Definition as_array_like (d : h5dataset) : array_like :=
  match d with
  | DsFloat a => NdArr {| shape := shape a; data := map PyFloat (data a) |}
  | DsComplex a =>
      (* [astype(np.float64)] keeps the real part *)
      NdArr {| shape := shape a; data := map (fun c => PyFloat (fst c)) (data a) |}
  end.

Definition as_float_array (d : h5dataset) : result (ndarray Q) :=
  match d with
  | DsFloat a => Ok a
  | DsComplex _ => Raise TypeError
  end.

Definition as_complex_array (d : h5dataset) : result (ndarray complex) :=
  match d with
  | DsFloat a => Ok {| shape := shape a; data := map (fun q => (q, 0%Q)) (data a) |}
  | DsComplex a => Ok a
  end.

Definition attr_float (h5f : h5file) (k : string) : result Q :=
  (a <- getkey (attrs h5f) k ;; as_float a)%res.
Definition attr_int (h5f : h5file) (k : string) : result Z :=
  (a <- getkey (attrs h5f) k ;; as_int a)%res.

Definition load (load_filename : string) (disk : gmap string h5file)
    : result RamseyChevron :=
  match disk !! load_filename with
  | None => Raise (FileNotFoundError load_filename)
  | Some h5f =>
      (readout_freq <- attr_float h5f "readout_freq" ;;
       control_freq_center <- attr_float h5f "control_freq_center" ;;
       control_freq_span <- attr_float h5f "control_freq_span" ;;
       control_freq_nr <- attr_int h5f "control_freq_nr" ;;
       readout_amp <- attr_float h5f "readout_amp" ;;
       control_amp <- attr_float h5f "control_amp" ;;
       readout_duration <- attr_float h5f "readout_duration" ;;
       control_duration <- attr_float h5f "control_duration" ;;
       sample_duration <- attr_float h5f "sample_duration" ;;
       delay_arr <- getkey (datasets h5f) "delay_arr" ;;
       readout_port <- attr_int h5f "readout_port" ;;
       control_port <- attr_int h5f "control_port" ;;
       sample_port <- attr_int h5f "sample_port" ;;
       wait_delay <- attr_float h5f "wait_delay" ;;
       readout_sample_delay <- attr_float h5f "readout_sample_delay" ;;
       num_averages <- attr_int h5f "num_averages" ;;

       jpa_attr <- getkey (attrs h5f) "jpa_params" ;;
       jpa_str <- as_str jpa_attr ;;
       jpa_params <- literal_eval py jpa_str ;;

       control_freq_arr <- getkey (datasets h5f) "control_freq_arr" ;;
       control_freq_arr <- as_float_array control_freq_arr ;;
       t_arr <- getkey (datasets h5f) "t_arr" ;;
       t_arr <- as_float_array t_arr ;;
       store_arr <- getkey (datasets h5f) "store_arr" ;;
       store_arr <- as_complex_array store_arr ;;

       drag <-
         match attrs h5f !! "drag" with
         | Some a => as_float a
         | None => Ok 0%Q  (* except KeyError *)
         end ;;

       self <- __init__ readout_freq control_freq_center control_freq_span
                 control_freq_nr readout_amp control_amp readout_duration
                 control_duration sample_duration (as_array_like delay_arr)
                 readout_port control_port sample_port wait_delay
                 readout_sample_delay num_averages jpa_params drag ;;
       let self := set_control_freq_arr control_freq_arr self in
       let self := set_store (t_arr, store_arr) self in
       Ok self)%res
  end.

End Program.

(** ** Analysis *)

(** A [float64] that may be infinite or not-a-number: the fitted values. *)
Inductive flt : Type :=
| Fin (q : Q)
| Inf (negative : bool)
| NaN.

(** [np.abs]. *)
Definition fabs (x : flt) : flt :=
  match x with
  | Fin q => Fin (Qabs q)
  | Inf _ => Inf false
  | NaN => NaN
  end.

(** [np.isfinite]. *)
Definition isfinite (x : flt) : bool :=
  match x with Fin _ => true | _ => false end.

(** [a < b] on values that are not NaN. *)
Definition flt_ltb (a b : flt) : bool :=
  match a, b with
  | Fin x, Fin y => Qltb x y
  | Inf true, Inf true => false
  | Inf true, _ => true
  | Fin _, Inf false => true
  | _, _ => false
  end.

(** [np.isnan]. *)
Definition isnan (x : flt) : bool :=
  match x with NaN => true | _ => false end.

(** What [np.nanargmin] compares in place of [x]: [+inf] for a NaN. *)
Definition nan_to_inf (x : flt) : flt :=
  if isnan x then Inf false else x.

(** [np.argmin] on values none of which is NaN: the first index of the
    least value; [ValueError] on an empty array. *)
Fixpoint argmin_from (l : list flt) (i : nat) (best : nat * flt)
    : nat * flt :=
  match l with
  | [] => best
  | x :: l' =>
      argmin_from l' (S i) (if flt_ltb x (snd best) then (i, x) else best)
  end.

Definition np_argmin (l : list flt) : result nat :=
  match l with
  | [] => Raise ValueError
  | x :: l' => Ok (fst (argmin_from l' 1 (0%nat, x)))
  end.

(** [np.nanargmin]: [ValueError] when the array holds values and all of
    them are NaN; otherwise every NaN is replaced by [+inf] and
    [np.argmin] is taken. *)
Definition np_nanargmin (l : list flt) : result nat :=
  if negb (length l =? 0)%nat && forallb isnan l then Raise ValueError
  else np_argmin (map nan_to_inf l).

(** The numerical routines the analysis calls: [rotate_opt] of
    [presto.utils]; the index and the phase of the largest bin of
    [np.fft.rfft(y)] once bin 0 is cleared; [scipy.optimize.curve_fit] on
    [_func] (arguments [x], [y], [p0]) and on [detuning] (arguments [x],
    [y], [p0], [sigma]), which returns [(popt, pcov)] or raises; and
    [np.sqrt]. *)
Record Numerics : Type := {
  rotate_opt : ndarray complex -> ndarray complex;
  rfft_peak : list Q -> nat * flt;
  curve_fit_func : list Q -> list Q -> list flt -> result (list flt * ndarray flt);
  curve_fit_detuning :
    list Q -> list flt -> list flt -> list flt -> result (list flt * ndarray flt);
  sqrt : flt -> flt
}.

(** [np.max] and [np.min]: [ValueError] on an empty array. *)
Definition np_max (l : list Q) : result Q :=
  match l with
  | [] => Raise ValueError
  | x :: l' => Ok (fold_left (fun m y => if Qltb m y then y else m) l' x)
  end.

Definition np_min (l : list Q) : result Q :=
  match l with
  | [] => Raise ValueError
  | x :: l' => Ok (fold_left (fun m y => if Qltb y m then y else m) l' x)
  end.

(** [np.fft.rfftfreq(n, d)]: the bins [0 .. n // 2] times [1 / (n * d)];
    with [n * d = 0] the factor is infinite. *)
Definition np_rfftfreq (n : nat) (d : Q) : list flt :=
  let nd := (inject_Z (Z.of_nat n) * d)%Q in
  map (fun i : nat =>
         if Qeqb nd 0
         then match i with O => NaN | _ => Inf false end
         else Fin (inject_Z (Z.of_nat i) * (1 / nd))%Q)
      (seq 0 (n / 2 + 1)).

(** [np.diag] of a matrix. *)
Definition np_diag {A} (d : A) (m : ndarray A) : result (list A) :=
  match shape m with
  | [r; c] => Ok (map (fun i : nat => nth (i * c + i) (data m) d) (seq 0 (Nat.min r c)))
  | _ => Raise ValueError
  end.

(** [len(a)]. *)
Definition np_len {A} (a : ndarray A) : result nat :=
  match shape a with
  | [] => Raise TypeError
  | n :: _ => Ok n
  end.

(** [a[i]] is defined: used where only the bound check matters. *)
Definition has_index {A} (a : ndarray A) (i : nat) : result unit :=
  match shape a with
  | [] => Raise IndexError
  | n :: _ => if (i <? n)%nat then Ok tt else Raise IndexError
  end.

(** The elements of a 1-d array; arrays of another dimension are refused
    where the analysis needs numbers. *)
Definition numbers {A} (a : ndarray A) : result (list A) :=
  match shape a with
  | [_] => Ok (data a)
  | _ => Raise TypeError
  end.

(** [a[jj]] for a matrix: row [jj]. *)
Definition np_row {A} (a : ndarray A) (jj : nat) : result (list A) :=
  match shape a with
  | [r; c] =>
      if (jj <? r)%nat then Ok (take c (drop (jj * c) (data a)))
      else Raise IndexError
  | _ => Raise TypeError
  end.

(** [a[i] = v] on a list: [IndexError] out of range. *)
Definition setitem {A} (l : list A) (i : nat) (v : A) : result (list A) :=
  if (i <? length l)%nat then Ok (<[i := v]> l) else Raise IndexError.

(** Element [[i, j, k]] of a 3-d array and [[i, j]] of a matrix, in
    row-major order. *)
Definition get3 (a : ndarray complex) (n1 n2 i j k : nat) : complex :=
  nth ((i * n1 + j) * n2 + k) (data a) (0%Q, 0%Q).

Definition get2 (a : ndarray complex) (i j : nat) : option complex :=
  match shape a with
  | [r; c] => if (i <? r)%nat && (j <? c)%nat then data a !! (i * c + j)%nat else None
  | _ => None
  end.

(** [a[:, j, idx]] for a 3-d array [a] and a list of indices [idx]. *)
Definition np_take_2 (a : ndarray complex) (j : nat) (idx : list nat)
    : result (ndarray complex) :=
  match shape a with
  | [n0; n1; n2] =>
      if (j <? n1)%nat && forallb (fun k => (k <? n2)%nat) idx
      then Ok {| shape := [n0; length idx];
                 data := flat_map (fun i => map (fun k => get3 a n1 n2 i j k) idx)
                           (seq 0 n0) |}
      else Raise IndexError
  | [] | [_] | [_; _] => Raise IndexError  (* too many indices *)
  | _ => Raise TypeError
  end.

(** The mean of a list of complex numbers. *)
Definition cmean (l : list complex) : complex :=
  cdivn (fold_right cadd (0%Q, 0%Q) l) (length l).

(** [np.mean(a, axis=-1)] for a matrix. *)
Definition np_mean_last (a : ndarray complex) : result (ndarray complex) :=
  match shape a with
  | [r; c] =>
      Ok {| shape := [r];
            data := map (fun i : nat => cmean (take c (drop (i * c) (data a))))
                      (seq 0 r) |}
  | _ => Raise TypeError
  end.

(** [a.shape = s]: allowed when [s] asks for as many elements as [a] has. *)
Definition set_shape {A} (a : ndarray A) (s : list nat) : result (ndarray A) :=
  if (shape_size s =? shape_size (shape a))%nat
  then Ok {| shape := s; data := data a |}
  else Raise ValueError.

(** [np.zeros_like(a)]: as many zeros as the shape of [a] asks for. *)
Definition np_zeros_like {A} (a : ndarray A) : list flt :=
  repeat (Fin 0) (shape_size (shape a)).

(** [np.arange(lo, hi)]. *)
Definition np_arange (lo hi : nat) : list nat := seq lo (hi - lo).

(** What [analyze] draws and prints. *)
Record analysis : Type := {
  plot_data : ndarray Q;
  fit_freq : list flt;
  err_freq : list flt;
  x0_opt : flt;
  x0_err : flt
}.

Section Analysis.

Variable num : Numerics.

(** *** [_fit_simple] *)
Definition _fit_simple (x : ndarray Q) (y : list Q)
    : result (list flt * list flt) :=
  (ymax <- np_max y ;;
   ymin <- np_min y ;;
   let pkpk := (ymax - ymin)%Q in
   ymin <- np_min y ;;
   let offset := (ymin + pkpk / 2)%Q in
   let amplitude := ((1 # 2) * pkpk)%Q in
   xs <- numbers x ;;
   xmax <- np_max xs ;;
   xmin <- np_min xs ;;
   let T2 := ((1 # 2) * (xmax - xmin))%Q in
   x1 <- getitem xs 1 ;;
   x0 <- getitem xs 0 ;;
   let freqs := np_rfftfreq (length xs) (x1 - x0) in
   let idx_max := fst (rfft_peak num y) in
   frequency <- getitem freqs idx_max ;;
   let phase := snd (rfft_peak num y) in
   let p0 := [Fin offset; Fin amplitude; Fin T2; frequency; phase] in
   fit <- curve_fit_func num xs y p0 ;;
   let popt := fst fit in
   let pcov := snd fit in
   d <- np_diag NaN pcov ;;
   let perr := map (sqrt num) d in
   Ok (popt, perr))%res.

(** *** [analyze], lines 335-336: the response map. *)
Definition response_map (s : RamseyChevron) (store_arr : ndarray complex)
    : result (ndarray complex) :=
  (let idx := np_arange IDX_LOW IDX_HIGH in
   w <- np_take_2 store_arr 0 idx ;;
   resp_arr <- np_mean_last w ;;
   n <- np_len (delay_arr s) ;;
   set_shape resp_arr [Z.to_nat (control_freq_nr s); n])%res.

(** *** [analyze], lines 308-365: up to the data that is drawn.
    The calls to matplotlib are left out. *)
Definition analyze_plot_data (s : RamseyChevron) (all_plots : bool)
    : result (ndarray Q * ndarray Q) :=
  match t_arr s, store_arr s, control_freq_arr s with
  | None, _, _ | _, None, _ | _, _, None => Raise AssertionError
  | Some t_arr, Some store_arr, Some control_freq_arr =>
      (n <- np_len control_freq_arr ;;
       assert (Z.of_nat n =? control_freq_nr s)%Z ;;
       has_index t_arr IDX_LOW ;;
       has_index t_arr IDX_HIGH ;;
       (if all_plots
        then (* store_arr[0, 0, :] *)
          match shape store_arr with
          | n0 :: n1 :: _ :: _ =>
              if (0 <? n0)%nat && (0 <? n1)%nat then Ok tt else Raise IndexError
          | _ => Raise IndexError
          end
        else Ok tt) ;;
       (* Analyze T1 *)
       resp_arr <- response_map s store_arr ;;
       let data_ := rotate_opt num resp_arr in
       let plot_data := map fst (data data_) in
       data_max <- np_max (map Qabs plot_data) ;;
       let mult :=
         if Qltb data_max (1 # 1000000) then 1000000000%Q
         else if Qltb data_max (1 # 1000) then 1000000%Q
         else if Qltb data_max 1 then 1000%Q
         else 1%Q in
       let plot_data := map (fun v => (v * mult)%Q) plot_data in
       (* extent *)
       has_index (delay_arr s) 0 ;;
       n <- np_len (delay_arr s) ;;
       has_index (delay_arr s) (n - 1) ;;
       has_index (delay_arr s) 1 ;;
       has_index control_freq_arr 0 ;;
       n <- np_len control_freq_arr ;;
       has_index control_freq_arr (n - 1) ;;
       has_index control_freq_arr 1 ;;
       Ok ({| shape := shape data_; data := plot_data |}, control_freq_arr))%res
  end.

(** *** [analyze], lines 392-397: one turn of the fitting loop, on the
    arrays [fit_freq] and [err_freq]. *)
Definition fit_row (x : ndarray Q) (plot_data : ndarray Q) (jj : nat)
    (fit_freq err_freq : list flt) : result (list flt * list flt) :=
  let try : result (list flt * list flt) * list flt :=
    match (row <- np_row plot_data jj ;; _fit_simple x row)%res with
    | Raise e => (Raise e, fit_freq)
    | Ok (res, err) =>
        match getitem res 3 with
        | Raise e => (Raise e, fit_freq)
        | Ok r3 =>
            match setitem fit_freq jj (fabs r3) with
            | Raise e => (Raise e, fit_freq)
            | Ok fit_freq' =>
                match (e3 <- getitem err 3 ;; setitem err_freq jj e3)%res with
                | Raise e => (Raise e, fit_freq')
                | Ok err_freq' => (Ok (fit_freq', err_freq'), fit_freq')
                end
            end
        end
    end in
  match try with
  | (Ok r, _) => Ok r
  | (Raise _, fit_freq) =>  (* except Exception *)
      (fit_freq <- setitem fit_freq jj NaN ;; Ok (fit_freq, err_freq))%res
  end.

(** [for jj in range(...)]. *)
Fixpoint fit_loop (x : ndarray Q) (plot_data : ndarray Q) (rows : list nat)
    (fit_freq err_freq : list flt) : result (list flt * list flt) :=
  match rows with
  | [] => Ok (fit_freq, err_freq)
  | jj :: rows' =>
      (r <- fit_row x plot_data jj fit_freq err_freq ;;
       fit_loop x plot_data rows' (fst r) (snd r))%res
  end.

(** [a[mask]]. *)
Definition select {A} (mask : list bool) (a : list A) : list A :=
  omap (fun p : bool * A => if fst p then Some (snd p) else None) (zip mask a).

(** *** [RamseyChevron.analyze] *)
Definition analyze (s : RamseyChevron) (all_plots : bool) : result analysis :=
  (pc <- analyze_plot_data s all_plots ;;
   let plot_data := fst pc in
   cfa <- numbers (snd pc) ;;
   let fit_freq := np_zeros_like (snd pc) in
   let err_freq := np_zeros_like (snd pc) in
   fits <- fit_loop (delay_arr s) plot_data
             (seq 0 (Z.to_nat (control_freq_nr s))) fit_freq err_freq ;;
   let fit_freq := fst fits in
   let err_freq := snd fits in
   let good_idx := map isfinite fit_freq in
   i <- np_nanargmin fit_freq ;;
   guess <- getitem cfa i ;;
   fit <- curve_fit_detuning num (select good_idx cfa) (select good_idx fit_freq)
            [Fin guess] (select good_idx err_freq) ;;
   let popt := fst fit in
   let pcov := snd fit in
   d <- np_diag NaN pcov ;;
   let perr := map (sqrt num) d in
   x0_opt <- getitem popt 0 ;;
   x0_err <- getitem perr 0 ;;
   Ok {| plot_data := plot_data; fit_freq := fit_freq; err_freq := err_freq;
         x0_opt := x0_opt; x0_err := x0_err |})%res.

End Analysis.


(** * Vocabulary of the properties *)

Local Open Scope list_scope.

(** ** The constructor *)

(** The accepted forms of [delay_arr] whose elements are the numbers
    [xs]: a number, a list of numbers, a one-dimensional array. *)
Inductive delay_input : array_like -> list pynum -> Prop :=
| delay_scalar x : delay_input (Scalar x) [x]
| delay_list xs : delay_input (Seq (map Scalar xs)) xs
| delay_array xs : delay_input (NdArr (array1 xs)) xs.

(** ** Statements of [run] *)

(** Several events at once. *)
Definition logs (es : list event) (st : state) : state :=
  {| self := self st; trace := trace st ++ es; files := files st |}.

(** What [run] does once the frequencies are known, up to the end of the
    [with] block. *)
Definition measure (sdk : presto.Presto) (s : RamseyChevron)
    (control_if_arr : list Q) (control_nco : Q) : M unit :=
  (configure_hardware sdk s control_nco ;;
   pulses <- setup_measurement sdk s control_if_arr ;;
   T <- program_pulse_sequence sdk s (fst pulses) (snd pulses) ;;
   T <- adjust_period sdk s T ;;
   run_experiment sdk s T)%M.

(** The [with] block of [run]. *)
Definition with_block (sdk : presto.Presto) (address : string)
    (port : option Z) (ext : bool) : M unit :=
  with_Pulsed sdk address port ext CONVERTER_CONFIGURATION
    (lift (assert (presto.hardware sdk)) ;;
     s <- get_self ;;
     freqs <- figure_out_frequencies sdk s ;;
     measure sdk s (fst freqs) (snd freqs))%M.

(** The vendor answers the call [c] whatever came before. *)
Definition answers (sdk : presto.Presto) (c : presto.call) : Prop :=
  forall h, presto.raises sdk h c = None.

(** From a state whose object satisfies [P], the statement [m] ends in
    such a state again, and an exception it raises satisfies [E]. *)
Definition sound {A} (E : exn -> Prop) (P : RamseyChevron -> Prop)
    (m : M A) : Prop :=
  forall st, P (self st) ->
    P (self (snd (m st))) /\ forall e, fst (m st) = Raise e -> E e.

(** ** The swept frequencies *)

(** The frequencies [out] run from [center - span / 2] to
    [center + span / 2] in [control_freq_nr] equal steps. *)
Definition spans_sweep (s : RamseyChevron) (out : list Q) : Prop :=
  let lo := (control_freq_center s - control_freq_span s / 2)%Q in
  let hi := (control_freq_center s + control_freq_span s / 2)%Q in
  length out = Z.to_nat (control_freq_nr s)
  /\ (exists f, head out = Some f /\ f == lo)
  /\ (exists f, last out = Some f /\ f == hi)
  /\ (forall i f, out !! i = Some f ->
       f == lo + inject_Z (Z.of_nat i)
                 * ((hi - lo) / inject_Z (control_freq_nr s - 1))).

(** ** The pulse sequence *)

(** The calls that prepare the experiment: opening the connection,
    asking for rates, configuring hardware, setting up tables and pulses,
    and placing the events of the sequence. *)
Definition is_configuration (c : presto.call) : bool :=
  match c with
  | presto.Pulsed_enter _ _ _ _ => true
  | _ => presto.is_query c || presto.is_hardware_call c
         || presto.is_setup_call c || presto.is_sequence_call c
  end.

(** The calls of one turn of the loop that starts at [T], and the time at
    which the next turn starts. *)
Definition iteration_calls (s : RamseyChevron)
    (readout_pulse control_pulse : presto.pulse) (T delay : Q)
    : list presto.call :=
  let t2 := (T + control_duration s + delay)%Q in
  let t3 := (t2 + control_duration s)%Q in
  [presto.reset_phase T (control_port s);
   presto.output_pulse T control_pulse;
   presto.output_pulse t2 control_pulse;
   presto.reset_phase t3 (readout_port s);
   presto.output_pulse t3 readout_pulse;
   presto.store (t3 + readout_sample_delay s)%Q].

Definition iteration_end (s : RamseyChevron) (T delay : Q) : Q :=
  (T + control_duration s + delay + control_duration s
   + readout_duration s + wait_delay s)%Q.

Fixpoint loop_calls (s : RamseyChevron)
    (readout_pulse control_pulse : presto.pulse) (delays : list Q) (T : Q)
    : list (list presto.call) :=
  match delays with
  | [] => []
  | delay :: delays' =>
      iteration_calls s readout_pulse control_pulse T delay
      :: loop_calls s readout_pulse control_pulse delays' (iteration_end s T delay)
  end.

Fixpoint loop_end (s : RamseyChevron) (delays : list Q) (T : Q) : Q :=
  match delays with
  | [] => T
  | delay :: delays' => loop_end s delays' (iteration_end s T delay)
  end.

(** The sum of a list of numbers. *)
Definition Qsum (l : list Q) : Q := fold_right Qplus 0%Q l.

(** The calls [block] of one turn of the loop, for the delay [delay]: two
    outputs of the control pulse [control_duration + delay] apart, the
    readout pulse when the second one ends, and the store
    [readout_sample_delay] later. *)
Definition ramsey_block (s : RamseyChevron)
    (readout_pulse control_pulse : presto.pulse)
    (delay : Q) (block : list presto.call) : Prop :=
  exists t1 t2 t3,
    block = [presto.reset_phase t1 (control_port s);
             presto.output_pulse t1 control_pulse;
             presto.output_pulse t2 control_pulse;
             presto.reset_phase t3 (readout_port s);
             presto.output_pulse t3 readout_pulse;
             presto.store (t3 + readout_sample_delay s)%Q]
    /\ (t2 - t1 == control_duration s + delay)%Q
    /\ (t3 == t2 + control_duration s)%Q.

(** The block as C2 words it: the readout pulse one [control_duration]
    after the second control pulse has ended. *)
Definition ramsey_block_as_stated (s : RamseyChevron)
    (readout_pulse control_pulse : presto.pulse)
    (delay : Q) (block : list presto.call) : Prop :=
  exists t1 t2 t3,
    block = [presto.reset_phase t1 (control_port s);
             presto.output_pulse t1 control_pulse;
             presto.output_pulse t2 control_pulse;
             presto.reset_phase t3 (readout_port s);
             presto.output_pulse t3 readout_pulse;
             presto.store (t3 + readout_sample_delay s)%Q]
    /\ (t2 - t1 == control_duration s + delay)%Q
    /\ (t3 == (t2 + control_duration s) + control_duration s)%Q.

(** ** Two runs side by side *)

(** The object with the arrays that [run] produces forgotten: its
    constructor parameters. *)
Definition parameters (s : RamseyChevron) : RamseyChevron :=
  {| readout_freq := readout_freq s;
     control_freq_center := control_freq_center s;
     control_freq_span := control_freq_span s;
     control_freq_nr := control_freq_nr s;
     readout_amp := readout_amp s;
     control_amp := control_amp s;
     readout_duration := readout_duration s;
     control_duration := control_duration s;
     sample_duration := sample_duration s;
     delay_arr := delay_arr s;
     readout_port := readout_port s;
     control_port := control_port s;
     sample_port := sample_port s;
     wait_delay := wait_delay s;
     readout_sample_delay := readout_sample_delay s;
     num_averages := num_averages s;
     jpa_params := jpa_params s;
     drag := drag s;
     control_freq_arr := None;
     t_arr := None;
     store_arr := None |}.



(** ** Files *)




(** ** The numbers and the text of [jpa_params] *)

(** A rational of the model that stands for a [float]: one with a
    finite decimal expansion, as every [float64] has. *)
Definition is_float (q : Q) : Prop :=
  exists k : nat, (Z.pos (Qden q) | 10 ^ Z.of_nat k)%Z.

(** The numbers of [jpa_params] are floats. *)
Definition jpa_floats (j : option jpa_dict) : Prop :=
  match j with
  | None => True
  | Some d => map_Forall (fun _ q => is_float q) d
  end.

(** The numbers of [jpa_params] are written in lowest terms. *)
Definition jpa_lowest_terms (j : option jpa_dict) : Prop :=
  match j with
  | None => True
  | Some d => map_Forall (fun _ q => Qred q = q) d
  end.

(** [jpa_params] with each of its numbers put in lowest terms. *)
Definition jpa_reduced (j : option jpa_dict) : option jpa_dict :=
  match j with
  | None => None
  | Some d => Some (Qred <$> d)
  end.

(** Two values of [jpa_params] with the same keys and, under each key,
    the same number. *)
Definition jpa_same (j1 j2 : option jpa_dict) : Prop :=
  match j1, j2 with
  | None, None => True
  | Some d1, Some d2 => forall k, option_Forall2 Qeq (d1 !! k) (d2 !! k)
  | _, _ => False
  end.

(** The object [s] with [j] for [jpa_params]. *)
Definition set_jpa_params (j : option jpa_dict) (s : RamseyChevron)
    : RamseyChevron :=
  {| readout_freq := readout_freq s;
     control_freq_center := control_freq_center s;
     control_freq_span := control_freq_span s;
     control_freq_nr := control_freq_nr s;
     readout_amp := readout_amp s;
     control_amp := control_amp s;
     readout_duration := readout_duration s;
     control_duration := control_duration s;
     sample_duration := sample_duration s;
     delay_arr := delay_arr s;
     readout_port := readout_port s;
     control_port := control_port s;
     sample_port := sample_port s;
     wait_delay := wait_delay s;
     readout_sample_delay := readout_sample_delay s;
     num_averages := num_averages s;
     jpa_params := j;
     drag := drag s;
     control_freq_arr := control_freq_arr s;
     t_arr := t_arr s;
     store_arr := store_arr s |}.

(** Two objects equal in every parameter and array, the numbers of
    [jpa_params] being compared by value, as all numbers of the model
    are. *)
Definition same_object (s1 s2 : RamseyChevron) : Prop :=
  set_jpa_params None s1 = set_jpa_params None s2
  /\ jpa_same (jpa_params s1) (jpa_params s2).

(** The number with the digits of [m], [k] of them after the point. *)
Definition decimal_value (m : Z) (k : nat) : Q :=
  m # Z.to_pos (10 ^ Z.of_nat k).

(** A text at the head of which no digit is left to read. *)
Definition ends_digits (s : text) : Prop :=
  match s with
  | [] => True
  | c :: _ => digit_value c = None
  end.

(** A text at the head of which a number has ended. *)
Definition ends_number (s : text) : Prop :=
  match s with
  | [] => True
  | c :: _ =>
      digit_value c = None /\ Ascii.eqb c (chr ".") = false
      /\ Ascii.eqb c (chr "e") = false /\ Ascii.eqb c (chr "E") = false
  end.

(** A text that starts with a character other than a space. *)
Definition starts (s : text) : Prop :=
  exists c s', s = c :: s' /\ Ascii.eqb c (chr " ") = false.

(** ** The fitting loop *)


(** ** A concrete vendor, interpreter, objects and data *)

Definition demo_sdk : presto.Presto :=
  {| presto.hardware := true;
     presto.fs := fun _ => 10%Q;
     presto.clk_f := 1000;
     presto.clk_T := 1 # 1000;
     presto.long_drive := 1%nat;
     presto.template := 2%nat;
     presto.store_data :=
       (array1 [0%Q], {| shape := [1; 1; 1]%nat; data := [(1%Q, 0%Q)] |});
     presto.raises := fun _ _ => None |}.

Definition demo_py : Python :=
  python (fun _ script fn =>
            match fn with Some f => f | None => "data/ramsey_chevron.h5" end).

(** An object with [nr] control frequencies around 4 (span 2) and the
    delays 0 and 1/2. *)
Definition demo_self (nr : Z) : RamseyChevron :=
  {| readout_freq := 6; control_freq_center := 4; control_freq_span := 2;
     control_freq_nr := nr; readout_amp := 1; control_amp := 1;
     readout_duration := 2; control_duration := 1; sample_duration := 3;
     delay_arr := array1 [0%Q; 1 # 2];
     readout_port := 1; control_port := 2; sample_port := 1;
     wait_delay := 5; readout_sample_delay := 0; num_averages := 10;
     jpa_params := None; drag := 0;
     control_freq_arr := None; t_arr := None; store_arr := None |}.

Definition demo_state (nr : Z) : state :=
  {| self := demo_self nr; trace := []; files := ∅ |}.

(** An object whose centre frequency is too low for its span. *)
Definition demo_low : RamseyChevron :=
  {| readout_freq := 6; control_freq_center := 1; control_freq_span := 2;
     control_freq_nr := 3; readout_amp := 1; control_amp := 1;
     readout_duration := 2; control_duration := 1; sample_duration := 3;
     delay_arr := array1 [0%Q; 1 # 2];
     readout_port := 1; control_port := 2; sample_port := 1;
     wait_delay := 5; readout_sample_delay := 0; num_averages := 10;
     jpa_params := None; drag := 0;
     control_freq_arr := None; t_arr := None; store_arr := None |}.

(** The object of [demo_state 3] after an earlier measurement. *)
Definition demo_used : RamseyChevron :=
  set_store (array1 [7%Q], array1 [(7%Q, 7%Q)])
    (set_control_freq_arr (array1 [1%Q]) (demo_self 3)).


(** A store buffer of four traces of 2000 samples on one port; trace [i]
    holds the constant [i + 1]. *)
Definition demo_store : ndarray complex :=
  {| shape := [4; 1; 2000]%nat;
     data := flat_map (fun i : Z => repeat (inject_Z i, 0%Q) 2000) [1; 2; 3; 4]%Z |}.

(** An object after a measurement with two control frequencies and two
    delays. *)
Definition demo_analyzed : RamseyChevron :=
  set_store (array1 (repeat 0%Q 2001), demo_store)
    (set_control_freq_arr (array1 [3%Q; 5%Q]) (demo_self 2)).

(** Numerical routines for the example: a fit that does not converge on a
    row that starts at 3 or above, and that returns the frequency [-3]
    otherwise. *)
Definition demo_num : Numerics :=
  {| rotate_opt := fun a => a;
     rfft_peak := fun _ => (1%nat, Fin 0);
     curve_fit_func :=
       fun x y p0 =>
         match y with
         | y0 :: _ =>
             if Qltb y0 3
             then Ok ([Fin 0; Fin 1; Fin 1; Fin (-3); Fin 0],
                      {| shape := [5; 5]%nat; data := repeat (Fin 4) 25 |})
             else Raise (RuntimeError "Optimal parameters not found")
         | [] => Raise ValueError
         end;
     curve_fit_detuning :=
       fun x y p0 sigma =>
         Ok (p0, {| shape := [1; 1]%nat; data := [Fin 0] |});
     sqrt := fun v => v |}.

(** The data [analyze] draws for [demo_analyzed]. *)
Definition demo_plot_data : ndarray Q :=
  match analyze_plot_data demo_num demo_analyzed false with
  | Ok p => fst p
  | Raise _ => array1 []
  end.

(** ** The calls of a whole run *)

(** The vendor raises on no call. *)
Definition quiet (sdk : presto.Presto) : Prop :=
  forall h c, presto.raises sdk h c = None.

(** The call of [pls.run]. *)
Definition is_run (c : presto.call) : bool :=
  match c with
  | presto.run _ _ _ _ => true
  | _ => false
  end.

(** The vendor raises on no call other than [pls.run]. *)
Definition quiet_until_run (sdk : presto.Presto) : Prop :=
  forall h c, is_run c = false -> presto.raises sdk h c = None.

(** The calls that drive a JPA: its pump, its bias and the pause after
    setting them. *)
Definition is_jpa_call (c : presto.call) : bool :=
  match c with
  | presto.hardware_set_lmx _ _ _ | presto.hardware_set_dc_bias _ _
  | presto.hardware_sleep _ _ => true
  | _ => false
  end.

(** The calls that ask for the clock. *)
Definition is_clock_query (c : presto.call) : bool :=
  match c with
  | presto.get_clk_f | presto.get_clk_T => true
  | _ => false
  end.

(** The calls that open and close the connection. *)
Definition is_connection (c : presto.call) : bool :=
  match c with
  | presto.Pulsed_enter _ _ _ _ | presto.Pulsed_exit => true
  | _ => false
  end.

(** The five entries of [jpa_params] that [run] reads. *)
Record jpa_values : Type := {
  pump_freq : Q;
  pump_pwr : Q;
  pump_port : Q;
  bias : Q;
  bias_port : Q
}.

Definition jpa_keys : list string :=
  ["pump_freq"; "pump_pwr"; "pump_port"; "bias"; "bias_port"].

Definition jpa_read (jpa : jpa_dict) : option jpa_values :=
  match jpa !! "pump_freq", jpa !! "pump_pwr", jpa !! "pump_port",
        jpa !! "bias", jpa !! "bias_port" with
  | Some pf, Some pp, Some port, Some b, Some bp =>
      Some {| pump_freq := pf; pump_pwr := pp; pump_port := port;
              bias := b; bias_port := bp |}
  | _, _, _, _, _ => None
  end.

(** Lines 96-111: the calls that configure converters and mixers. *)
Definition hardware_calls (s : RamseyChevron) (control_nco : Q)
    : list presto.call :=
  [presto.hardware_set_adc_attenuation (sample_port s) 0;
   presto.hardware_set_dac_current (readout_port s) DAC_CURRENT;
   presto.hardware_set_dac_current (control_port s) DAC_CURRENT;
   presto.hardware_set_inv_sinc (readout_port s) 0;
   presto.hardware_set_inv_sinc (control_port s) 0;
   presto.hardware_configure_mixer (readout_freq s) (Some (sample_port s))
     (readout_port s) false;
   presto.hardware_configure_mixer control_nco None (control_port s) true].

(** Lines 113-119 and 242-243: the calls that switch a JPA on and off. *)
Definition jpa_on_calls (v : jpa_values) : list presto.call :=
  [presto.hardware_set_lmx (pump_freq v) (pump_pwr v) (pump_port v);
   presto.hardware_set_dc_bias (bias v) (bias_port v);
   presto.hardware_sleep 1 false].

Definition jpa_off_calls (v : jpa_values) : list presto.call :=
  [presto.hardware_set_lmx 0 0 (pump_port v);
   presto.hardware_set_dc_bias 0 (bias_port v)].

(** Lines 168-186: the template of the control pulse and its quadrature. *)
Definition control_ns (sdk : presto.Presto) (s : RamseyChevron) : Z :=
  py_round (control_duration s * presto.fs sdk "dac").

Definition control_template (sdk : presto.Presto) (s : RamseyChevron)
    : presto.wave * option presto.wave :=
  let envelope :=
    presto.scaled (presto.real (control_amp s))
      (presto.sin2 (control_ns sdk s) (drag s)) in
  if Qeqb (drag s) 0
  then (presto.scaled presto.sqrt2 envelope,
        Some (presto.scaled presto.sqrt2 envelope))
  else (presto.scaled (presto.sqrt2_exp_i (presto.pi_times (1 # 4))) envelope,
        None).

(** Lines 127-190: the calls that set up tables, pulses and the window. *)
Definition setup_calls (sdk : presto.Presto) (s : RamseyChevron)
    (control_if_arr : list Q) : list presto.call :=
  [presto.setup_freq_lut (readout_port s) 0 (presto.one 0%Q)
     (presto.one (presto.pi_times 0)) (presto.one (presto.pi_times 0));
   presto.setup_freq_lut (control_port s) 0 (presto.many control_if_arr)
     (presto.many (np_full_like control_if_arr (presto.pi_times 0)))
     (presto.many (np_full_like control_if_arr (presto.pi_times (- (1 # 2)))));
   presto.setup_scale_lut (readout_port s) 0 (readout_amp s);
   presto.setup_scale_lut (control_port s) 0 1;
   presto.setup_long_drive (readout_port s) 0 (readout_duration s) 1 1 0 0;
   presto.get_fs "dac";
   presto.setup_template (control_port s) 0 (fst (control_template sdk s))
     (snd (control_template sdk s)) true;
   presto.set_store_ports (sample_port s);
   presto.set_store_duration (sample_duration s)].

(** Lines 218-228: the intermediate frequency of the idler of the JPA,
    its period in clock cycles, and the period of the sequence in clock
    cycles once adjusted. *)
Definition idler_if (s : RamseyChevron) (v : jpa_values) : Q :=
  Qabs (pump_freq v - readout_freq s - readout_freq s).

Definition idler_period_clk (sdk : presto.Presto) (s : RamseyChevron)
    (v : jpa_values) : Z :=
  py_round (1 / idler_if s v * presto.clk_f sdk).

Definition adjusted_clk (sdk : presto.Presto) (s : RamseyChevron)
    (v : jpa_values) (T : Q) : Z :=
  let T_clk := py_round (T * presto.clk_f sdk) in
  let p := idler_period_clk sdk s v in
  ((if (0 <? T_clk mod p)%Z then T_clk + (p - T_clk mod p) else T_clk) + 1)%Z.

(** The period passed to [pls.run] when the sequence ends at [T]. *)
Definition period (sdk : presto.Presto) (s : RamseyChevron)
    (jv : option jpa_values) (T : Q) : Q :=
  match jv with
  | Some v => (inject_Z (adjusted_clk sdk s v T) * presto.clk_T sdk)%Q
  | None => T
  end.

Definition adjust_calls (jv : option jpa_values) : list presto.call :=
  match jv with
  | Some _ => [presto.get_clk_f; presto.get_clk_f; presto.get_clk_T]
  | None => []
  end.

(** The calls of [run] up to the call of [pls.run], for the frequencies
    [control_if_arr], the delays [delays] and the JPA entries [jv]. *)
Definition calls_before_run (sdk : presto.Presto) (s : RamseyChevron)
    (address : string) (port : option Z) (ext : bool)
    (jv : option jpa_values) (control_if_arr delays : list Q)
    : list presto.call :=
  let control_nco := (control_freq_center s - presto.fs sdk "dac" / 4)%Q in
  let readout_pulse := presto.long_drive sdk in
  let control_pulse := presto.template sdk in
  [presto.Pulsed_enter address port ext CONVERTER_CONFIGURATION;
   presto.get_fs "dac"; presto.get_fs "dac"]
  ++ hardware_calls s control_nco
  ++ from_option jpa_on_calls [] jv
  ++ setup_calls sdk s control_if_arr
  ++ concat (loop_calls s readout_pulse control_pulse delays 0)
  ++ [presto.next_frequency (loop_end s delays 0) (control_port s)]
  ++ adjust_calls jv.

Definition run_call (sdk : presto.Presto) (s : RamseyChevron)
    (jv : option jpa_values) (delays : list Q) : presto.call :=
  presto.run (period sdk s jv (loop_end s delays 0 + wait_delay s))
    (control_freq_nr s) (num_averages s) true.

(** All the calls of a [run] that returns. *)
Definition run_calls (sdk : presto.Presto) (s : RamseyChevron)
    (address : string) (port : option Z) (ext : bool)
    (jv : option jpa_values) (control_if_arr delays : list Q)
    : list presto.call :=
  calls_before_run sdk s address port ext jv control_if_arr delays
  ++ [run_call sdk s jv delays; presto.get_store_data]
  ++ from_option jpa_off_calls [] jv
  ++ [presto.Pulsed_exit].

(** [jv] holds the five entries read from [jpa_params], when there is
    one. *)
Definition jpa_present (s : RamseyChevron) (jv : option jpa_values) : Prop :=
  match jpa_params s with
  | None => jv = None
  | Some jpa => exists v, jv = Some v /\ jpa_read jpa = Some v
  end.

(** What [jpa_params] has to hold for [run] to get through: nothing, or
    the five entries, with a pump that is not at twice the readout
    frequency and an idler period of at least one clock cycle. *)
Definition jpa_ready (sdk : presto.Presto) (s : RamseyChevron)
    (jv : option jpa_values) : Prop :=
  match jpa_params s with
  | None => jv = None
  | Some jpa =>
      exists v, jv = Some v /\ jpa_read jpa = Some v
                /\ ~ idler_if s v == 0
                /\ idler_period_clk sdk s v <> 0%Z
  end.

(** The conditions under which the [with] block of [run] gets through on
    an instrument that raises nothing. *)
Definition ready (sdk : presto.Presto) (s : RamseyChevron)
    (jv : option jpa_values) (control_if_arr delays : list Q) : Prop :=
  let fs_dac := presto.fs sdk "dac" in
  presto.hardware sdk = true
  /\ (control_freq_span s / 2 < control_freq_center s)%Q
  /\ (control_freq_span s < fs_dac / 2)%Q
  /\ np_linspace (fs_dac / 4 - control_freq_span s / 2)
       (fs_dac / 4 + control_freq_span s / 2) (control_freq_nr s)
     = Ok control_if_arr
  /\ iter_numbers (delay_arr s) = Ok delays
  /\ jpa_ready sdk s jv.

(** The state in which [run] has assigned [control_freq_arr] and made the
    calls [cs]. *)
Definition swept (sdk : presto.Presto) (st : state)
    (control_if_arr : list Q) (cs : list presto.call) : state :=
  let s := self st in
  let control_nco := (control_freq_center s - presto.fs sdk "dac" / 4)%Q in
  {| self := set_control_freq_arr
               (array1 (map (fun f => (control_nco + f)%Q) control_if_arr)) s;
     trace := trace st ++ map Call cs;
     files := files st |}.

(** The end of the [with] block: the connection is closed, and the
    outcome of the block stands unless closing raises. *)
Definition closing {A} (sdk : presto.Presto) (p : result A * state)
    : result A * state :=
  match call sdk presto.Pulsed_exit (snd p) with
  | (Ok _, st3) => (fst p, st3)
  | (Raise e, st3) => (Raise e, st3)
  end.

(** The object after a [run] that returns. *)
Definition measured (sdk : presto.Presto) (s : RamseyChevron)
    (control_if_arr : list Q) : RamseyChevron :=
  let control_nco := (control_freq_center s - presto.fs sdk "dac" / 4)%Q in
  set_store (presto.store_data sdk)
    (set_control_freq_arr
       (array1 (map (fun f => (control_nco + f)%Q) control_if_arr)) s).

(** ** What [run] may call *)

(** The calls allowed inside the [with] block of an object [s]: none that
    opens or closes the connection and, without [jpa_params], none that
    drives a JPA or asks for the clock. *)
Definition allowed (s : RamseyChevron) (c : presto.call) : bool :=
  negb (is_connection c)
  && match jpa_params s with
     | Some _ => true
     | None => negb (is_jpa_call c || is_clock_query c)
     end.

(** The statement [m] adds to the trace nothing but calls that satisfy
    [Q]. *)
Definition emits {A} (Q : presto.call -> bool) (m : M A) : Prop :=
  forall st, exists cs,
    trace (snd (m st)) = trace st ++ map Call cs /\ forallb Q cs = true.

(** ** Entries missing from [jpa_params] *)

(** The first of the five entries that [jpa_params] lacks. *)
Definition first_missing (jpa : jpa_dict) : option string :=
  List.find (fun k => match jpa !! k with None => true | Some _ => false end)
    jpa_keys.

(** The call that sets the pump, once its three entries have been
    read. *)
Definition pump_calls (jpa : jpa_dict) : list presto.call :=
  match jpa !! "pump_freq", jpa !! "pump_pwr", jpa !! "pump_port" with
  | Some pf, Some pp, Some port => [presto.hardware_set_lmx pf pp port]
  | _, _, _ => []
  end.

(** ** The sequence in time *)

(** The time of a call that outputs a pulse, resets a phase or steps the
    frequency. *)
Definition pulse_time (c : presto.call) : option Q :=
  match c with
  | presto.reset_phase t _ | presto.output_pulse t _
  | presto.next_frequency t _ => Some t
  | _ => None
  end.

(** ** From [run] to [analyze] *)

(** What the four assertions at the head of [analyze] ask of the
    object. *)
Definition analyze_asserts (s : RamseyChevron) : Prop :=
  exists ta sa cfa n,
    t_arr s = Some ta /\ store_arr s = Some sa /\ control_freq_arr s = Some cfa
    /\ np_len cfa = Ok n /\ Z.of_nat n = control_freq_nr s.

(** ** From the constructor to the sequence *)

Definition is_store (c : presto.call) : bool :=
  match c with
  | presto.store _ => true
  | _ => false
  end.

Definition is_output_pulse (c : presto.call) : bool :=
  match c with
  | presto.output_pulse _ _ => true
  | _ => false
  end.

Definition is_reset_phase (c : presto.call) : bool :=
  match c with
  | presto.reset_phase _ _ => true
  | _ => false
  end.

Definition is_next_frequency (c : presto.call) : bool :=
  match c with
  | presto.next_frequency _ _ => true
  | _ => false
  end.

(** How many of the calls [cs] satisfy [f]. *)
Definition count (f : presto.call -> bool) (cs : list presto.call) : nat :=
  length (List.filter f cs).

(** ** More concrete objects and data *)

Definition demo_jpa : jpa_dict :=
  list_to_map [("pump_freq", 15%Q); ("pump_pwr", 3%Q); ("pump_port", 4%Q);
               ("bias", 1 # 2); ("bias_port", 1%Q)].

Definition demo_jpa_values : jpa_values :=
  {| pump_freq := 15; pump_pwr := 3; pump_port := 4;
     bias := 1 # 2; bias_port := 1 |}.

Definition with_jpa (jpa : jpa_dict) (s : RamseyChevron) : RamseyChevron :=
  {| readout_freq := readout_freq s;
     control_freq_center := control_freq_center s;
     control_freq_span := control_freq_span s;
     control_freq_nr := control_freq_nr s;
     readout_amp := readout_amp s;
     control_amp := control_amp s;
     readout_duration := readout_duration s;
     control_duration := control_duration s;
     sample_duration := sample_duration s;
     delay_arr := delay_arr s;
     readout_port := readout_port s;
     control_port := control_port s;
     sample_port := sample_port s;
     wait_delay := wait_delay s;
     readout_sample_delay := readout_sample_delay s;
     num_averages := num_averages s;
     jpa_params := Some jpa;
     drag := drag s;
     control_freq_arr := control_freq_arr s;
     t_arr := t_arr s;
     store_arr := store_arr s |}.

(** The object of [demo_state 3] with a JPA pumped at 15, which makes an
    idler at the intermediate frequency 3. *)
Definition demo_state_jpa : state :=
  {| self := with_jpa demo_jpa (demo_self 3); trace := []; files := ∅ |}.

(** An instrument on which [pls.run] fails. *)
Definition demo_sdk_run_fails : presto.Presto :=
  {| presto.hardware := true;
     presto.fs := fun _ => 10%Q;
     presto.clk_f := 1000;
     presto.clk_T := 1 # 1000;
     presto.long_drive := 1%nat;
     presto.template := 2%nat;
     presto.store_data :=
       (array1 [0%Q], {| shape := [1; 1; 1]%nat; data := [(1%Q, 0%Q)] |});
     presto.raises := fun _ c => if is_run c then Some "timeout" else None |}.

(** The intermediate frequencies of [demo_self 3] on [demo_sdk]. *)
Definition demo_if_arr : list Q :=
  match np_linspace (10 / 4 - 2 / 2) (10 / 4 + 2 / 2) 3 with
  | Ok arr => arr
  | Raise _ => []
  end.

(** A JPA whose idler period is shorter than half a clock cycle of
    [demo_sdk]: pumped at 4012, with the readout at 6. *)
Definition demo_jpa_fast : jpa_dict :=
  list_to_map [("pump_freq", 4012%Q); ("pump_pwr", 3%Q); ("pump_port", 4%Q);
               ("bias", 1 # 2); ("bias_port", 1%Q)].

(** Entries of a JPA without a bias. *)
Definition demo_jpa_no_bias : jpa_dict :=
  list_to_map [("pump_freq", 15%Q); ("pump_pwr", 3%Q); ("pump_port", 4%Q);
               ("bias_port", 1%Q)].

(** The object of [demo_analyzed] with a weaker response: the first and
    the last trace hold the constant 1/2, the two in between 0. *)
Definition demo_weak : RamseyChevron :=
  set_store
    (array1 (repeat 0%Q 2001),
     {| shape := [4; 1; 2000]%nat;
        data := flat_map (fun v : Q => repeat (v, 0%Q) 2000)
                  [1 # 2; 0; 0; 1 # 2]%Q |})
    (set_control_freq_arr (array1 [3%Q; 5%Q]) (demo_self 2)).

(** Numerical routines whose fit of a row never converges. *)
Definition demo_num_failing : Numerics :=
  {| rotate_opt := fun a => a;
     rfft_peak := fun _ => (1%nat, Fin 0);
     curve_fit_func :=
       fun x y p0 => Raise (RuntimeError "Optimal parameters not found");
     curve_fit_detuning :=
       fun x y p0 sigma =>
         Ok (p0, {| shape := [1; 1]%nat; data := [Fin 0] |});
     sqrt := fun v => v |}.

(** The data [analyze] draws for [demo_weak]. *)
Definition demo_weak_plot_data : ndarray Q :=
  match analyze_plot_data demo_num demo_weak false with
  | Ok p => fst p
  | Raise _ => array1 []
  end.


(** * Properties *)

Lemma np_asarray_list (xs : list pynum) :
  np_asarray (Seq (map Scalar xs)) = Ok (array1 xs).
Proof.
  cbn [np_asarray].
  set (items := fix items (l : list array_like) := _).
  assert (Hitems : items (map Scalar xs)
                   = Ok (map (fun x => {| shape := []; data := [x] |}) xs)).
  { induction xs as [|x xs IH]; [reflexivity|].
    cbn. cbn in IH. rewrite IH. reflexivity. }
  rewrite Hitems. destruct xs as [|x xs]; [reflexivity|].
  cbn [map].
  assert (Hall : forallb
            (fun r' : ndarray pynum =>
               shape_eqb (shape r') (shape {| shape := []; data := [x] |}))
            (map (fun x0 => {| shape := []; data := [x0] |}) xs) = true).
  { apply forallb_forall. intros r Hr. apply in_map_iff in Hr as (y & <- & _).
    reflexivity. }
  rewrite Hall. unfold array1. f_equal. f_equal.
  - cbn. by rewrite length_map.
  - cbn. f_equal. clear. induction xs as [|y xs IH]; [reflexivity|].
    cbn. f_equal. apply IH.
Qed.

Lemma np_asarray_delay_input d xs :
  delay_input d xs ->
  exists a, np_asarray d = Ok a /\ np_atleast_1d a = array1 xs.
Proof.
  intros [x|ys|ys].
  - eexists. split; reflexivity.
  - exists (array1 ys). split; [apply np_asarray_list | reflexivity].
  - exists (array1 ys). split; reflexivity.
Qed.

Lemma logs_nil st : logs [] st = st.
Proof. destruct st. unfold logs. cbn. by rewrite app_nil_r. Qed.

Lemma log_logs e st : log e st = logs [e] st.
Proof. reflexivity. Qed.

Lemma logs_logs es1 es2 st : logs es2 (logs es1 st) = logs (es1 ++ es2) st.
Proof. unfold logs. cbn. by rewrite app_assoc. Qed.

Lemma logs_calls cs1 cs2 st :
  logs (map Call cs2) (logs (map Call cs1) st) = logs (map Call (cs1 ++ cs2)) st.
Proof. by rewrite logs_logs, map_app. Qed.

Lemma calls_of_app tr1 tr2 : calls_of (tr1 ++ tr2) = calls_of tr1 ++ calls_of tr2.
Proof. apply omap_app. Qed.

Lemma calls_of_Call cs : calls_of (map Call cs) = cs.
Proof.
  induction cs as [|c cs IH]; [reflexivity|].
  unfold calls_of in *. cbn. by rewrite IH.
Qed.

Lemma bind_Ok {A B} (m : M A) (k : A -> M B) st b st' :
  bind m k st = (Ok b, st') ->
  exists a st1, m st = (Ok a, st1) /\ k a st1 = (Ok b, st').
Proof.
  unfold bind. destruct (m st) as [[a|e] st1]; [eauto | discriminate].
Qed.

Lemma ret_Ok {A} (a b : A) st st' : ret a st = (Ok b, st') -> b = a /\ st' = st.
Proof. unfold ret. by intros [= -> ->]. Qed.

Lemma lift_Ok {A} (r : result A) a st st' :
  lift r st = (Ok a, st') -> r = Ok a /\ st' = st.
Proof. unfold lift. by intros [= -> ->]. Qed.

Lemma assert_Ok c u : assert c = Ok u -> c = true.
Proof. by destruct c. Qed.

Lemma set_self_Ok f u st st' :
  set_self f st = (Ok u, st') ->
  st' = {| self := f (self st); trace := trace st; files := files st |}.
Proof. unfold set_self. by intros [= _ <-]. Qed.

Lemma get_self_Ok s st st' : get_self st = (Ok s, st') -> s = self st /\ st' = st.
Proof. unfold get_self. by intros [= <- <-]. Qed.

Section Calls.

Variable sdk : presto.Presto.

Lemma call_state c st : snd (call sdk c st) = logs (map Call [c]) st.
Proof. unfold call. by destruct (presto.raises _ _ _). Qed.

Lemma call_Ok c u st st' :
  call sdk c st = (Ok u, st') ->
  presto.raises sdk (calls_of (trace st)) c = None
  /\ st' = logs (map Call [c]) st.
Proof.
  unfold call. destruct (presto.raises _ _ _); [discriminate|].
  by intros [= _ <-].
Qed.

Lemma call_then_Ok {A} c (v : A) a st st' :
  bind (call sdk c) (fun _ => ret v) st = (Ok a, st') ->
  a = v /\ st' = logs (map Call [c]) st.
Proof.
  intros H. apply bind_Ok in H as (u & st1 & H1 & H2).
  apply call_Ok in H1 as [_ ->]. apply ret_Ok in H2 as [-> ->]. done.
Qed.

End Calls.

(** Steps through a hypothesis [m st = (Ok a, st')], one statement at a
    time, and leaves the equations the statements give. *)
Ltac exec_prim H :=
  lazymatch type of H with
  | call _ _ _ = _ => apply call_Ok in H as [_ ?]
  | ret _ _ = _ => apply ret_Ok in H as [? ?]
  | lift _ _ = _ => apply lift_Ok in H as [H ?]
  | set_self _ _ = _ => apply set_self_Ok in H
  | get_self _ = _ => apply get_self_Ok in H as [? ?]
  | get_fs _ _ _ = _ => apply call_then_Ok in H as [? ?]
  | get_clk_f _ _ = _ => apply call_then_Ok in H as [? ?]
  | get_clk_T _ _ = _ => apply call_then_Ok in H as [? ?]
  | setup_long_drive _ _ _ _ _ _ _ _ _ = _ => apply call_then_Ok in H as [? ?]
  | setup_template _ _ _ _ _ _ _ = _ => apply call_then_Ok in H as [? ?]
  | get_store_data _ _ = _ => apply call_then_Ok in H as [? ?]
  | _ => idtac
  end;
  subst.

Ltac exec H :=
  repeat
    (lazymatch type of H with
     | bind _ _ _ = (Ok _, _) => idtac
     end;
     let a := fresh "a" in
     let st := fresh "st" in
     let E := fresh "E" in
     apply bind_Ok in H as (a & st & E & H);
     exec_prim E);
  exec_prim H.

Lemma run_with_block sdk py address port ext :
  run sdk py address port ext
  = (with_block sdk address port ext ;; save py None)%M.
Proof. reflexivity. Qed.

Lemma run_unfold sdk py address port ext :
  run sdk py address port ext
  = (with_Pulsed sdk address port ext CONVERTER_CONFIGURATION
       (lift (assert (presto.hardware sdk)) ;;
        s <- get_self ;;
        freqs <- figure_out_frequencies sdk s ;;
        measure sdk s (fst freqs) (snd freqs)) ;;
     save py None)%M.
Proof. reflexivity. Qed.

Section Execution.

Variable sdk : presto.Presto.
Variable py : Python.

Lemma figure_out_frequencies_Ok s arr nco st st' :
  figure_out_frequencies sdk s st = (Ok (arr, nco), st') ->
  let fs_dac := presto.fs sdk "dac" in
  Qltb (control_freq_span s / 2) (control_freq_center s) = true
  /\ Qltb (control_freq_span s) (fs_dac / 2) = true
  /\ np_linspace (fs_dac / 4 - control_freq_span s / 2)
       (fs_dac / 4 + control_freq_span s / 2) (control_freq_nr s) = Ok arr
  /\ nco = (control_freq_center s - fs_dac / 4)%Q
  /\ st' = {| self := set_control_freq_arr
                        (array1 (map (fun f => (nco + f)%Q) arr)) (self st);
              trace := trace st ++ map Call [presto.get_fs "dac"; presto.get_fs "dac"];
              files := files st |}.
Proof.
  intros H. unfold figure_out_frequencies in H. exec H.
  injection H as -> ->. apply assert_Ok in E, E0.
  cbn. rewrite <- app_assoc. done.
Qed.

Lemma configure_hardware_Ok s nco u st st' :
  configure_hardware sdk s nco st = (Ok u, st') ->
  exists cs,
    st' = logs (map Call cs) st
    /\ forallb presto.is_hardware_call cs = true
    /\ (jpa_params s = None -> length cs = 7%nat).
Proof.
  intros H. unfold configure_hardware in H. exec H.
  destruct (jpa_params s) as [jpa|]; exec H; rewrite !logs_calls;
    eexists; (split; [reflexivity|]); split; try reflexivity; try discriminate.
Qed.

Lemma setup_measurement_Ok s arr pulses st st' :
  setup_measurement sdk s arr st = (Ok pulses, st') ->
  exists cs,
    pulses = (presto.long_drive sdk, presto.template sdk)
    /\ st' = logs (map Call cs) st
    /\ forallb (fun c => presto.is_setup_call c || presto.is_query c) cs = true.
Proof.
  intros H. unfold setup_measurement in H. exec H. rewrite !logs_calls.
  eexists. split; [reflexivity|]. split; reflexivity.
Qed.

Lemma pulse_loop_Ok s rp cp delays T T' st st' :
  pulse_loop sdk s rp cp delays T st = (Ok T', st') ->
  T' = loop_end s delays T
  /\ st' = logs (map Call (concat (loop_calls s rp cp delays T))) st.
Proof.
  revert T st. induction delays as [|d ds IH]; intros T st H.
  - apply ret_Ok in H as [-> ->]. by rewrite logs_nil.
  - cbn [pulse_loop] in H. exec H. apply IH in H as [-> ->].
    rewrite !logs_calls. done.
Qed.

Lemma program_pulse_sequence_Ok s rp cp T st st' :
  program_pulse_sequence sdk s rp cp st = (Ok T, st') ->
  exists delays,
    iter_numbers (delay_arr s) = Ok delays
    /\ T = (loop_end s delays 0 + wait_delay s)%Q
    /\ st' = logs (map Call (concat (loop_calls s rp cp delays 0)
                               ++ [presto.next_frequency (loop_end s delays 0)
                                     (control_port s)])) st.
Proof.
  intros H. unfold program_pulse_sequence in H. exec H.
  apply pulse_loop_Ok in E0 as [-> ->]. rewrite !logs_calls. eauto.
Qed.

Lemma adjust_period_Ok s T T' st st' :
  adjust_period sdk s T st = (Ok T', st') ->
  exists cs,
    st' = logs (map Call cs) st
    /\ forallb presto.is_query cs = true
    /\ (jpa_params s = None -> cs = [] /\ T' = T).
Proof.
  intros H. unfold adjust_period in H.
  destruct (jpa_params s) as [jpa|].
  - exec H.
    destruct (Qeqb _ _); [discriminate|]. apply ret_Ok in E0 as [_ ->].
    destruct (Z.eqb _ _); [discriminate|]. apply ret_Ok in E1 as [_ ->].
    rewrite !logs_calls. eexists. split; [reflexivity|]. split; [reflexivity|discriminate].
  - apply ret_Ok in H as [-> ->]. exists []. by rewrite logs_nil.
Qed.

Lemma run_experiment_Ok s T u st st' :
  run_experiment sdk s T st = (Ok u, st') ->
  exists post,
    st' = {| self := set_store (presto.store_data sdk) (self st);
             trace := trace st
                      ++ map Call ([presto.run T (control_freq_nr s)
                                      (num_averages s) true;
                                    presto.get_store_data] ++ post);
             files := files st |}
    /\ forallb presto.is_hardware_call post = true
    /\ (jpa_params s = None -> post = []).
Proof.
  intros H. unfold run_experiment in H. exec H.
  destruct (jpa_params s) as [jpa|]; exec H.
  - eexists. split; [|split; [|discriminate]].
    + unfold logs. cbn [self trace files]. rewrite <- !app_assoc.
      rewrite <- !map_app. reflexivity.
    + reflexivity.
  - exists []. split; [|done]. unfold logs. cbn [self trace files].
    rewrite <- !app_assoc. rewrite <- !map_app. reflexivity.
Qed.

Lemma with_Pulsed_Ok {A} address port ext conf (body : M A) a st st' :
  with_Pulsed sdk address port ext conf body st = (Ok a, st') ->
  exists st2,
    body (logs (map Call [presto.Pulsed_enter address port ext conf]) st)
    = (Ok a, st2)
    /\ st' = logs (map Call [presto.Pulsed_exit]) st2.
Proof.
  unfold with_Pulsed. intros H.
  destruct (call sdk (presto.Pulsed_enter _ _ _ _) st) as [[[]|e] st1] eqn:E1;
    [|discriminate].
  apply call_Ok in E1 as [_ ->].
  destruct (body _) as [r st2] eqn:E2.
  destruct (call sdk presto.Pulsed_exit st2) as [[[]|e] st3] eqn:E3;
    [|discriminate].
  apply call_Ok in E3 as [_ ->]. injection H as -> <-. eauto.
Qed.

Lemma Base_save_Ok script fn path st st' :
  Base_save py script fn st = (Ok path, st') ->
  exists cfa ta sa,
    control_freq_arr (self st) = Some cfa
    /\ t_arr (self st) = Some ta
    /\ store_arr (self st) = Some sa
    /\ path = save_path py st script fn
    /\ st' = {| self := self st;
                trace := trace st ++ [H5Write path];
                files := <[path := h5_of py (self st) cfa ta sa]> (files st) |}.
Proof.
  unfold Base_save. intros H.
  destruct (control_freq_arr (self st)) as [cfa|]; [|discriminate].
  destruct (t_arr (self st)) as [ta|]; [|discriminate].
  destruct (store_arr (self st)) as [sa|]; [|discriminate].
  injection H as <- <-. eauto 10.
Qed.

Lemma with_block_Ok address port ext u st st' :
  with_block sdk address port ext st = (Ok u, st') ->
  let s := self st in
  let fs_dac := presto.fs sdk "dac" in
  let nco := (control_freq_center s - fs_dac / 4)%Q in
  let rp := presto.long_drive sdk in
  let cp := presto.template sdk in
  exists arr delays hw su adj post T,
    presto.hardware sdk = true
    /\ Qltb (control_freq_span s / 2) (control_freq_center s) = true
    /\ Qltb (control_freq_span s) (fs_dac / 2) = true
    /\ np_linspace (fs_dac / 4 - control_freq_span s / 2)
         (fs_dac / 4 + control_freq_span s / 2) (control_freq_nr s) = Ok arr
    /\ iter_numbers (delay_arr s) = Ok delays
    /\ forallb presto.is_hardware_call hw = true
    /\ forallb (fun c => presto.is_setup_call c || presto.is_query c) su = true
    /\ forallb presto.is_query adj = true
    /\ forallb presto.is_hardware_call post = true
    /\ (jpa_params s = None ->
        adj = [] /\ post = [] /\ T = (loop_end s delays 0 + wait_delay s)%Q)
    /\ self st' = set_store (presto.store_data sdk)
                    (set_control_freq_arr
                       (array1 (map (fun f => (nco + f)%Q) arr)) s)
    /\ trace st' =
         trace st
         ++ map Call
              ([presto.Pulsed_enter address port ext CONVERTER_CONFIGURATION;
                presto.get_fs "dac"; presto.get_fs "dac"]
               ++ hw ++ su
               ++ concat (loop_calls s rp cp delays 0)
               ++ [presto.next_frequency (loop_end s delays 0) (control_port s)]
               ++ adj
               ++ [presto.run T (control_freq_nr s) (num_averages s) true;
                   presto.get_store_data]
               ++ post
               ++ [presto.Pulsed_exit])
    /\ files st' = files st.
Proof.
  intros Hbody. unfold with_block in Hbody.
  apply with_Pulsed_Ok in Hbody as (st2 & Hbody & ->).
  exec Hbody. unfold measure in Hbody. exec Hbody.
  destruct a0 as [arr nco]. destruct a2 as [rp cp]. cbn [fst snd] in *.
  apply figure_out_frequencies_Ok in E0 as (Hc & Hs & Harr & -> & ->).
  apply configure_hardware_Ok in E1 as (hw & -> & Hhw & _).
  apply setup_measurement_Ok in E2 as (su & [= -> ->] & -> & Hsu).
  apply program_pulse_sequence_Ok in E3 as (delays & Hdelays & -> & ->).
  apply adjust_period_Ok in E4 as (adj & -> & Hadj & HadjN).
  apply run_experiment_Ok in Hbody as (post & -> & Hpost & HpostN).
  apply assert_Ok in E.
  cbn [self trace files logs set_store set_control_freq_arr control_freq_arr
         t_arr store_arr] in *.
  exists arr, delays, hw, su, adj, post, a4.
  repeat (split; [assumption || reflexivity|]).
  split. { intros HN. destruct (HadjN HN) as [-> ->]. by rewrite (HpostN HN). }
  split; [reflexivity|].
  split; [|reflexivity].
  rewrite <- !app_assoc. rewrite !map_app. rewrite <- !app_assoc. reflexivity.
Qed.

Lemma run_Ok address port ext fname st st' :
  run sdk py address port ext st = (Ok fname, st') ->
  let s := self st in
  let fs_dac := presto.fs sdk "dac" in
  let nco := (control_freq_center s - fs_dac / 4)%Q in
  let rp := presto.long_drive sdk in
  let cp := presto.template sdk in
  exists arr delays hw su adj post T,
    presto.hardware sdk = true
    /\ Qltb (control_freq_span s / 2) (control_freq_center s) = true
    /\ Qltb (control_freq_span s) (fs_dac / 2) = true
    /\ np_linspace (fs_dac / 4 - control_freq_span s / 2)
         (fs_dac / 4 + control_freq_span s / 2) (control_freq_nr s) = Ok arr
    /\ iter_numbers (delay_arr s) = Ok delays
    /\ forallb presto.is_hardware_call hw = true
    /\ forallb (fun c => presto.is_setup_call c || presto.is_query c) su = true
    /\ forallb presto.is_query adj = true
    /\ forallb presto.is_hardware_call post = true
    /\ (jpa_params s = None ->
        adj = [] /\ post = [] /\ T = (loop_end s delays 0 + wait_delay s)%Q)
    /\ self st' = set_store (presto.store_data sdk)
                    (set_control_freq_arr
                       (array1 (map (fun f => (nco + f)%Q) arr)) s)
    /\ trace st' =
         trace st
         ++ map Call
              ([presto.Pulsed_enter address port ext CONVERTER_CONFIGURATION;
                presto.get_fs "dac"; presto.get_fs "dac"]
               ++ hw ++ su
               ++ concat (loop_calls s rp cp delays 0)
               ++ [presto.next_frequency (loop_end s delays 0) (control_port s)]
               ++ adj
               ++ [presto.run T (control_freq_nr s) (num_averages s) true;
                   presto.get_store_data]
               ++ post
               ++ [presto.Pulsed_exit])
         ++ [H5Write fname]
    /\ (exists st_run, fname = save_path py st_run __file__ None)
    /\ files st' =
         <[fname := h5_of py (self st')
                      (array1 (map (fun f => (nco + f)%Q) arr))
                      (fst (presto.store_data sdk))
                      (snd (presto.store_data sdk))]> (files st).
Proof.
  intros H. rewrite run_with_block in H.
  apply bind_Ok in H as (u & st1 & Hbody & Hsave).
  apply with_block_Ok in Hbody
    as (arr & delays & hw & su & adj & post & T & Hhw & Hc & Hs & Harr & Hd
        & Hhwc & Hsu & Hadj & Hpost & HN & Hself & Htrace & Hfiles).
  unfold save in Hsave.
  apply Base_save_Ok in Hsave as (cfa & ta & sa & Hcfa & Hta & Hsa & -> & ->).
  rewrite Hself in Hcfa, Hta, Hsa. cbn in Hcfa, Hta, Hsa.
  injection Hcfa as <-. injection Hta as <-. injection Hsa as <-.
  exists arr, delays, hw, su, adj, post, T.
  cbn [self trace files].
  repeat (split; [assumption || reflexivity|]).
  split; [rewrite Htrace; by rewrite <- app_assoc|].
  split; [by eexists|]. by rewrite Hfiles.
Qed.

End Execution.

(** ** What a statement leaves untouched, and what it can raise *)

Section Sound.

Variable sdk : presto.Presto.
Variable E : exn -> Prop.
Variable P : RamseyChevron -> Prop.
Hypothesis P_store : forall d s, P s -> P (set_store d s).
Hypothesis E_vendor : forall msg, E (VendorError msg).
Hypothesis E_key : forall k, E (KeyError k).
Hypothesis E_zero : E ZeroDivisionError.
Hypothesis E_type : E TypeError.

Lemma sound_ret {A} (a : A) : sound E P (ret a).
Proof. intros st HP. split; [done | discriminate]. Qed.

Lemma sound_raise {A} e : E e -> sound E P (@raise A e).
Proof. intros He st HP. split; [done|]. cbn. by intros ? [= <-]. Qed.

Lemma sound_lift {A} (r : result A) :
  (forall e, r = Raise e -> E e) -> sound E P (lift r).
Proof. intros Hr st HP. split; [done|]. cbn. apply Hr. Qed.

Lemma sound_getkey (d : gmap string Q) k : sound E P (lift (getkey d k)).
Proof.
  apply sound_lift. unfold getkey. destruct (d !! k); [discriminate|].
  intros ? [= <-]. apply E_key.
Qed.

Lemma sound_call c : sound E P (call sdk c).
Proof.
  intros st HP. unfold call. destruct (presto.raises _ _ _); cbn; split; try done.
  intros ? [= <-]. apply E_vendor.
Qed.

Lemma sound_bind {A B} (m : M A) (k : A -> M B) :
  sound E P m -> (forall a, sound E P (k a)) -> sound E P (bind m k).
Proof.
  intros Hm Hk st HP. unfold bind. destruct (Hm st HP) as [HP1 HE1].
  destruct (m st) as [[a|e] st1]; cbn in *.
  - apply Hk, HP1.
  - split; [done|]. intros ? [= <-]. by apply HE1.
Qed.

Lemma sound_set_store d : sound E P (set_self (set_store d)).
Proof. intros st HP. split; [by apply P_store | discriminate]. Qed.

Ltac sound_step :=
  first
    [ apply sound_bind; [|intros ?]
    | apply sound_call
    | apply sound_ret
    | apply sound_getkey
    | apply sound_set_store
    | apply sound_raise; assumption
    | match goal with
      | |- sound E P (match ?x with _ => _ end) => destruct x
      end ].

Lemma sound_configure_hardware s nco : sound E P (configure_hardware sdk s nco).
Proof. unfold configure_hardware. repeat sound_step. Qed.

Lemma sound_setup_measurement s arr : sound E P (setup_measurement sdk s arr).
Proof.
  unfold setup_measurement, setup_long_drive, setup_template, get_fs.
  repeat sound_step.
Qed.

Lemma sound_pulse_loop s rp cp delays T : sound E P (pulse_loop sdk s rp cp delays T).
Proof.
  revert T. induction delays as [|d ds IH]; intros T; cbn [pulse_loop].
  - apply sound_ret.
  - repeat sound_step. apply IH.
Qed.

Lemma sound_program_pulse_sequence s rp cp :
  sound E P (program_pulse_sequence sdk s rp cp).
Proof.
  unfold program_pulse_sequence. apply sound_bind.
  - apply sound_lift. unfold iter_numbers.
    destruct (shape _) as [|[|?] [|? ?]]; try discriminate; by intros ? [= <-].
  - intros delays. apply sound_bind; [apply sound_pulse_loop|].
    intros T. repeat sound_step.
Qed.

Lemma sound_adjust_period s T : sound E P (adjust_period sdk s T).
Proof.
  unfold adjust_period, get_clk_f, get_clk_T. repeat sound_step.
Qed.

Lemma sound_run_experiment s T : sound E P (run_experiment sdk s T).
Proof. unfold run_experiment, get_store_data. repeat sound_step. Qed.

Lemma sound_measure s arr nco : sound E P (measure sdk s arr nco).
Proof.
  unfold measure.
  apply sound_bind; [apply sound_configure_hardware|]. intros _.
  apply sound_bind; [apply sound_setup_measurement|]. intros pulses.
  apply sound_bind; [apply sound_program_pulse_sequence|]. intros T.
  apply sound_bind; [apply sound_adjust_period|]. intros T'.
  apply sound_run_experiment.
Qed.

End Sound.

(** ** The swept frequencies *)

Lemma Qltb_lt a b : Qltb a b = true <-> (a < b)%Q.
Proof.
  unfold Qltb. rewrite Qlt_alt. destruct (a ?= b)%Q; split; congruence.
Qed.

Lemma np_linspace_Ok start stop num arr :
  np_linspace start stop num = Ok arr ->
  (0 <= num)%Z
  /\ arr = let y := map (fun i : nat =>
                        (inject_Z (Z.of_nat i)
                         * ((stop - start) / inject_Z (num - 1)) + start)%Q)
                     (seq 0 (Z.to_nat num)) in
           if (1 <? num)%Z then <[(Z.to_nat num - 1)%nat := stop]> y else y.
Proof.
  unfold np_linspace. destruct (Z.ltb_spec num 0); [discriminate|].
  intros [= <-]. done.
Qed.

Lemma np_linspace_nonneg start stop num :
  (0 <= num)%Z -> exists arr, np_linspace start stop num = Ok arr.
Proof.
  intros H. unfold np_linspace. destruct (Z.ltb_spec num 0); [lia|]. eauto.
Qed.

Lemma call_answers sdk c st :
  answers sdk c -> call sdk c st = (Ok tt, logs (map Call [c]) st).
Proof. intros H. unfold call. by rewrite H. Qed.

Lemma save_self py fn st : self (snd (save py fn st)) = self st.
Proof.
  unfold save, Base_save.
  by destruct (control_freq_arr (self st)), (t_arr (self st)),
    (store_arr (self st)).
Qed.

Section Frequencies.

Variable sdk : presto.Presto.
Variable py : Python.

Lemma figure_out_frequencies_run s st arr :
  let fs_dac := presto.fs sdk "dac" in
  answers sdk (presto.get_fs "dac") ->
  (control_freq_span s / 2 < control_freq_center s)%Q ->
  (control_freq_span s < fs_dac / 2)%Q ->
  np_linspace (fs_dac / 4 - control_freq_span s / 2)
    (fs_dac / 4 + control_freq_span s / 2) (control_freq_nr s) = Ok arr ->
  figure_out_frequencies sdk s st
  = (Ok (arr, (control_freq_center s - fs_dac / 4)%Q),
     {| self := set_control_freq_arr
                  (array1 (map (fun f => (control_freq_center s - fs_dac / 4 + f)%Q)
                             arr)) (self st);
        trace := trace st ++ map Call [presto.get_fs "dac"; presto.get_fs "dac"];
        files := files st |}).
Proof.
  intros fs_dac Hfs Hc Hs Harr. apply Qltb_lt in Hc, Hs.
  unfold figure_out_frequencies, get_fs, bind, lift, ret, set_self.
  rewrite Hc. cbn [assert]. rewrite !(call_answers _ _ _ Hfs).
  fold fs_dac. rewrite Hs. cbn [assert]. rewrite Harr.
  cbn. rewrite <- app_assoc. reflexivity.
Qed.

(** Once the frequencies are assigned, the rest of [run] leaves them. *)
Lemma run_keeps_control_freq_arr address port ext st arr :
  let s := self st in
  let fs_dac := presto.fs sdk "dac" in
  presto.hardware sdk = true ->
  answers sdk (presto.Pulsed_enter address port ext CONVERTER_CONFIGURATION) ->
  answers sdk (presto.get_fs "dac") ->
  (control_freq_span s / 2 < control_freq_center s)%Q ->
  (control_freq_span s < fs_dac / 2)%Q ->
  np_linspace (fs_dac / 4 - control_freq_span s / 2)
    (fs_dac / 4 + control_freq_span s / 2) (control_freq_nr s) = Ok arr ->
  control_freq_arr (self (snd (run sdk py address port ext st)))
  = Some (array1 (map (fun f => (control_freq_center s - fs_dac / 4 + f)%Q) arr)).
Proof.
  intros s fs_dac Hhw Henter Hfs Hc Hs Harr.
  set (v := array1 _).
  rewrite run_unfold. unfold with_Pulsed, bind at 1.
  rewrite (call_answers _ _ _ Henter). set (st1 := logs _ st).
  unfold bind, lift, get_self. rewrite Hhw. cbn [assert].
  change (self st1) with s.
  rewrite (figure_out_frequencies_run s st1 arr Hfs Hc Hs Harr).
  cbn [fst snd]. fold fs_dac. fold v.
  match goal with
  | |- context [measure sdk s arr ?nco ?st2] =>
      pose proof (sound_measure sdk (fun _ => True)
                    (fun s => control_freq_arr s = Some v)
                    ltac:(done) ltac:(done) ltac:(done) ltac:(done) ltac:(done)
                    s arr nco st2 eq_refl) as [Hkept _];
      destruct (measure sdk s arr nco st2) as [r st3]
  end.
  cbn [snd] in Hkept.
  pose proof (call_state sdk presto.Pulsed_exit st3) as Hexit.
  destruct (call sdk presto.Pulsed_exit st3) as [[[]|e] st4]; cbn [snd] in Hexit;
    subst st4.
  - destruct r as [[]|e]; [|exact Hkept].
    pose proof (save_self py None (logs (map Call [presto.Pulsed_exit]) st3)) as Hs'.
    destruct (save py None _) as [r' st5]. cbn [snd] in *. by rewrite Hs'.
  - exact Hkept.
Qed.

Lemma linspace_spans_sweep s fs_dac arr :
  (2 <= control_freq_nr s)%Z ->
  np_linspace (fs_dac / 4 - control_freq_span s / 2)
    (fs_dac / 4 + control_freq_span s / 2) (control_freq_nr s) = Ok arr ->
  spans_sweep s (map (fun f => (control_freq_center s - fs_dac / 4 + f)%Q) arr).
Proof.
  intros Hnr Harr. apply np_linspace_Ok in Harr as [_ ->].
  unfold spans_sweep. cbv zeta.
  destruct (Z.ltb_spec 1 (control_freq_nr s)) as [_|]; [|lia].
  assert (Hn : (2 <= Z.to_nat (control_freq_nr s))%nat) by lia.
  assert (Hnn : Z.of_nat (Z.to_nat (control_freq_nr s)) = control_freq_nr s) by lia.
  revert Hn Hnn. generalize (Z.to_nat (control_freq_nr s)). intros n Hn Hnn.
  assert (Hdiv : ~ inject_Z (control_freq_nr s - 1) == 0).
  { intros H. unfold Qeq in H. cbn in H. lia. }
  set (y := map _ (seq 0 n)).
  assert (Hy : forall i, (i < n)%nat ->
            y !! i = Some (inject_Z (Z.of_nat i)
                           * ((fs_dac / 4 + control_freq_span s / 2
                               - (fs_dac / 4 - control_freq_span s / 2))
                              / inject_Z (control_freq_nr s - 1))
                           + (fs_dac / 4 - control_freq_span s / 2))%Q).
  { intros i Hi. unfold y. rewrite list_lookup_fmap.
    rewrite (proj2 (lookup_seq 0 n i i)) by (split; lia). reflexivity. }
  assert (Hlen : length y = n) by (unfold y; by rewrite length_map, length_seq).
  assert (Hout : forall i f,
            map (fun f => (control_freq_center s - fs_dac / 4 + f)%Q)
              (<[(n - 1)%nat := (fs_dac / 4 + control_freq_span s / 2)%Q]> y) !! i
            = Some f ->
            f == control_freq_center s - control_freq_span s / 2
                 + inject_Z (Z.of_nat i)
                   * ((control_freq_center s + control_freq_span s / 2
                       - (control_freq_center s - control_freq_span s / 2))
                      / inject_Z (control_freq_nr s - 1))).
  { intros i f Hi. rewrite list_lookup_fmap in Hi.
    destruct (decide (i = n - 1)%nat) as [->|Hne].
    - rewrite list_lookup_insert_eq in Hi by lia. cbn in Hi. injection Hi as <-.
      replace (inject_Z (Z.of_nat (n - 1))) with (inject_Z (control_freq_nr s - 1))
        by (f_equal; lia).
      field. exact Hdiv.
    - rewrite list_lookup_insert_ne in Hi by done.
      destruct (y !! i) as [v|] eqn:Hv; [|discriminate].
      assert (Hi' : (i < n)%nat) by (apply lookup_lt_Some in Hv; lia).
      rewrite (Hy i Hi') in Hv. injection Hv as <-. cbn in Hi. injection Hi as <-.
      field. exact Hdiv. }
  rewrite length_map, length_insert, Hlen.
  split; [reflexivity|]. split; [|split; [|exact Hout]].
  - rewrite head_lookup.
    destruct (map _ _ !! 0%nat) as [f|] eqn:Hf.
    + exists f. split; [reflexivity|]. rewrite (Hout 0%nat f Hf). cbn. field.
      exact Hdiv.
    + apply lookup_ge_None in Hf. rewrite length_map, length_insert, Hlen in Hf.
      lia.
  - rewrite last_lookup, length_map, length_insert, Hlen.
    replace (Nat.pred n) with (n - 1)%nat by lia.
    rewrite list_lookup_fmap, list_lookup_insert_eq by lia.
    eexists. split; [reflexivity|]. field.
Qed.

End Frequencies.

(** C1, amended. With [control_freq_center > control_freq_span / 2],
    [control_freq_span < fs_dac / 2] and at least two frequencies asked
    for, on an instrument that is connected and answers [get_fs], [run]
    leaves in [self.control_freq_arr] the array
    [control_nco + linspace(control_if_center - span / 2,
    control_if_center + span / 2, control_freq_nr)], whose
    [control_freq_nr] values go from [control_freq_center - span / 2] to
    [control_freq_center + span / 2] in equal steps. *)
Theorem run_sweeps_control_frequencies sdk py address port ext st :
  let s := self st in
  let fs_dac := presto.fs sdk "dac" in
  presto.hardware sdk = true ->
  answers sdk (presto.Pulsed_enter address port ext CONVERTER_CONFIGURATION) ->
  answers sdk (presto.get_fs "dac") ->
  (control_freq_span s / 2 < control_freq_center s)%Q ->
  (control_freq_span s < fs_dac / 2)%Q ->
  (2 <= control_freq_nr s)%Z ->
  exists control_if_arr out,
    np_linspace (fs_dac / 4 - control_freq_span s / 2)
      (fs_dac / 4 + control_freq_span s / 2) (control_freq_nr s)
    = Ok control_if_arr
    /\ out = map (fun f => (control_freq_center s - fs_dac / 4 + f)%Q)
               control_if_arr
    /\ control_freq_arr (self (snd (run sdk py address port ext st)))
       = Some (array1 out)
    /\ spans_sweep s out.
Proof.
  intros s fs_dac Hhw Henter Hfs Hc Hs Hnr.
  destruct (np_linspace_nonneg (fs_dac / 4 - control_freq_span s / 2)
              (fs_dac / 4 + control_freq_span s / 2) (control_freq_nr s))
    as [arr Harr]; [lia|].
  exists arr, (map (fun f => (control_freq_center s - fs_dac / 4 + f)%Q) arr).
  split; [exact Harr|]. split; [reflexivity|]. split.
  - by apply run_keeps_control_freq_arr.
  - by apply linspace_spans_sweep.
Qed.

Lemma run_sweeps_control_frequencies_witness :
  exists control_if_arr out,
    np_linspace (10 / 4 - 2 / 2) (10 / 4 + 2 / 2) 3 = Ok control_if_arr
    /\ out = map (fun f => (4 - 10 / 4 + f)%Q) control_if_arr
    /\ control_freq_arr
         (self (snd (run demo_sdk demo_py "192.168.42.50" None false
                       (demo_state 3))))
       = Some (array1 out)
    /\ spans_sweep (demo_self 3) out.
Proof.
  apply (run_sweeps_control_frequencies demo_sdk demo_py "192.168.42.50" None
           false (demo_state 3));
    first [reflexivity | intros h; reflexivity | cbn; lia].
Defined.

(** C1 as stated fails for a single frequency: both preconditions hold
    and [run] returns, but the array holds the one value
    [control_freq_center - control_freq_span / 2], which is not a sweep
    up to [control_freq_center + control_freq_span / 2]. *)
Lemma run_single_frequency_is_lower_edge :
  let s := demo_self 1 in
  let r := run demo_sdk demo_py "192.168.42.50" None false (demo_state 1) in
  (control_freq_span s / 2 < control_freq_center s)%Q
  /\ (control_freq_span s < presto.fs demo_sdk "dac" / 2)%Q
  /\ fst r = Ok "data/ramsey_chevron.h5"
  /\ exists f,
       control_freq_arr (self (snd r)) = Some (array1 [f])
       /\ f == 3
       /\ ~ spans_sweep s [f].
Proof.
  cbv zeta. split; [reflexivity|]. split; [reflexivity|].
  split; [vm_compute; reflexivity|].
  eexists. split; [vm_compute; reflexivity|]. split; [reflexivity|].
  intros (_ & _ & (f & Hf & Hhi) & _). cbn in Hf. injection Hf as <-.
  vm_compute in Hhi. discriminate.
Qed.

Lemma Qltb_ge a b : Qltb a b = false <-> (b <= a)%Q.
Proof.
  unfold Qltb. rewrite Qle_alt.
  rewrite <- (Qcompare_antisym a b). destruct (a ?= b)%Q; cbn; split; congruence.
Qed.

Lemma figure_out_frequencies_no_assert sdk s st :
  (control_freq_span s / 2 < control_freq_center s)%Q ->
  (control_freq_span s < presto.fs sdk "dac" / 2)%Q ->
  fst (figure_out_frequencies sdk s st) <> Raise AssertionError.
Proof.
  intros Hc Hs. apply Qltb_lt in Hc, Hs.
  unfold figure_out_frequencies, get_fs, bind, lift, ret, set_self, call.
  rewrite Hc. cbn [assert].
  destruct (presto.raises sdk _ _); [discriminate|]. rewrite Hs. cbn [assert].
  destruct (presto.raises sdk _ _); [discriminate|].
  unfold np_linspace. destruct (Z.ltb _ _); discriminate.
Qed.

Section SoundRun.

Variable sdk : presto.Presto.
Variable py : Python.
Variable E : exn -> Prop.
Variable P : RamseyChevron -> Prop.
Hypothesis P_store : forall d s, P s -> P (set_store d s).
Hypothesis E_vendor : forall msg, E (VendorError msg).
Hypothesis E_key : forall k, E (KeyError k).
Hypothesis E_zero : E ZeroDivisionError.
Hypothesis E_type : E TypeError.

Lemma sound_get_self_bind {B} (k : RamseyChevron -> M B) :
  (forall s, P s -> sound E P (k s)) -> sound E P (bind get_self k).
Proof. intros Hk st HP. unfold bind, get_self. by apply Hk. Qed.

Lemma sound_with_Pulsed {A} address port ext conf (body : M A) :
  sound E P body -> sound E P (with_Pulsed sdk address port ext conf body).
Proof.
  intros Hbody st HP. unfold with_Pulsed.
  pose proof (sound_call sdk E P E_vendor
                (presto.Pulsed_enter address port ext conf) st HP) as [HP1 HE1].
  destruct (call sdk (presto.Pulsed_enter _ _ _ _) st) as [[[]|e] st1];
    cbn [fst snd] in *.
  - destruct (Hbody st1 HP1) as [HP2 HE2].
    destruct (body st1) as [r st2]; cbn [fst snd] in *.
    pose proof (sound_call sdk E P E_vendor presto.Pulsed_exit st2 HP2)
      as [HP3 HE3].
    destruct (call sdk presto.Pulsed_exit st2) as [[[]|e] st3];
      cbn [fst snd] in *; split; try done.
    intros ? [= <-]. by apply HE3.
  - split; [done|]. intros ? [= <-]. by apply HE1.
Qed.

Lemma sound_save fn : sound E P (save py fn).
Proof.
  intros st HP. unfold save, Base_save.
  destruct (control_freq_arr (self st)), (t_arr (self st)),
    (store_arr (self st)); cbn; split; try done; intros ? [= <-]; apply E_type.
Qed.

Lemma sound_run address port ext :
  (forall s, P s -> sound E P (figure_out_frequencies sdk s)) ->
  E AssertionError \/ presto.hardware sdk = true ->
  sound E P (run sdk py address port ext).
Proof.
  intros Hfig Hhw. rewrite run_unfold.
  apply sound_bind; [|intros _; apply sound_save].
  apply sound_with_Pulsed. apply sound_bind.
  - apply sound_lift. intros e He. destruct Hhw as [HE|Hhw].
    + destruct (presto.hardware sdk); [discriminate|]. by injection He as <-.
    + rewrite Hhw in He. discriminate.
  - intros _. apply sound_get_self_bind. intros s Hs.
    apply sound_bind; [by apply Hfig|]. intros freqs. by apply sound_measure.
Qed.

End SoundRun.

(** C8. On an instrument that connects, answers [get_fs] and closes,
    [run] raises [AssertionError] whenever
    [control_freq_center <= control_freq_span / 2] or
    [control_freq_span >= fs_dac / 2], and the calls made until then
    include no call on [pls.hardware].  With
    [control_freq_center > control_freq_span / 2] and
    [control_freq_span < fs_dac / 2] the two assertions on the frequencies
    never raise, and [run] on an instrument with [pls.hardware] set raises
    no [AssertionError] at all. *)
Theorem run_asserts_before_hardware sdk py address port ext st :
  let s := self st in
  let fs_dac := presto.fs sdk "dac" in
  let r := run sdk py address port ext st in
  let enter := presto.Pulsed_enter address port ext CONVERTER_CONFIGURATION in
  (answers sdk enter ->
   answers sdk (presto.get_fs "dac") ->
   answers sdk presto.Pulsed_exit ->
   (control_freq_center s <= control_freq_span s / 2)%Q
   \/ (fs_dac / 2 <= control_freq_span s)%Q ->
   fst r = Raise AssertionError
   /\ exists cs,
        snd r = logs (map Call cs) st
        /\ (cs = [enter; presto.Pulsed_exit]
            \/ cs = [enter; presto.get_fs "dac"; presto.Pulsed_exit])
        /\ forallb (fun c => negb (presto.is_hardware_call c)) cs = true)
  /\ ((control_freq_span s / 2 < control_freq_center s)%Q ->
      (control_freq_span s < fs_dac / 2)%Q ->
      (forall st1, fst (figure_out_frequencies sdk s st1) <> Raise AssertionError)
      /\ (presto.hardware sdk = true -> fst r <> Raise AssertionError)).
Proof.
  intros s fs_dac r enter. split.
  - intros Henter Hfs Hexit Hbad. subst r.
    assert (Hrun : exists cs,
               run sdk py address port ext st
               = (Raise AssertionError, logs (map Call cs) st)
               /\ (cs = [enter; presto.Pulsed_exit]
                   \/ cs = [enter; presto.get_fs "dac"; presto.Pulsed_exit])).
    { rewrite run_unfold. unfold with_Pulsed, bind at 1.
      fold enter. rewrite (call_answers _ _ _ Henter).
      unfold bind at 1, lift.
      destruct (presto.hardware sdk).
      - cbn [assert]. unfold bind at 1, get_self.
        change (self (logs (map Call [enter]) st)) with s.
        unfold bind at 1.
        assert (Hfig : exists cs,
                   figure_out_frequencies sdk s (logs (map Call [enter]) st)
                   = (Raise AssertionError,
                      logs (map Call cs) (logs (map Call [enter]) st))
                   /\ (cs = [] \/ cs = [presto.get_fs "dac"])).
        { unfold figure_out_frequencies, get_fs, bind, lift, ret.
          destruct (Qltb (control_freq_span s / 2) (control_freq_center s)) eqn:Hc.
          - cbn [assert]. rewrite (call_answers _ _ _ Hfs).
            destruct (Qltb (control_freq_span s) (presto.fs sdk "dac" / 2)) eqn:Hs.
            + apply Qltb_lt in Hc, Hs. fold fs_dac in Hs. destruct Hbad; lra.
            + cbn [assert]. exists [presto.get_fs "dac"]. split; [done|by right].
          - cbn [assert]. exists []. rewrite logs_nil. split; [done|by left]. }
        destruct Hfig as (cs & -> & Hcs).
        rewrite (call_answers _ _ _ Hexit). rewrite !logs_calls.
        eexists. split; [reflexivity|]. destruct Hcs as [-> | ->]; [by left|by right].
      - cbn [assert]. rewrite (call_answers _ _ _ Hexit). rewrite !logs_calls.
        eexists. split; [reflexivity|]. by left. }
    destruct Hrun as (cs & -> & Hcs). split; [reflexivity|].
    exists cs. split; [reflexivity|]. split; [exact Hcs|].
    by destruct Hcs as [-> | ->].
  - intros Hc Hs. split.
    + intros st1. by apply figure_out_frequencies_no_assert.
    + intros Hhw. subst r. rewrite run_unfold.
      set (P := fun s0 => (control_freq_span s0 / 2 < control_freq_center s0)%Q
                          /\ (control_freq_span s0 < fs_dac / 2)%Q).
      assert (Hfig : forall s0, P s0 ->
                sound (fun e => e <> AssertionError) P
                  (figure_out_frequencies sdk s0)).
      { intros s0 [Hc0 Hs0] st0 HP. split.
        - unfold figure_out_frequencies, get_fs, bind, lift, ret, set_self, call.
          destruct (assert _); [|done].
          destruct (presto.raises sdk _ _); [done|].
          destruct (assert _); [|done].
          destruct (presto.raises sdk _ _); [done|].
          destruct (np_linspace _ _ _); done.
        - intros e He ->.
          by apply (figure_out_frequencies_no_assert sdk s0 st0 Hc0 Hs0). }
      destruct (sound_run sdk py (fun e => e <> AssertionError) P
                  ltac:(done) ltac:(done) ltac:(done) ltac:(done) ltac:(done)
                  address port ext Hfig (or_intror Hhw) st (conj Hc Hs))
        as [_ HE].
      intros H. by apply (HE _ H).
Qed.

Lemma run_asserts_before_hardware_witness :
  let st := {| self := demo_low; trace := []; files := ∅ |} in
  let r := run demo_sdk demo_py "192.168.42.50" None false st in
  let enter :=
    presto.Pulsed_enter "192.168.42.50" None false CONVERTER_CONFIGURATION in
  (fst r = Raise AssertionError
   /\ exists cs,
        snd r = logs (map Call cs) st
        /\ (cs = [enter; presto.Pulsed_exit]
            \/ cs = [enter; presto.get_fs "dac"; presto.Pulsed_exit])
        /\ forallb (fun c => negb (presto.is_hardware_call c)) cs = true)
  /\ fst (run demo_sdk demo_py "192.168.42.50" None false (demo_state 3))
     <> Raise AssertionError.
Proof.
  split.
  - apply (proj1 (run_asserts_before_hardware demo_sdk demo_py "192.168.42.50"
                    None false {| self := demo_low; trace := []; files := ∅ |}));
      try (intros h; reflexivity).
    left. unfold Qle. cbn. lia.
  - apply (proj2 (run_asserts_before_hardware demo_sdk demo_py "192.168.42.50"
                    None false (demo_state 3)));
      reflexivity.
Defined.

Lemma loop_calls_sequence s rp cp delays T :
  forallb presto.is_sequence_call (concat (loop_calls s rp cp delays T)) = true.
Proof.
  revert T. induction delays as [|d ds IH]; intros T; [reflexivity|].
  cbn [loop_calls concat]. rewrite forallb_app, IH. reflexivity.
Qed.

Lemma forallb_impl {A} (f g : A -> bool) l :
  (forall x, f x = true -> g x = true) ->
  forallb f l = true -> forallb g l = true.
Proof.
  intros Hfg. rewrite !forallb_forall. intros H x Hx. apply Hfg, H, Hx.
Qed.

Lemma loop_calls_blocks s rp cp delays T :
  Forall2 (ramsey_block s rp cp) delays (loop_calls s rp cp delays T).
Proof.
  revert T. induction delays as [|d ds IH]; intros T; cbn [loop_calls].
  - constructor.
  - constructor; [|apply IH].
    eexists _, _, _. split; [reflexivity|]. split; ring.
Qed.

Lemma loop_end_sum s delays T :
  (loop_end s delays T
   == T + Qsum (map (fun delay =>
                       2 * control_duration s + delay + readout_duration s
                       + wait_delay s) delays))%Q.
Proof.
  revert T. induction delays as [|d ds IH]; intros T; cbn [loop_end map Qsum fold_right].
  - ring.
  - rewrite IH. unfold iteration_end, Qsum. ring.
Qed.

(** C2, amended. When [run] returns, the sequence it placed has, for
    every element [delay] of [delay_arr] in order, exactly these calls:
    two outputs of the control pulse whose times differ by
    [control_duration + delay], then one output of the readout pulse at
    the time the second control pulse ends (its time plus
    [control_duration]), and one [store] at that time plus
    [readout_sample_delay]; nothing before the first of them places an
    event.  The period reached after the loop and the extra [wait_delay]
    is the sum over the delays of
    [2 * control_duration + delay + readout_duration + wait_delay] plus
    one [wait_delay], and without [jpa_params] it is the period passed to
    [pls.run], with [repeat_count = control_freq_nr]. *)
Theorem run_pulse_sequence sdk py address port ext st fname st' :
  run sdk py address port ext st = (Ok fname, st') ->
  let s := self st in
  let readout_pulse := presto.long_drive sdk in
  let control_pulse := presto.template sdk in
  exists delays pre blocks T adj period post,
    iter_numbers (delay_arr s) = Ok delays
    /\ calls_of (trace st') =
         calls_of (trace st)
         ++ pre ++ concat blocks
         ++ [presto.next_frequency T (control_port s)]
         ++ adj
         ++ [presto.run period (control_freq_nr s) (num_averages s) true;
             presto.get_store_data]
         ++ post ++ [presto.Pulsed_exit]
    /\ forallb (fun c => negb (presto.is_sequence_call c)) pre = true
    /\ Forall2 (ramsey_block s readout_pulse control_pulse) delays blocks
    /\ (T + wait_delay s
        == Qsum (map (fun delay =>
                        2 * control_duration s + delay + readout_duration s
                        + wait_delay s) delays)
           + wait_delay s)%Q
    /\ (jpa_params s = None ->
        adj = [] /\ post = [] /\ period = (T + wait_delay s)%Q).
Proof.
  intros H s rp cp.
  apply run_Ok in H
    as (arr & delays & hw & su & adj & post & T & Hhw & Hc & Hs & Harr & Hd
        & Hhwc & Hsu & Hadj & Hpost & HN & Hself & Htrace & Hname & Hfiles).
  exists delays,
    ([presto.Pulsed_enter address port ext CONVERTER_CONFIGURATION;
      presto.get_fs "dac"; presto.get_fs "dac"] ++ hw ++ su),
    (loop_calls s rp cp delays 0), (loop_end s delays 0), adj, T, post.
  split; [exact Hd|]. split.
  { rewrite Htrace. rewrite !calls_of_app, calls_of_Call. cbn [calls_of omap].
    rewrite app_nil_r. rewrite <- !app_assoc. reflexivity. }
  split.
  { rewrite !forallb_app. cbn [forallb presto.is_sequence_call negb andb].
    assert (H1 : forallb (fun c => negb (presto.is_sequence_call c)) hw = true).
    { revert Hhwc. apply forallb_impl. by intros []. }
    assert (H2 : forallb (fun c => negb (presto.is_sequence_call c)) su = true).
    { revert Hsu. apply forallb_impl. by intros []. }
    by rewrite H1, H2. }
  split; [apply loop_calls_blocks|].
  split.
  { rewrite loop_end_sum. ring. }
  exact HN.
Qed.

Lemma run_pulse_sequence_witness :
  let st := demo_state 3 in
  let st' := snd (run demo_sdk demo_py "192.168.42.50" None false st) in
  let s := self st in
  exists delays pre blocks T adj period post,
    iter_numbers (delay_arr s) = Ok delays
    /\ calls_of (trace st') =
         calls_of (trace st)
         ++ pre ++ concat blocks
         ++ [presto.next_frequency T (control_port s)]
         ++ adj
         ++ [presto.run period (control_freq_nr s) (num_averages s) true;
             presto.get_store_data]
         ++ post ++ [presto.Pulsed_exit]
    /\ forallb (fun c => negb (presto.is_sequence_call c)) pre = true
    /\ Forall2 (ramsey_block s (presto.long_drive demo_sdk)
                  (presto.template demo_sdk)) delays blocks
    /\ (T + wait_delay s
        == Qsum (map (fun delay =>
                        2 * control_duration s + delay + readout_duration s
                        + wait_delay s) delays)
           + wait_delay s)%Q
    /\ (jpa_params s = None ->
        adj = [] /\ post = [] /\ period = (T + wait_delay s)%Q).
Proof.
  apply (run_pulse_sequence demo_sdk demo_py "192.168.42.50" None false
           (demo_state 3) "data/ramsey_chevron.h5").
  vm_compute. reflexivity.
Defined.

(** C2 as stated fails: with [control_duration = 1] and the delay 0, the
    control pulse is output at the times 0 and 1, and the readout pulse at
    the time 2, when the second control pulse ends, not at the time 3. *)
Lemma run_readout_when_second_pulse_ends :
  let s := demo_self 3 in
  let r := run demo_sdk demo_py "192.168.42.50" None false (demo_state 3) in
  let cs := calls_of (trace (snd r)) in
  let block := [presto.reset_phase 0 2; presto.output_pulse 0 2;
                presto.output_pulse 1 2; presto.reset_phase 2 1;
                presto.output_pulse 2 1; presto.store 2] in
  fst r = Ok "data/ramsey_chevron.h5"
  /\ data (delay_arr s) !! 0%nat = Some 0%Q
  /\ forallb (fun c => negb (presto.is_sequence_call c)) (take 19 cs) = true
  /\ take 6 (drop 19 cs) = block
  /\ ~ ramsey_block_as_stated s (presto.long_drive demo_sdk)
         (presto.template demo_sdk) 0 block.
Proof.
  cbv zeta. split; [vm_compute; reflexivity|]. split; [reflexivity|].
  split; [vm_compute; reflexivity|]. split; [vm_compute; reflexivity|].
  intros (t1 & t2 & t3 & Hblock & _ & H3).
  injection Hblock as <- _ <- <- _ _. vm_compute in H3. discriminate.
Qed.









Section Lockstep.

Variable sdk : presto.Presto.
Variable py : Python.

















End Lockstep.


(** ** Saving and loading *)

Lemma np_asarray_float_array (a : ndarray Q) :
  shape a <> [] ->
  (x <- np_asarray (as_array_like (DsFloat a)) ;;
   Ok (astype_float64 (np_atleast_1d x)))%res = Ok a.
Proof.
  intros Hs. cbn. unfold np_atleast_1d, astype_float64. cbn.
  destruct a as [sh d]. cbn in *. destruct sh as [|n sh]; [done|]. cbn.
  f_equal. f_equal. rewrite map_map. cbn. apply map_id.
Qed.

(** Replaces every lookup in a map written out as a list by its value. *)
Ltac eval_lookups :=
  repeat
    match goal with
    | |- context [ @lookup ?K ?A ?M ?I ?k
                     (@list_to_map ?K' ?A' ?M' ?I1 ?I2 ?l) ] =>
        let t := constr:(@lookup K A M I k (@list_to_map K' A' M' I1 I2 l)) in
        let v := eval vm_compute in t in
        change t with v
    end.

(** *** Writing and reading [jpa_params] *)

Lemma digit_cases (d : Z) :
  (0 <= d < 10)%Z ->
  d = 0%Z \/ d = 1%Z \/ d = 2%Z \/ d = 3%Z \/ d = 4%Z \/ d = 5%Z \/ d = 6%Z
  \/ d = 7%Z \/ d = 8%Z \/ d = 9%Z.
Proof. lia. Qed.

Lemma digit_value_char d :
  (0 <= d < 10)%Z -> digit_value (digit_char d) = Some d.
Proof.
  intros H. destruct (digit_cases d H) as [->|[->|[->|[->|[->|[->|[->|[->|[->| ->]]]]]]]]];
    reflexivity.
Qed.

Lemma mod10_range x : (0 <= x mod 10 < 10)%Z.
Proof. apply Z.mod_pos_bound. lia. Qed.

Lemma read_digits_digits p x rest n c :
  read_digits (digits p x ++ rest) n c
  = read_digits rest (n * 10 ^ Z.of_nat p + x mod 10 ^ Z.of_nat p)%Z (c + p)%nat.
Proof.
  revert x rest n c. induction p as [|p IH]; intros x rest n c.
  - cbn [digits app]. rewrite Nat.add_0_r. f_equal. cbn. rewrite Z.mod_1_r. lia.
  - cbn [digits]. rewrite <- app_assoc. cbn [app]. rewrite IH.
    cbn [read_digits]. rewrite digit_value_char by apply mod10_range.
    f_equal; [|lia].
    rewrite Nat2Z.inj_succ, Z.pow_succ_r by lia.
    rewrite (Z.rem_mul_r x 10 (10 ^ Z.of_nat p)) by lia. lia.
Qed.

Lemma read_digits_end s n c : ends_digits s -> read_digits s n c = (n, c, s).
Proof. destruct s as [|ch s]; [done|]. cbn. by intros ->. Qed.

Lemma ndigits_from_bound fuel x :
  (0 <= x < 2 ^ (Z.of_nat fuel + 1))%Z ->
  (x < 10 ^ Z.of_nat (ndigits_from fuel x))%Z.
Proof.
  revert x. induction fuel as [|fuel IH]; intros x Hx.
  - cbn in *. lia.
  - cbn [ndigits_from]. destruct (x <? 10)%Z eqn:H10.
    + apply Z.ltb_lt in H10. cbn. lia.
    + apply Z.ltb_ge in H10.
      assert (Hd : (0 <= x / 10 < 2 ^ (Z.of_nat fuel + 1))%Z).
      { split; [apply Z.div_pos; lia|].
        apply Z.div_lt_upper_bound; [lia|].
        rewrite Nat2Z.inj_succ in Hx.
        replace (Z.succ (Z.of_nat fuel) + 1)%Z with (Z.succ (Z.of_nat fuel + 1))%Z in Hx by lia.
        rewrite Z.pow_succ_r in Hx by lia. lia. }
      specialize (IH _ Hd).
      rewrite Nat2Z.inj_succ, Z.pow_succ_r by lia.
      pose proof (Z.div_mod x 10 ltac:(lia)). pose proof (mod10_range x). lia.
Qed.

Lemma ndigits_bound x : (0 <= x)%Z -> (x < 10 ^ Z.of_nat (ndigits x))%Z.
Proof.
  intros Hx. unfold ndigits. apply ndigits_from_bound.
  split; [exact Hx|].
  destruct (Z.eq_dec x 0%Z) as [->|Hne]; [cbn; lia|].
  rewrite Z2Nat.id by apply Z.log2_nonneg.
  replace (Z.log2 x + 1)%Z with (Z.succ (Z.log2 x)) by lia.
  apply Z.log2_spec. lia.
Qed.

Lemma ndigits_pos x : (1 <= ndigits x)%nat.
Proof.
  unfold ndigits. generalize (Z.to_nat (Z.log2 x)). intros fuel. revert x.
  induction fuel as [|fuel IH]; intros x; cbn; [lia|].
  destruct (x <? 10)%Z; lia.
Qed.

Lemma read_digits_repr_nat x rest n c :
  (0 <= x)%Z -> ends_digits rest ->
  read_digits (repr_nat x ++ rest) n c
  = ((n * 10 ^ Z.of_nat (ndigits x) + x)%Z, (c + ndigits x)%nat, rest).
Proof.
  intros Hx Hrest. unfold repr_nat. rewrite read_digits_digits.
  rewrite read_digits_end by exact Hrest.
  rewrite Z.mod_small; [reflexivity|]. split; [exact Hx | by apply ndigits_bound].
Qed.

Lemma trailing_zeros_from_exact fuel x :
  (x / 10 ^ Z.of_nat (trailing_zeros_from fuel x) * 10 ^ Z.of_nat (trailing_zeros_from fuel x))%Z = x.
Proof.
  revert x. induction fuel as [|fuel IH]; intros x.
  - cbn. rewrite Z.div_1_r. lia.
  - cbn [trailing_zeros_from]. destruct (x mod 10 =? 0)%Z eqn:H0.
    + apply Z.eqb_eq in H0. rewrite Nat2Z.inj_succ, Z.pow_succ_r by lia.
      rewrite <- Z.div_div by lia. 
      specialize (IH (x / 10)%Z).
      pose proof (Z.div_mod x 10 ltac:(lia)). lia.
    + cbn. rewrite Z.div_1_r. lia.
Qed.

Lemma trailing_zeros_exact x :
  (x / 10 ^ Z.of_nat (trailing_zeros x) * 10 ^ Z.of_nat (trailing_zeros x))%Z = x.
Proof. apply trailing_zeros_from_exact. Qed.

Lemma ends_number_digits s : ends_number s -> ends_digits s.
Proof. destruct s; [done|]. by intros [? _]. Qed.

Lemma read_exponent_end s : ends_number s -> read_exponent s = Some (0%Z, s).
Proof.
  destruct s as [|c s]; [done|]. intros (_ & _ & He & HE).
  unfold read_exponent. by rewrite He, HE.
Qed.

Lemma pow10_pos j : (0 < 10 ^ Z.of_nat j)%Z.
Proof. apply Z.pow_pos_nonneg; lia. Qed.

Lemma pos_pow10 j : Z.pos (Z.to_pos (10 ^ Z.of_nat j)) = (10 ^ Z.of_nat j)%Z.
Proof. apply Z2Pos.id, pow10_pos. Qed.

Lemma scale_value M pw m k :
  (pw < 0 -> M * 10 ^ Z.of_nat k = m * 10 ^ (- pw))%Z ->
  (0 <= pw -> M * 10 ^ pw * 10 ^ Z.of_nat k = m)%Z ->
  scale M pw == decimal_value m k.
Proof.
  intros H1 H2. unfold scale, decimal_value, Qeq. cbn [Qnum Qden].
  rewrite pos_pow10.
  destruct (0 <=? pw)%Z eqn:Hpw.
  - apply Z.leb_le in Hpw. cbn [inject_Z Qnum Qden]. specialize (H2 Hpw). lia.
  - apply Z.leb_gt in Hpw. cbn [Qnum Qden].
    rewrite Z2Pos.id by (apply Z.pow_pos_nonneg; lia).
    exact (H1 Hpw).
Qed.

Lemma read_unsigned_fixed m k rest :
  (0 <= m)%Z -> ends_number rest ->
  exists v,
    read_unsigned (repr_fixed m k ++ rest) = Some (v, rest)
    /\ v == decimal_value m k.
Proof.
  intros Hm Hrest. unfold read_unsigned, repr_fixed.
  rewrite <- app_assoc. cbn [app].
  assert (Hi : (0 <= m / 10 ^ Z.of_nat k)%Z).
  { apply Z.div_pos; [exact Hm | apply pow10_pos]. }
  rewrite read_digits_repr_nat by (try exact Hi; reflexivity).
  change (Ascii.eqb (chr ".") (chr ".")) with true. cbv iota.
  pose proof (ndigits_pos (m / 10 ^ Z.of_nat k)) as Hn.
  destruct (0 + ndigits (m / 10 ^ Z.of_nat k) =? 0)%nat eqn:E;
    [apply Nat.eqb_eq in E; lia|].
  destruct (k =? 0)%nat eqn:Hk.
  - apply Nat.eqb_eq in Hk. subst k. cbn [app read_digits].
    change (digit_value (chr "0")) with (Some 0%Z). cbv iota.
    rewrite read_digits_end by (by apply ends_number_digits).
    cbn [andb]. rewrite read_exponent_end by exact Hrest.
    eexists. split; [reflexivity|].
    apply scale_value; [intros _|lia].
    cbn. rewrite Z.div_1_r. lia.
  - apply Nat.eqb_neq in Hk. rewrite read_digits_digits.
    rewrite read_digits_end by (by apply ends_number_digits).
    cbn [andb]. rewrite read_exponent_end by exact Hrest.
    eexists. split; [reflexivity|].
    apply scale_value; [intros _|lia].
    replace (- (0 - Z.of_nat (0 + k)))%Z with (Z.of_nat k) by lia.
    pose proof (Z.div_mod m (10 ^ Z.of_nat k) ltac:(pose proof (pow10_pos k); lia)).
    f_equal. lia.
Qed.

Lemma read_unsigned_zero rest :
  ends_number rest ->
  exists v, read_unsigned (text_of "0.0" ++ rest) = Some (v, rest) /\ v == 0.
Proof.
  intros Hrest.
  destruct (read_unsigned_fixed 0 0 rest ltac:(lia) Hrest) as (v & Hv & Hq).
  exists v. split; [exact Hv|]. rewrite Hq. reflexivity.
Qed.

Lemma read_exponent_repr e rest :
  ends_digits rest ->
  read_exponent (repr_exponent e ++ rest) = Some (e, rest).
Proof.
  intros Hrest. unfold repr_exponent. cbn [app].
  unfold read_exponent.
  change (Ascii.eqb (chr "e") (chr "e")) with true. cbn [orb].
  assert (Hd : read_digits
                 ((if (Z.abs e <? 10)%Z then chr "0" :: digits 1 (Z.abs e)
                   else repr_nat (Z.abs e)) ++ rest) 0 0
               = (Z.abs e, if (Z.abs e <? 10)%Z then 2%nat else ndigits (Z.abs e),
                  rest)).
  { destruct (Z.abs e <? 10)%Z eqn:Ha.
    - apply Z.ltb_lt in Ha. cbn [app read_digits].
      change (digit_value (chr "0")) with (Some 0%Z). cbv iota.
      rewrite read_digits_digits, read_digits_end by exact Hrest.
      change (10 ^ Z.of_nat 1)%Z with 10%Z. rewrite Z.mod_small by lia.
      reflexivity.
    - rewrite read_digits_repr_nat by (try exact Hrest; lia).
      reflexivity. }
  destruct (e <? 0)%Z eqn:He.
  - change (Ascii.eqb (chr "-") (chr "-")) with true. cbv iota.
    rewrite Hd. apply Z.ltb_lt in He.
    assert (Hn : ((if (Z.abs e <? 10)%Z then 2%nat else ndigits (Z.abs e)) =? 0)%nat
                 = false).
    { apply Nat.eqb_neq. pose proof (ndigits_pos (Z.abs e)).
      destruct (Z.abs e <? 10)%Z; lia. }
    rewrite Hn. f_equal. f_equal. lia.
  - change (Ascii.eqb (chr "+") (chr "-")) with false.
    change (Ascii.eqb (chr "+") (chr "+")) with true. cbv iota.
    rewrite Hd. apply Z.ltb_ge in He.
    assert (Hn : ((if (Z.abs e <? 10)%Z then 2%nat else ndigits (Z.abs e)) =? 0)%nat
                 = false).
    { apply Nat.eqb_neq. pose proof (ndigits_pos (Z.abs e)).
      destruct (Z.abs e <? 10)%Z; lia. }
    rewrite Hn. f_equal. f_equal. lia.
Qed.

Lemma read_unsigned_scientific m0 n decpt rest :
  (1 <= n)%nat -> (0 <= m0 < 10 ^ Z.of_nat n)%Z -> ends_digits rest ->
  read_unsigned (repr_scientific m0 n decpt ++ rest)
  = Some (scale m0 (decpt - 1 - Z.of_nat (n - 1)), rest).
Proof.
  intros Hn Hm Hrest. unfold read_unsigned, repr_scientific.
  rewrite <- !app_assoc. rewrite read_digits_digits.
  assert (HD : (0 <= m0 / 10 ^ Z.of_nat (n - 1) < 10)%Z).
  { split; [apply Z.div_pos; [lia | apply pow10_pos]|].
    apply Z.div_lt_upper_bound; [apply pow10_pos|].
    replace (10 ^ Z.of_nat (n - 1) * 10)%Z with (10 ^ Z.of_nat n)%Z; [lia|].
    replace (Z.of_nat n) with (Z.succ (Z.of_nat (n - 1))) by lia.
    rewrite Z.pow_succ_r by lia. lia. }
  replace (0 * 10 ^ Z.of_nat 1 + (m0 / 10 ^ Z.of_nat (n - 1)) mod 10 ^ Z.of_nat 1)%Z
    with (m0 / 10 ^ Z.of_nat (n - 1))%Z
    by (change (10 ^ Z.of_nat 1)%Z with 10%Z; rewrite Z.mod_small by lia; lia).
  destruct (n =? 1)%nat eqn:E.
  - apply Nat.eqb_eq in E. subst n. cbn [app].
    rewrite read_digits_end by reflexivity.
    unfold repr_exponent at 1. cbn [app].
    change (Ascii.eqb (chr "e") (chr ".")) with false. cbv iota.
    cbn [Nat.add Nat.eqb andb].
    fold (repr_exponent (decpt - 1)).
    change (chr "e" :: (if (decpt - 1 <? 0)%Z then chr "-" else chr "+")
            :: (if (Z.abs (decpt - 1) <? 10)%Z
                then chr "0" :: digits 1 (Z.abs (decpt - 1))
                else repr_nat (Z.abs (decpt - 1))) ++ rest)
      with (repr_exponent (decpt - 1) ++ rest).
    rewrite read_exponent_repr by exact Hrest.
    change (10 ^ Z.of_nat (1 - 1))%Z with 1%Z. by rewrite Z.div_1_r.
  - apply Nat.eqb_neq in E. cbn [app].
    rewrite read_digits_end by reflexivity.
    change (Ascii.eqb (chr ".") (chr ".")) with true. cbv iota.
    rewrite read_digits_digits.
    rewrite read_digits_end by reflexivity.
    cbn [Nat.add Nat.eqb andb].
    rewrite read_exponent_repr by exact Hrest.
    pose proof (Z.div_mod m0 (10 ^ Z.of_nat (n - 1))
                  ltac:(pose proof (pow10_pos (n - 1)); lia)).
    match goal with
    | |- Some (scale ?a ?b, _) = Some (scale ?c ?d, _) =>
        replace a with c by lia; replace b with d by lia
    end.
    reflexivity.
Qed.

Lemma is_float_check q (k : nat) :
  (10 ^ Z.of_nat k mod Z.pos (Qden q) = 0)%Z -> is_float q.
Proof. intros Hk. exists k. by apply Z.mod_divide. Qed.

Lemma decimals_from_sound fuel k0 den k :
  decimals_from fuel k0 den = Some k ->
  (10 ^ Z.of_nat k mod den = 0)%Z.
Proof.
  revert k0. induction fuel as [|fuel IH]; intros k0; [discriminate|].
  cbn [decimals_from]. destruct (10 ^ Z.of_nat k0 mod den =? 0)%Z eqn:E.
  - intros [= <-]. by apply Z.eqb_eq.
  - apply IH.
Qed.

Lemma decimals_from_complete fuel k0 den j :
  (k0 <= j < k0 + fuel)%nat ->
  (10 ^ Z.of_nat j mod den = 0)%Z ->
  is_Some (decimals_from fuel k0 den).
Proof.
  revert k0. induction fuel as [|fuel IH]; intros k0 Hj Hd; [lia|].
  cbn [decimals_from]. destruct (10 ^ Z.of_nat k0 mod den =? 0)%Z eqn:E; [eauto|].
  apply IH; [|exact Hd]. apply Z.eqb_neq in E.
  destruct (decide (j = k0)) as [->|]; [done | lia].
Qed.

(** A divisor [d] of a power of 10 divides [10 ^ log2 d]. *)
Lemma divides_pow10_log2 (j : nat) (d : Z) :
  (0 < d)%Z -> (d | 10 ^ Z.of_nat j)%Z -> (d | 10 ^ Z.log2 d)%Z.
Proof.
  revert d. induction j as [|j IH]; intros d Hd Hdiv.
  - cbn in Hdiv. apply Z.divide_1_r_nonneg in Hdiv; [|lia]. subst d. cbn.
    apply Z.divide_refl.
  - rewrite Nat2Z.inj_succ, Z.pow_succ_r in Hdiv by lia.
    set (g := Z.gcd d 10).
    assert (Hg : (0 < g)%Z).
    { pose proof (Z.gcd_nonneg d 10). 
      destruct (Z.eq_dec g 0%Z) as [E|]; [|lia].
      apply Z.gcd_eq_0_l in E. lia. }
    destruct (Z.gcd_divide_l d 10) as [d' Hd'].
    destruct (Z.gcd_divide_r d 10) as [t Ht]. fold g in Hd', Ht.
    assert (Hd'pos : (0 < d')%Z) by nia.
    assert (Hrel : Z.gcd d' t = 1%Z).
    { pose proof (Z.gcd_div_gcd d 10 g ltac:(lia) eq_refl) as H1.
      replace (d / g)%Z with d' in H1
        by (apply Z.div_unique_exact; lia).
      replace (10 / g)%Z with t in H1
        by (apply Z.div_unique_exact; lia).
      exact H1. }
    assert (Hdiv' : (d' | 10 ^ Z.of_nat j)%Z).
    { apply (Z.gauss d' t); [|exact Hrel].
      apply (Z.mul_divide_cancel_l _ _ g); [lia|].
      replace (g * d')%Z with d by lia.
      rewrite Z.mul_assoc, (Z.mul_comm g t), <- Ht. exact Hdiv. }
    specialize (IH d' Hd'pos Hdiv').
    destruct (Z.eq_dec g 1%Z) as [Hg1|Hg1].
    + replace d with d' by lia. exact IH.
    + assert (Hle : (Z.log2 d' + 1 <= Z.log2 d)%Z).
      { replace (Z.log2 d' + 1)%Z with (Z.succ (Z.log2 d')) by lia.
        rewrite <- Z.log2_double by lia. apply Z.log2_le_mono. nia. }
      replace (Z.log2 d) with (Z.succ (Z.log2 d - 1)) by lia.
      rewrite Z.pow_succ_r by (pose proof (Z.log2_nonneg d'); lia).
      assert (Hp : (d' | 10 ^ (Z.log2 d - 1))%Z).
      { apply (Z.divide_trans _ _ _ IH).
        exists (10 ^ (Z.log2 d - 1 - Z.log2 d'))%Z.
        rewrite <- Z.pow_add_r by (pose proof (Z.log2_nonneg d'); lia).
        f_equal. lia. }
      destruct Hp as [c Hc]. exists (t * c)%Z.
      rewrite Hc, Hd'. rewrite Ht at 1. ring.
Qed.

Lemma decimals_is_float q :
  is_float q ->
  exists k, decimals q = Some k
            /\ (Z.abs (Qnum q) * 10 ^ Z.of_nat k / Z.pos (Qden q) * Z.pos (Qden q)
                = Z.abs (Qnum q) * 10 ^ Z.of_nat k)%Z.
Proof.
  intros [j Hj].
  apply divides_pow10_log2 in Hj; [|lia].
  assert (Hs : is_Some (decimals q)).
  { unfold decimals. cbv zeta.
    apply (decimals_from_complete _ _ _ (Z.to_nat (Z.log2 (Z.pos (Qden q))))).
    - lia.
    - rewrite Z2Nat.id by apply Z.log2_nonneg. by apply Z.mod_divide. }
  destruct Hs as [k Hk]. exists k. split; [exact Hk|].
  apply decimals_from_sound in Hk.
  apply Z.mod_divide in Hk; [|lia]. destruct Hk as [c Hc].
  rewrite Hc. rewrite Z.mul_assoc, Z.div_mul by lia. lia.
Qed.

Lemma read_unsigned_positive m k rest :
  (0 < m)%Z -> ends_number rest ->
  exists v,
    read_unsigned (repr_positive m k ++ rest) = Some (v, rest)
    /\ v == decimal_value m k.
Proof.
  intros Hm Hrest. unfold repr_positive. cbv zeta.
  pose proof (trailing_zeros_exact m) as Hz.
  set (z := trailing_zeros m) in *.
  set (m0 := (m / 10 ^ Z.of_nat z)%Z) in *.
  pose proof (ndigits_pos m0) as Hn.
  assert (Hm0 : (0 <= m0)%Z).
  { apply Z.div_pos; [lia | apply pow10_pos]. }
  pose proof (ndigits_bound m0 Hm0) as Hb.
  set (n := ndigits m0) in *.
  destruct ((Z.of_nat n + Z.of_nat z - Z.of_nat k <=? -4)%Z
            || (16 <? Z.of_nat n + Z.of_nat z - Z.of_nat k)%Z).
  - rewrite read_unsigned_scientific
      by (try exact Hn; try (split; [exact Hm0 | exact Hb]);
          by apply ends_number_digits).
    eexists. split; [reflexivity|].
    apply scale_value.
    + intros Hpw. rewrite <- Hz at 1.
      replace (- (Z.of_nat n + Z.of_nat z - Z.of_nat k - 1 - Z.of_nat (n - 1)))%Z
        with (Z.of_nat k - Z.of_nat z)%Z by lia.
      rewrite <- Z.mul_assoc, <- Z.pow_add_r by lia.
      do 2 f_equal. lia.
    + intros Hpw. etransitivity; [|exact Hz].
      rewrite <- Z.mul_assoc, <- Z.pow_add_r by lia.
      do 2 f_equal. lia.
  - by apply read_unsigned_fixed; [lia|].
Qed.

Lemma read_unsigned_minus s : read_unsigned (chr "-" :: s) = None.
Proof.
  unfold read_unsigned. cbn [read_digits].
  change (digit_value (chr "-")) with (@None Z). cbv iota.
  change (Ascii.eqb (chr "-") (chr ".")) with false. reflexivity.
Qed.

(** What [repr] writes for a float reads back as that float, in lowest
    terms. *)
Lemma read_number_repr_float q rest :
  is_float q -> ends_number rest ->
  read_number (repr_float q ++ rest) = Some (Qred q, rest).
Proof.
  intros Hq Hrest.
  destruct (decimals_is_float q Hq) as (k & Hk & Hexact).
  unfold repr_float. rewrite Hk. change (default 17%nat (Some k)) with k.
  cbv zeta.
  set (m := (Z.abs (Qnum q) * 10 ^ Z.of_nat k / Z.pos (Qden q))%Z) in *.
  assert (Hm : (0 <= m)%Z).
  { apply Z.div_pos; [|lia]. pose proof (pow10_pos k). lia. }
  assert (Hbody : exists v,
             read_unsigned ((if (m =? 0)%Z then text_of "0.0"
                             else repr_positive m k) ++ rest) = Some (v, rest)
             /\ v == decimal_value m k).
  { destruct (m =? 0)%Z eqn:E.
    - apply Z.eqb_eq in E. destruct (read_unsigned_zero rest Hrest) as (v & Hv & H0).
      exists v. split; [exact Hv|]. rewrite H0, E. reflexivity.
    - apply Z.eqb_neq in E. apply read_unsigned_positive; [lia | exact Hrest]. }
  destruct Hbody as (v & Hv & Hval).
  assert (Habs : decimal_value m k == Z.abs (Qnum q) # Qden q).
  { unfold decimal_value, Qeq. cbn [Qnum Qden]. rewrite pos_pow10. lia. }
  rewrite <- app_assoc. unfold read_number.
  destruct (Qnum q <? 0)%Z eqn:Hs.
  - apply Z.ltb_lt in Hs. cbn [app]. rewrite read_unsigned_minus.
    change (Ascii.eqb (chr "-") (chr "-")) with true. cbv iota.
    rewrite Hv. f_equal. f_equal.
    apply Qred_complete. rewrite Hval, Habs.
    unfold Qeq, Qopp. cbn [Qnum Qden]. lia.
  - apply Z.ltb_ge in Hs. cbn [app]. rewrite Hv. f_equal. f_equal.
    apply Qred_complete. rewrite Hval, Habs.
    unfold Qeq. cbn [Qnum Qden]. lia.
Qed.

Lemma read_str_body_char quote c s :
  quote = apostrophe \/ quote = double_quote ->
  read_str_body quote (repr_char quote c ++ s)
  = match read_str_body quote s with
    | Some (cs, r) => Some (c :: cs, r)
    | None => None
    end.
Proof.
  intros [->| ->]; destruct c as [[] [] [] [] [] [] [] []]; reflexivity.
Qed.

Lemma read_str_body_repr quote cs rest :
  quote = apostrophe \/ quote = double_quote ->
  read_str_body quote (flat_map (repr_char quote) cs ++ quote :: rest)
  = Some (cs, rest).
Proof.
  intros Hq. induction cs as [|c cs IH].
  - cbn [flat_map app read_str_body]. by rewrite Ascii.eqb_refl.
  - cbn [flat_map]. rewrite <- app_assoc.
    rewrite read_str_body_char by exact Hq. by rewrite IH.
Qed.

Lemma read_str_repr s rest : read_str (repr_str s ++ rest) = Some (s, rest).
Proof.
  unfold repr_str. cbv zeta.
  match goal with
  | |- context [if ?b then double_quote else apostrophe] =>
      set (quote := if b then double_quote else apostrophe)
  end.
  assert (Hq : quote = apostrophe \/ quote = double_quote).
  { subst quote.
    match goal with |- context [if ?b then _ else _] => destruct b end; auto. }
  cbn [app read_str]. rewrite <- app_assoc. cbn [app].
  assert (Hg : Ascii.eqb quote apostrophe || Ascii.eqb quote double_quote = true).
  { by destruct Hq as [->| ->]. }
  rewrite Hg. rewrite read_str_body_repr by exact Hq.
  by rewrite String.string_of_list_ascii_of_string.
Qed.

Lemma skip_spaces_starts s rest : starts s -> skip_spaces (s ++ rest) = s ++ rest.
Proof.
  intros (c & s' & -> & Hc).
  change (skip_spaces ((c :: s') ++ rest))
    with (if Ascii.eqb c (chr " ") then skip_spaces (s' ++ rest)
          else c :: s' ++ rest).
  by rewrite Hc.
Qed.

Lemma starts_app s t : starts s -> starts (s ++ t).
Proof. intros (c & s' & -> & Hc). exists c, (s' ++ t). done. Qed.

Lemma starts_repr_str s : starts (repr_str s).
Proof.
  unfold repr_str. cbv zeta. eexists _, _. split; [reflexivity|].
  match goal with |- context [if ?b then _ else _] => destruct b end; reflexivity.
Qed.

Lemma digit_char_no_space d :
  (0 <= d < 10)%Z -> Ascii.eqb (digit_char d) (chr " ") = false.
Proof.
  intros H. destruct (digit_cases d H) as [->|[->|[->|[->|[->|[->|[->|[->|[->| ->]]]]]]]]];
    reflexivity.
Qed.

Lemma starts_digits p x : (1 <= p)%nat -> starts (digits p x).
Proof.
  revert x. induction p as [|p IH]; intros x Hp; [lia|].
  cbn [digits]. destruct p as [|p].
  - cbn. eexists _, _. split; [reflexivity|].
    apply digit_char_no_space, mod10_range.
  - apply starts_app, IH. lia.
Qed.

Lemma starts_repr_float q : starts (repr_float q).
Proof.
  unfold repr_float. cbv zeta. destruct (Qnum q <? 0)%Z.
  { eexists _, _. split; [reflexivity | reflexivity]. }
  cbn [app]. destruct (_ =? 0)%Z.
  { eexists _, _. split; reflexivity. }
  unfold repr_positive. cbv zeta. destruct (_ || _).
  - unfold repr_scientific. apply starts_app, starts_digits. lia.
  - unfold repr_fixed, repr_nat. apply starts_app, starts_digits, ndigits_pos.
Qed.

Lemma read_items_space fuel s :
  read_items fuel (chr " " :: s) = read_items fuel s.
Proof. destruct fuel; reflexivity. Qed.

Lemma read_items_join items fuel :
  items <> [] ->
  Forall (fun kv : string * Q => is_float (snd kv)) items ->
  (length items <= fuel)%nat ->
  read_items fuel (join (text_of ", ") (map repr_item items) ++ [chr "}"])
  = Some (prod_map id Qred <$> items).
Proof.
  revert fuel. induction items as [|[k v] items IH]; intros fuel Hne Hall Hlen;
    [done|].
  apply Forall_cons in Hall as [Hv Hall]. cbn [snd] in Hv.
  destruct fuel as [|fuel]; [cbn in Hlen; lia|].
  assert (Hstep : forall Y,
             ends_number Y ->
             read_items (S fuel) (repr_item (k, v) ++ Y)
             = match skip_spaces Y with
               | c' :: s4 =>
                   if Ascii.eqb c' (chr ",")
                   then match read_items fuel s4 with
                        | Some items => Some ((k, Qred v) :: items)
                        | None => None
                        end
                   else if Ascii.eqb c' (chr "}")
                   then match skip_spaces s4 with
                        | [] => Some [(k, Qred v)]
                        | _ => None
                        end
                   else None
               | [] => None
               end).
  { intros Y HY. cbn [read_items]. unfold repr_item. cbn [fst snd].
    rewrite <- !app_assoc.
    rewrite skip_spaces_starts by apply starts_repr_str.
    rewrite read_str_repr.
    change (text_of ": " ++ repr_float v ++ Y)
      with (chr ":" :: chr " " :: repr_float v ++ Y).
    change (skip_spaces (chr ":" :: chr " " :: repr_float v ++ Y))
      with (chr ":" :: chr " " :: repr_float v ++ Y).
    cbv iota. change (Ascii.eqb (chr ":") (chr ":")) with true. cbv iota.
    change (skip_spaces (chr " " :: repr_float v ++ Y))
      with (skip_spaces (repr_float v ++ Y)).
    rewrite skip_spaces_starts by apply starts_repr_float.
    rewrite read_number_repr_float by assumption. reflexivity. }
  destruct items as [|kv' items].
  - cbn [map join]. rewrite Hstep by (by cbn).
    reflexivity.
  - change (join (text_of ", ") (map repr_item ((k, v) :: kv' :: items)))
      with (repr_item (k, v)
            ++ chr "," :: chr " "
               :: join (text_of ", ") (map repr_item (kv' :: items))).
    rewrite <- app_assoc. cbn [app].
    rewrite Hstep by (by cbn).
    change (skip_spaces (chr "," :: ?s)) with (chr "," :: s).
    cbv iota. change (Ascii.eqb (chr ",") (chr ",")) with true. cbv iota.
    rewrite read_items_space.
    rewrite IH; [reflexivity | done | exact Hall | cbn in *; lia].
Qed.

Lemma repr_item_head kv :
  exists c r, repr_item kv = c :: r /\ (c = apostrophe \/ c = double_quote).
Proof.
  unfold repr_item, repr_str. cbv zeta. cbn [app].
  eexists _, _. split; [reflexivity|].
  match goal with |- context [if ?b then _ else _] => destruct b end; auto.
Qed.

Lemma join_head items :
  items <> [] ->
  exists c r,
    join (text_of ", ") (map repr_item items) = c :: r
    /\ (c = apostrophe \/ c = double_quote).
Proof.
  destruct items as [|kv items]; [done|]. intros _.
  destruct (repr_item_head kv) as (c & r & Hkv & Hc).
  destruct items as [|kv' items].
  - exists c, r. done.
  - change (join (text_of ", ") (map repr_item (kv :: kv' :: items)))
      with (repr_item kv ++ text_of ", "
            ++ join (text_of ", ") (map repr_item (kv' :: items))).
    rewrite Hkv. eexists _, _. split; [reflexivity | exact Hc].
Qed.

Lemma join_length items :
  (length items <= length (join (text_of ", ") (map repr_item items)))%nat.
Proof.
  induction items as [|kv items IH]; [cbn; lia|].
  destruct (repr_item_head kv) as (c & r & Hkv & _).
  destruct items as [|kv' items].
  - cbn [map join]. rewrite Hkv. cbn. lia.
  - change (join (text_of ", ") (map repr_item (kv :: kv' :: items)))
      with (repr_item kv ++ text_of ", "
            ++ join (text_of ", ") (map repr_item (kv' :: items))).
    rewrite Hkv. rewrite !length_app. cbn [length] in *. lia.
Qed.

Lemma None_text_brace s : None_text (chr "{" :: s) = false.
Proof. by destruct s as [|b [|c [|d s]]]. Qed.

(** [ast.literal_eval] reads what [str] has written for [jpa_params]
    back as [jpa_params], its numbers in lowest terms. *)
Lemma py_literal_eval_str j :
  jpa_floats j -> py_literal_eval (py_str j) = Ok (jpa_reduced j).
Proof.
  destruct j as [d|]; [|intros _; reflexivity].
  intros Hd. unfold py_literal_eval, py_str.
  rewrite String.list_ascii_of_string_of_list_ascii.
  unfold repr_dict.
  change (skip_spaces (chr "{" :: ?s)) with (chr "{" :: s).
  cbv zeta. rewrite None_text_brace.
  unfold read_dict. change (Ascii.eqb (chr "{") (chr "{")) with true. cbv iota.
  destruct (map_to_list d) as [|kv items] eqn:Hl.
  - apply map_to_list_empty_iff in Hl. subst d. reflexivity.
  - destruct (join_head (kv :: items) ltac:(done)) as (c & r & Hj & Hc).
    assert (Hread : read_items
                      (length (join (text_of ", ") (map repr_item (kv :: items))
                               ++ [chr "}"]))
                      (join (text_of ", ") (map repr_item (kv :: items))
                       ++ [chr "}"])
                    = Some (prod_map id Qred <$> kv :: items)).
    { apply read_items_join; [done| |].
      - rewrite <- Hl. apply Forall_forall. intros [k v] Hkv.
        apply elem_of_map_to_list in Hkv. exact (Hd k v Hkv).
      - rewrite length_app. pose proof (join_length (kv :: items)). lia. }
    rewrite Hread. rewrite Hj. cbn [app].
    assert (Hs : Ascii.eqb c (chr " ") = false /\ Ascii.eqb c (chr "}") = false).
    { by destruct Hc as [->| ->]. }
    destruct Hs as [Hs1 Hs2].
    change (skip_spaces (c :: r ++ [chr "}"]))
      with (if Ascii.eqb c (chr " ") then skip_spaces (r ++ [chr "}"])
            else c :: r ++ [chr "}"]).
    rewrite Hs1, Hs2. cbn [jpa_reduced].
    f_equal. f_equal. rewrite <- Hl.
    rewrite <- fmap_reverse, list_to_map_fmap. f_equal.
    rewrite <- (list_to_map_to_list d) at 2.
    symmetry. apply list_to_map_proper.
    + apply NoDup_fst_map_to_list.
    + symmetry. apply reverse_Permutation.
Qed.

Lemma jpa_same_reduced j : jpa_same (jpa_reduced j) j.
Proof.
  destruct j as [d|]; [|done]. intros k. cbn. rewrite lookup_fmap.
  destruct (d !! k) as [q|]; constructor. apply Qred_correct.
Qed.

Lemma jpa_reduced_lowest_terms j : jpa_lowest_terms j -> jpa_reduced j = j.
Proof.
  destruct j as [d|]; [|done]. intros H. cbn. f_equal.
  apply map_eq. intros k. rewrite lookup_fmap.
  destruct (d !! k) as [q|] eqn:Hk; [|done]. cbn. f_equal. exact (H k q Hk).
Qed.

(** C3. An object whose arrays are set and that [save] has written loads
    back equal to itself: every constructor parameter, [jpa_params]
    among them, and the arrays [delay_arr], [control_freq_arr], [t_arr]
    and [store_arr].  The numbers of [jpa_params], which are floats, go
    through the text [str] writes and come back with the same value,
    written in lowest terms: an object that has them in lowest terms
    comes back as it is.  [delay_arr] has at least one dimension, as
    [__init__] leaves it. *)
Theorem load_save_roundtrip path_of fn st path st' :
  shape (delay_arr (self st)) <> [] ->
  jpa_floats (jpa_params (self st)) ->
  save (python path_of) fn st = (Ok path, st') ->
  exists s',
    load (python path_of) path (files st') = Ok s'
    /\ same_object s' (self st)
    /\ (jpa_lowest_terms (jpa_params (self st)) -> s' = self st).
Proof.
  intros Hshape Hjpa Hsave. unfold save in Hsave.
  apply Base_save_Ok in Hsave as (cfa & ta & sa & Hcfa & Hta & Hsa & -> & ->).
  destruct st as [s tr fs].
  destruct s as [rf cfc cfs nr ra ca rd cd sd da rp cp sp wd rsd navg jpa dr
                   cfa0 ta0 sa0].
  cbn in Hshape, Hjpa, Hcfa, Hta, Hsa. subst.
  cbn [files self]. unfold load. rewrite lookup_insert_eq.
  unfold attr_float, attr_int, getkey, h5_of.
  cbn [attrs datasets readout_freq control_freq_center control_freq_span
         control_freq_nr readout_amp control_amp readout_duration
         control_duration sample_duration delay_arr readout_port control_port
         sample_port wait_delay readout_sample_delay num_averages jpa_params
         drag].
  cbn [python str literal_eval].
  pose proof (py_literal_eval_str _ Hjpa) as Hread. clear Hjpa.
  pose proof (jpa_same_reduced jpa) as Hsame.
  pose proof (jpa_reduced_lowest_terms jpa) as Hlow.
  generalize dependent (py_str jpa). intros js Hread.
  eval_lookups.
  cbn [rbind as_float as_int as_str].
  rewrite Hread. cbn [rbind as_float_array as_complex_array].
  unfold __init__.
  pose proof (np_asarray_float_array _ Hshape) as Hd.
  destruct (np_asarray _) as [x|]; [|discriminate]. cbn [rbind] in *.
  injection Hd as ->.
  eexists. split; [reflexivity|]. split.
  - split; [reflexivity | exact Hsame].
  - intros H. cbn [set_store set_control_freq_arr jpa_params] in *.
    rewrite (Hlow H). reflexivity.
Qed.

Lemma init_at_least_1d rf cfc cfs nr ra ca rd cd sd d rp cp sp wd rsd navg jpa dr s :
  __init__ rf cfc cfs nr ra ca rd cd sd d rp cp sp wd rsd navg jpa dr = Ok s ->
  shape (delay_arr s) <> [].
Proof.
  unfold __init__. destruct (np_asarray d) as [a|]; [|discriminate].
  cbn. intros [= <-]. cbn. unfold np_atleast_1d.
  by destruct (shape a) eqn:Hs; cbn; rewrite ?Hs.
Qed.

Lemma load_save_roundtrip_witness :
  let st := {| self := with_jpa demo_jpa demo_used; trace := []; files := ∅ |} in
  exists s',
    load demo_py "data/ramsey_chevron.h5" (files (snd (save demo_py None st)))
    = Ok s'
    /\ same_object s' (self st)
    /\ (jpa_lowest_terms (jpa_params (self st)) -> s' = self st).
Proof.
  apply (load_save_roundtrip
           (fun _ script fn =>
              match fn with Some f => f | None => "data/ramsey_chevron.h5" end)
           None
           {| self := with_jpa demo_jpa demo_used; trace := []; files := ∅ |}
           "data/ramsey_chevron.h5").
  - discriminate.
  - apply map_Forall_to_list. cbn [self jpa_params with_jpa].
    let l := eval vm_compute in (map_to_list demo_jpa) in
    change (map_to_list demo_jpa) with l.
    repeat (apply Forall_cons; split;
            [apply (is_float_check _ 1); reflexivity|]).
    constructor.
  - vm_compute. reflexivity.
Defined.

(** What [save] writes for the [jpa_params] of the examples, and that
    [load] reads it back. *)
Example jpa_params_text :
  py_str (Some demo_jpa)
  = "{'bias_port': 1.0, 'bias': 0.5, 'pump_freq': 15.0, 'pump_port': 4.0, 'pump_pwr': 3.0}"
  /\ py_literal_eval (py_str (Some demo_jpa)) = Ok (Some demo_jpa)
  /\ py_str None = "None"
  /\ py_literal_eval "None" = Ok None
  /\ py_literal_eval (py_str (Some {[ "bias" := 5 # 10 ]}))
     = Ok (Some {[ "bias" := 1 # 2 ]}).
Proof. repeat split; vm_compute; reflexivity. Qed.

(** Numbers and strings as [repr] writes them. *)
Example repr_float_demo :
  map (fun q => String.string_of_list_ascii (repr_float q))
    [0%Q; 100%Q; -1 # 2; 1 # 10000; 12 # 100000; 1 # 100000; 15 # 100000000;
     123456789125 # 1000; 1000000000000000%Q; 10000000000000000%Q;
     125000000000000000%Q]
  = ["0.0"; "100.0"; "-0.5"; "0.0001"; "0.00012"; "1e-05"; "1.5e-07";
     "123456789.125"; "1000000000000000.0"; "1e+16"; "1.25e+17"].
Proof. vm_compute. reflexivity. Qed.

Example repr_str_demo :
  String.string_of_list_ascii (repr_str "bias")
  = String.String apostrophe ("bias" +:+ String.String apostrophe "")
  /\ String.string_of_list_ascii (repr_str "it's")
     = String.String double_quote ("it's" +:+ String.String double_quote "")
  /\ String.string_of_list_ascii
       (repr_str (String.String (Ascii.ascii_of_nat 10) "\"))
     = String.String apostrophe ("\n\\" +:+ String.String apostrophe "")
  /\ read_str (repr_str "it's") = Some ("it's", [])
  /\ py_literal_eval "  { 'a' : 1 , 'b':2.5e3 } "
     = Ok (Some (list_to_map [("a", 1%Q); ("b", 2500%Q)])).
Proof. repeat split; vm_compute; reflexivity. Qed.





Lemma IDX_LOW_le_HIGH : (IDX_LOW <= IDX_HIGH)%nat.
Proof. apply Nat.leb_le. vm_compute. reflexivity. Qed.

Lemma take_drop_flat_map {A B} (f : A -> list B) (l : list A) c i x :
  (forall a, length (f a) = c) ->
  l !! i = Some x ->
  take c (drop (i * c) (flat_map f l)) = f x.
Proof.
  intros Hlen. revert i. induction l as [|a l IH]; intros i Hi; [done|].
  destruct i as [|i]; cbn [flat_map].
  - injection Hi as ->. cbn [Nat.mul]. rewrite drop_0.
    rewrite take_app_le by (rewrite Hlen; lia).
    apply take_ge. rewrite Hlen. lia.
  - cbn in Hi. cbn [Nat.mul]. rewrite drop_app_ge by (rewrite Hlen; lia).
    rewrite Hlen. replace (c + i * c - c)%nat with (i * c)%nat by lia.
    by apply IH.
Qed.

Section ResponseMap.

Variable s : RamseyChevron.
Variable store : ndarray complex.

(** C6. For a store buffer of shape [(n0, n1, n2)] whose first axis has
    length [control_freq_nr * len(delay_arr)], with a port 0 and at least
    [IDX_HIGH] samples, the response map of [analyze] has the shape
    [(control_freq_nr, len(delay_arr))], and its element [[i, j]] is the
    mean over the samples [IDX_LOW .. IDX_HIGH - 1] of port 0 of trace
    [i * len(delay_arr) + j]: row [i] belongs to control frequency [i] and
    column [j] to delay [j]. *)
Theorem response_map_mean (n0 n1 n2 nd : nat) (rest : list nat) :
  shape store = [n0; n1; n2] ->
  shape (delay_arr s) = nd :: rest ->
  (0 <= control_freq_nr s)%Z ->
  n0 = (Z.to_nat (control_freq_nr s) * nd)%nat ->
  (1 <= n1)%nat ->
  (IDX_HIGH <= n2)%nat ->
  exists resp,
    response_map s store = Ok resp
    /\ shape resp = [Z.to_nat (control_freq_nr s); nd]
    /\ forall i j,
         (i < Z.to_nat (control_freq_nr s))%nat -> (j < nd)%nat ->
         get2 resp i j
         = Some (cmean (map (fun k => get3 store n1 n2 (i * nd + j) 0 k)
                          (seq IDX_LOW (IDX_HIGH - IDX_LOW)))).
Proof.
  intros Hshape Hdelay Hnr Hn0 Hn1 Hn2.
  pose proof IDX_LOW_le_HIGH as Hidx.
  unfold response_map, np_take_2, np_arange. rewrite Hshape.
  assert (Hin : forallb (fun k => (k <? n2)%nat)
                  (seq IDX_LOW (IDX_HIGH - IDX_LOW)) = true).
  { apply forallb_forall. intros k Hk. apply in_seq in Hk.
    apply Nat.ltb_lt. lia. }
  rewrite Hin. destruct (Nat.ltb_spec 0 n1) as [_|]; [|lia].
  cbn [andb rbind np_mean_last shape data].
  unfold np_len. rewrite Hdelay. cbn [rbind]. unfold set_shape.
  cbn [shape shape_size fold_right].
  destruct (Nat.eqb_spec (Z.to_nat (control_freq_nr s) * (nd * 1)) (n0 * 1))
    as [_|Hne]; [|lia].
  eexists. split; [reflexivity|]. split; [reflexivity|].
  intros i j Hi Hj. unfold get2. cbn [shape data].
  destruct (Nat.ltb_spec i (Z.to_nat (control_freq_nr s))); [|lia].
  destruct (Nat.ltb_spec j nd); [|lia]. cbn [andb].
  rewrite list_lookup_fmap.
  assert (Hlt : (i * nd + j < n0)%nat) by nia.
  rewrite (proj2 (lookup_seq 0 n0 (i * nd + j) (i * nd + j))) by (split; lia).
  cbn [fmap option_fmap option_map]. f_equal. f_equal.
  rewrite length_seq.
  apply (take_drop_flat_map
           (fun i0 => map (fun k => get3 store n1 n2 i0 0 k)
                        (seq IDX_LOW (IDX_HIGH - IDX_LOW)))
           (seq 0 n0) _ _ (i * nd + j)%nat).
  - intros a. by rewrite length_map, length_seq.
  - apply lookup_seq. split; lia.
Qed.

End ResponseMap.

Lemma response_map_mean_witness :
  exists resp,
    response_map demo_analyzed demo_store = Ok resp
    /\ shape resp = [2; 2]%nat
    /\ forall i j,
         (i < 2)%nat -> (j < 2)%nat ->
         get2 resp i j
         = Some (cmean (map (fun k => get3 demo_store 1 2000 (i * 2 + j) 0 k)
                          (seq IDX_LOW (IDX_HIGH - IDX_LOW)))).
Proof.
  apply (response_map_mean demo_analyzed demo_store 4 1 2000 2 []);
    first [ reflexivity | lia
          | apply Nat.leb_le; vm_compute; reflexivity
          | vm_compute; discriminate ].
Defined.

(** The response of the example: the mean of trace [2 * i + j] is its
    constant [2 * i + j + 1]. *)
Example response_map_demo :
  exists resp,
    response_map demo_analyzed demo_store = Ok resp
    /\ shape resp = [2; 2]%nat
    /\ Forall2 (fun c v => fst c == v /\ snd c == 0) (data resp)
         [1%Q; 2%Q; 3%Q; 4%Q].
Proof.
  eexists. split; [vm_compute; reflexivity|]. split; [reflexivity|].
  repeat constructor.
Qed.

Lemma rbind_Ok {A B} (r : result A) (k : A -> result B) b :
  rbind r k = Ok b -> exists a, r = Ok a /\ k a = Ok b.
Proof. destruct r as [a|e]; [eauto | discriminate]. Qed.

Lemma setitem_Ok {A} (l : list A) i v :
  (i < length l)%nat -> setitem l i v = Ok (<[i := v]> l).
Proof. intros H. unfold setitem. by destruct (Nat.ltb_spec i (length l)); [|lia]. Qed.

Section Fit.

Variable num : Numerics.
Variable x : ndarray Q.
Variable plot_data : ndarray Q.



End Fit.

Lemma analyze_plot_data_Ok num s all_plots pd cfa_arr :
  analyze_plot_data num s all_plots = Ok (pd, cfa_arr) ->
  exists n, np_len cfa_arr = Ok n /\ Z.of_nat n = control_freq_nr s.
Proof.
  unfold analyze_plot_data.
  destruct (t_arr s) as [ta|], (store_arr s) as [sa|],
    (control_freq_arr s) as [cfa|]; try discriminate.
  intros H.
  apply rbind_Ok in H as (n & Hn & H).
  apply rbind_Ok in H as ([] & Hassert & H).
  repeat (apply rbind_Ok in H as (? & _ & H)).
  injection H as _ <-. exists n. split; [exact Hn|].
  apply assert_Ok in Hassert. by apply Z.eqb_eq.
Qed.



(** In the example the fit of the first row returns and the fit of the
    second one raises: [analyze] returns, with the fitted frequency 3 and
    NaN. *)
Example analyze_demo :
  exists a,
    analyze demo_num demo_analyzed false = Ok a
    /\ fit_freq a = [Fin 3; NaN]
    /\ err_freq a = [Fin 4; Fin 0].
Proof. eexists. split; [vm_compute; reflexivity|]. split; reflexivity. Qed.

Lemma load_sets_arrays py path disk s :
  load py path disk = Ok s ->
  is_Some (control_freq_arr s) /\ is_Some (t_arr s) /\ is_Some (store_arr s).
Proof.
  unfold load. destruct (disk !! path) as [h5f|]; [|discriminate].
  intros H. repeat (apply rbind_Ok in H as (? & _ & H)).
  injection H as <-. cbn. eauto.
Qed.

Lemma run_sets_arrays sdk py address port ext st fname st' :
  run sdk py address port ext st = (Ok fname, st') ->
  is_Some (control_freq_arr (self st')) /\ is_Some (t_arr (self st'))
  /\ is_Some (store_arr (self st')).
Proof.
  intros H. apply run_Ok in H. cbv zeta in H.
  destruct H as (? & ? & ? & ? & ? & ? & ? & _ & _ & _ & _ & _ & _ & _ & _ & _
                 & _ & -> & _).
  cbn. eauto.
Qed.

Lemma np_atleast_1d_ndim {A} (a : ndarray A) :
  ndim (np_atleast_1d a) = Nat.max 1 (ndim a).
Proof.
  unfold np_atleast_1d, ndim. destruct (shape a) as [|n sh] eqn:Hs; cbn.
  - reflexivity.
  - by rewrite Hs.
Qed.

(** C10. Whenever [__init__] returns, for every [delay_arr] argument it
    accepts, the object holds in [delay_arr] a [float64] array of at
    least one dimension: the numbers of [np.asarray(delay_arr)] converted
    to [float64], in its shape, except that a single number becomes an
    array of length 1; and [control_freq_arr], [t_arr] and [store_arr]
    are [None], until a [run] of that object that returns, or a [load]
    that returns, leaves the three of them set.  For a number, a list of
    numbers or a one-dimensional array of numbers, [__init__] returns and
    [delay_arr] is the one-dimensional array of those numbers. *)
Theorem init_delay_arr_float64_1d
    (rf cfc cfs : Q) (nr : Z) (ra ca rd cd sd : Q)
    (d : array_like)
    (rp cp sp : Z) (wd rsd : Q) (navg : Z) (jpa : option jpa_dict) (dr : Q) :
  let r := __init__ rf cfc cfs nr ra ca rd cd sd d rp cp sp wd rsd navg jpa dr in
  (forall xs, delay_input d xs ->
     exists self0,
       r = Ok self0
       /\ ndim (delay_arr self0) = 1%nat
       /\ shape (delay_arr self0) = [length xs]
       /\ data (delay_arr self0) = map to_float64 xs
       /\ (forall x, d = Scalar x -> delay_arr self0 = array1 [to_float64 x]))
  /\ (forall self0, r = Ok self0 ->
        (1 <= ndim (delay_arr self0))%nat
        /\ (exists a,
              np_asarray d = Ok a
              /\ ndim (delay_arr self0) = Nat.max 1 (ndim a)
              /\ (shape a <> [] -> shape (delay_arr self0) = shape a)
              /\ data (delay_arr self0) = map to_float64 (data a))
        /\ control_freq_arr self0 = None
        /\ t_arr self0 = None
        /\ store_arr self0 = None
        /\ (forall sdk py address port ext tr disk fname st',
            run sdk py address port ext
              {| self := self0; trace := tr; files := disk |} = (Ok fname, st') ->
            is_Some (control_freq_arr (self st')) /\ is_Some (t_arr (self st'))
            /\ is_Some (store_arr (self st')))
        /\ (forall py path disk s,
            load py path disk = Ok s ->
            is_Some (control_freq_arr s) /\ is_Some (t_arr s)
            /\ is_Some (store_arr s))).
Proof.
  cbv zeta. split.
  - intros xs Hd.
    destruct (np_asarray_delay_input d xs Hd) as (a & Ha & H1).
    unfold __init__. rewrite Ha. cbn [rbind].
    eexists. split; [reflexivity|]. cbn. rewrite H1. cbn.
    repeat split.
    intros x ->. inversion Hd; subst. reflexivity.
  - intros self0 H. unfold __init__ in H.
    destruct (np_asarray d) as [a|] eqn:Ha; [|discriminate].
    cbn [rbind] in H. injection H as <-.
    cbn [delay_arr control_freq_arr t_arr store_arr].
    assert (Hn : ndim (astype_float64 (np_atleast_1d a)) = Nat.max 1 (ndim a)).
    { rewrite <- np_atleast_1d_ndim. reflexivity. }
    split; [rewrite Hn; lia|]. split.
    { exists a. split; [reflexivity|]. split; [exact Hn|]. split.
      - intros Hs. cbn. unfold np_atleast_1d.
        destruct (shape a) eqn:E; [done|]. by rewrite E.
      - cbn. unfold np_atleast_1d. by destruct (shape a). }
    repeat split.
    + eapply run_sets_arrays; eauto.
    + eapply run_sets_arrays; eauto.
    + eapply run_sets_arrays; eauto.
    + eapply load_sets_arrays; eauto.
    + eapply load_sets_arrays; eauto.
    + eapply load_sets_arrays; eauto.
Qed.

Lemma init_delay_arr_float64_1d_witness :
  let r := __init__ 6 4 2 3 1 1 1 (1 # 2) 1 (Scalar (PyInt 3)) 1 2 1 5 0 10
             None 0 in
  exists self0,
    r = Ok self0
    /\ ndim (delay_arr self0) = 1%nat
    /\ shape (delay_arr self0) = [1%nat]
    /\ data (delay_arr self0) = [3%Q]
    /\ (forall x, Scalar (PyInt 3) = Scalar x ->
        delay_arr self0 = array1 [to_float64 x]).
Proof.
  apply (proj1 (init_delay_arr_float64_1d 6 4 2 3 1 1 1 (1 # 2) 1
                  (Scalar (PyInt 3)) 1 2 1 5 0 10 None 0) [PyInt 3]).
  constructor.
Defined.

(** C10 as stated fails for a list of lists and for an array of two
    dimensions: [__init__] accepts them, and [delay_arr] keeps the two
    dimensions. *)
Lemma init_keeps_two_dimensions :
  (exists self0,
     __init__ 6 4 2 3 1 1 1 (1 # 2) 1
       (Seq [Seq [Scalar (PyInt 0); Scalar (PyInt 1)];
             Seq [Scalar (PyInt 2); Scalar (PyInt 3)]])
       1 2 1 5 0 10 None 0 = Ok self0
     /\ shape (delay_arr self0) = [2; 2]%nat
     /\ ndim (delay_arr self0) <> 1%nat)
  /\ (exists self0,
        __init__ 6 4 2 3 1 1 1 (1 # 2) 1
          (NdArr {| shape := [2; 2]%nat;
                    data := [PyFloat 0; PyFloat 1; PyFloat 2; PyFloat 3] |})
          1 2 1 5 0 10 None 0 = Ok self0
        /\ shape (delay_arr self0) = [2; 2]%nat
        /\ ndim (delay_arr self0) <> 1%nat).
Proof.
  split; (eexists; split; [reflexivity|]; split; [reflexivity | discriminate]).
Qed.

(** ** A run, call by call *)

Lemma getkey_Ok {V} (d : gmap string V) k v : getkey d k = Ok v -> d !! k = Some v.
Proof. unfold getkey. destruct (d !! k); [by intros [= ->] | discriminate]. Qed.

Lemma Qeqb_false a b : Qeqb a b = false -> ~ a == b.
Proof.
  unfold Qeqb. intros H Heq. apply Qeq_bool_iff in Heq. congruence.
Qed.

Lemma Qeqb_true a b : Qeqb a b = true -> a == b.
Proof. apply Qeq_bool_iff. Qed.

Section Exact.

Variable sdk : presto.Presto.

Lemma configure_hardware_exact s nco u st st' :
  configure_hardware sdk s nco st = (Ok u, st') ->
  exists jv,
    st' = logs (map Call (hardware_calls s nco ++ from_option jpa_on_calls [] jv)) st
    /\ match jpa_params s with
       | None => jv = None
       | Some jpa => exists v, jv = Some v /\ jpa_read jpa = Some v
       end.
Proof.
  intros H. unfold configure_hardware in H. exec H.
  destruct (jpa_params s) as [jpa|]; exec H.
  - repeat match goal with
           | H : getkey _ _ = Ok _ |- _ => apply getkey_Ok in H
           end.
    match goal with
    | H1 : jpa !! "pump_freq" = Some ?pf, H2 : jpa !! "pump_pwr" = Some ?pp,
      H3 : jpa !! "pump_port" = Some ?port, H4 : jpa !! "bias" = Some ?b,
      H5 : jpa !! "bias_port" = Some ?bp |- _ =>
        exists (Some {| pump_freq := pf; pump_pwr := pp; pump_port := port;
                        bias := b; bias_port := bp |});
        rewrite !logs_calls; split; [reflexivity|];
        eexists; split; [reflexivity|]; unfold jpa_read;
        by rewrite H1, H2, H3, H4, H5
    end.
  - exists None. rewrite !logs_calls. done.
Qed.

Lemma setup_measurement_exact s arr pulses st st' :
  setup_measurement sdk s arr st = (Ok pulses, st') ->
  pulses = (presto.long_drive sdk, presto.template sdk)
  /\ st' = logs (map Call (setup_calls sdk s arr)) st.
Proof.
  intros H. unfold setup_measurement in H. exec H. rewrite !logs_calls.
  split; [reflexivity|]. unfold setup_calls, control_template, control_ns.
  destruct (Qeqb (drag s) 0); reflexivity.
Qed.

Lemma adjust_period_exact s T T' st st' :
  adjust_period sdk s T st = (Ok T', st') ->
  match jpa_params s with
  | None => T' = T /\ st' = st
  | Some jpa =>
      exists pf,
        jpa !! "pump_freq" = Some pf
        /\ forall v, pump_freq v = pf ->
             ~ idler_if s v == 0
             /\ idler_period_clk sdk s v <> 0%Z
             /\ T' = period sdk s (Some v) T
             /\ st' = logs (map Call (adjust_calls (Some v))) st
  end.
Proof.
  intros H. unfold adjust_period in H.
  destruct (jpa_params s) as [jpa|].
  - exec H.
    match goal with
    | H : getkey _ _ = Ok _ |- _ => apply getkey_Ok in H; rename H into Hkey
    end.
    destruct (Qeqb _ _) eqn:Hif; [discriminate|].
    destruct (Z.eqb _ _) eqn:Hp; [discriminate|].
    repeat match goal with
           | H : ret _ _ = (Ok _, _) |- _ => apply ret_Ok in H as [_ ->]
           end.
    eexists. split; [exact Hkey|]. intros v Hv.
    unfold idler_if, idler_period_clk, period, adjusted_clk, idler_period_clk, idler_if.
    rewrite Hv. split; [by apply Qeqb_false in Hif|].
    split; [by apply Z.eqb_neq in Hp|]. rewrite !logs_calls. done.
  - by apply ret_Ok in H as [-> ->].
Qed.

Lemma run_experiment_exact s T u st st' :
  run_experiment sdk s T st = (Ok u, st') ->
  match jpa_params s with
  | None =>
      st' = {| self := set_store (presto.store_data sdk) (self st);
               trace := trace st
                        ++ map Call [presto.run T (control_freq_nr s)
                                       (num_averages s) true;
                                     presto.get_store_data];
               files := files st |}
  | Some jpa =>
      exists port bp,
        jpa !! "pump_port" = Some port /\ jpa !! "bias_port" = Some bp
        /\ st' = {| self := set_store (presto.store_data sdk) (self st);
                    trace := trace st
                             ++ map Call [presto.run T (control_freq_nr s)
                                            (num_averages s) true;
                                          presto.get_store_data;
                                          presto.hardware_set_lmx 0 0 port;
                                          presto.hardware_set_dc_bias 0 bp];
                    files := files st |}
  end.
Proof.
  intros H. unfold run_experiment in H. exec H.
  destruct (jpa_params s) as [jpa|]; exec H.
  - repeat match goal with
           | H : getkey _ _ = Ok _ |- _ => apply getkey_Ok in H
           end.
    eexists _, _. split; [eassumption|]. split; [eassumption|].
    unfold logs. cbn [self trace files]. rewrite <- !app_assoc. reflexivity.
  - unfold logs. cbn [self trace files]. rewrite <- !app_assoc. reflexivity.
Qed.

Lemma with_block_exact address port ext u st st' :
  with_block sdk address port ext st = (Ok u, st') ->
  exists jv arr delays,
    ready sdk (self st) jv arr delays
    /\ st' = {| self := measured sdk (self st) arr;
                trace := trace st
                         ++ map Call (run_calls sdk (self st) address port ext
                                        jv arr delays);
                files := files st |}.
Proof.
  intros Hbody. unfold with_block in Hbody.
  apply with_Pulsed_Ok in Hbody as (st2 & Hbody & ->).
  exec Hbody. unfold measure in Hbody. exec Hbody.
  destruct a0 as [arr nco]. destruct a2 as [rp cp]. cbn [fst snd] in *.
  apply figure_out_frequencies_Ok in E0 as (Hc & Hs & Harr & -> & ->).
  apply configure_hardware_exact in E1 as (jv & -> & Hjv).
  apply setup_measurement_exact in E2 as ([= -> ->] & ->).
  apply program_pulse_sequence_Ok in E3 as (delays & Hdelays & -> & ->).
  apply adjust_period_exact in E4.
  apply run_experiment_exact in Hbody.
  apply assert_Ok in E. apply Qltb_lt in Hc, Hs.
  cbn [self trace files logs set_store set_control_freq_arr control_freq_arr
         t_arr store_arr] in *.
  set (s := self st) in *.
  exists jv, arr, delays.
  destruct (jpa_params s) as [jpa|] eqn:Hjpa.
  - destruct Hjv as (v & -> & Hv).
    destruct E4 as (pf & Hpf & Hadj).
    destruct Hbody as (pport & bp & Hpp & Hbp & Hst').
    assert (Hvals : pump_freq v = pf /\ pump_port v = pport /\ bias_port v = bp).
    { unfold jpa_read in Hv. rewrite Hpf, Hpp, Hbp in Hv.
      destruct (jpa !! "pump_pwr"), (jpa !! "bias"); try discriminate.
      by injection Hv as <-. }
    destruct Hvals as (Hpfv & <- & <-).
    destruct (Hadj v Hpfv) as (Hif & Hp & HT & Hst4).
    split.
    { unfold ready, jpa_ready. fold s. rewrite Hjpa. repeat (split; [done|]).
      exists v. done. }
    rewrite Hst', Hst4, HT.
    unfold measured, run_calls, calls_before_run, run_call, jpa_off_calls.
    fold s. unfold logs. cbn [from_option self trace files].
    f_equal. rewrite <- !app_assoc. rewrite !map_app. rewrite <- !app_assoc.
    reflexivity.
  - subst jv. destruct E4 as [HT Hst4]. rewrite Hbody, Hst4, HT.
    split.
    { unfold ready, jpa_ready. fold s. rewrite Hjpa. done. }
    unfold measured, run_calls, calls_before_run, run_call.
    fold s. unfold logs. cbn [from_option self trace files adjust_calls period].
    f_equal. rewrite <- !app_assoc. rewrite !map_app. rewrite <- !app_assoc.
    reflexivity.
Qed.

End Exact.

Lemma jpa_read_Some jpa v :
  jpa_read jpa = Some v ->
  jpa !! "pump_freq" = Some (pump_freq v)
  /\ jpa !! "pump_pwr" = Some (pump_pwr v)
  /\ jpa !! "pump_port" = Some (pump_port v)
  /\ jpa !! "bias" = Some (bias v)
  /\ jpa !! "bias_port" = Some (bias_port v).
Proof.
  unfold jpa_read.
  destruct (jpa !! "pump_freq"), (jpa !! "pump_pwr"), (jpa !! "pump_port"),
    (jpa !! "bias"), (jpa !! "bias_port"); try discriminate.
  by intros [= <-].
Qed.

Lemma quiet_until_run_of_quiet sdk : quiet sdk -> quiet_until_run sdk.
Proof. intros H h c _. apply H. Qed.

Lemma bind_ret_l {A B} (a : A) (k : A -> M B) st : bind (ret a) k st = k a st.
Proof. reflexivity. Qed.

Lemma bind_lift_Ok {A B} (a : A) (k : A -> M B) st : bind (lift (Ok a)) k st = k a st.
Proof. reflexivity. Qed.

Lemma bind_bind {A B C} (m : M A) (k : A -> M B) (k' : B -> M C) st :
  bind (bind m k) k' st = bind m (fun a => bind (k a) k') st.
Proof. unfold bind. by destruct (m st) as [[a|e] st1]. Qed.

Section Forward.

Variable sdk : presto.Presto.
Hypothesis Hq : quiet_until_run sdk.

Lemma call_good c st :
  is_run c = false -> call sdk c st = (Ok tt, logs (map Call [c]) st).
Proof. intros Hc. unfold call. by rewrite (Hq _ _ Hc). Qed.

Lemma bind_call_good {B} c (k : unit -> M B) st :
  is_run c = false -> bind (call sdk c) k st = k tt (logs (map Call [c]) st).
Proof. intros Hc. unfold bind. by rewrite call_good. Qed.

Lemma bind_query_good {A B} c (v : A) (k : A -> M B) st :
  is_run c = false ->
  bind (bind (call sdk c) (fun _ => ret v)) k st = k v (logs (map Call [c]) st).
Proof. intros Hc. rewrite bind_bind, bind_call_good by done. reflexivity. Qed.

(** Runs a statement forward on an instrument that answers. *)
Ltac fwd :=
  repeat first
    [ rewrite bind_call_good by reflexivity
    | rewrite bind_query_good by reflexivity
    | rewrite call_good by reflexivity
    | rewrite bind_ret_l
    | rewrite bind_lift_Ok ].

Lemma configure_hardware_fwd s nco jv st :
  jpa_present s jv ->
  configure_hardware sdk s nco st
  = (Ok tt,
     logs (map Call (hardware_calls s nco ++ from_option jpa_on_calls [] jv)) st).
Proof.
  unfold jpa_present. intros Hjv. unfold configure_hardware. fwd.
  destruct (jpa_params s) as [jpa|].
  - destruct Hjv as (v & -> & Hv).
    apply jpa_read_Some in Hv as (H1 & H2 & H3 & H4 & H5).
    unfold getkey. rewrite H1, H2, H3, H4, H5. fwd.
    rewrite !logs_calls. reflexivity.
  - subst jv. unfold ret. rewrite !logs_calls. reflexivity.
Qed.

Lemma setup_measurement_fwd s arr st :
  setup_measurement sdk s arr st
  = (Ok (presto.long_drive sdk, presto.template sdk),
     logs (map Call (setup_calls sdk s arr)) st).
Proof.
  unfold setup_measurement, setup_long_drive, get_fs, setup_template. fwd.
  unfold ret. rewrite !logs_calls.
  unfold setup_calls, control_template, control_ns.
  destruct (Qeqb (drag s) 0); reflexivity.
Qed.

Lemma pulse_loop_fwd s rp cp delays T st :
  pulse_loop sdk s rp cp delays T st
  = (Ok (loop_end s delays T),
     logs (map Call (concat (loop_calls s rp cp delays T))) st).
Proof.
  revert T st. induction delays as [|d ds IH]; intros T st.
  - cbn. by rewrite logs_nil.
  - cbn [pulse_loop]. fwd. rewrite IH. rewrite !logs_calls. reflexivity.
Qed.

Lemma program_pulse_sequence_fwd s rp cp delays st :
  iter_numbers (delay_arr s) = Ok delays ->
  program_pulse_sequence sdk s rp cp st
  = (Ok (loop_end s delays 0 + wait_delay s)%Q,
     logs (map Call (concat (loop_calls s rp cp delays 0)
                     ++ [presto.next_frequency (loop_end s delays 0)
                           (control_port s)])) st).
Proof.
  intros Hd. unfold program_pulse_sequence. rewrite Hd. fwd.
  unfold bind at 1. rewrite pulse_loop_fwd. fwd. unfold ret.
  rewrite !logs_calls. reflexivity.
Qed.

Lemma adjust_period_fwd s jv T st :
  jpa_ready sdk s jv ->
  adjust_period sdk s T st
  = (Ok (period sdk s jv T), logs (map Call (adjust_calls jv)) st).
Proof.
  unfold jpa_ready, adjust_period. destruct (jpa_params s) as [jpa|].
  - intros (v & -> & Hv & Hif & Hp).
    apply jpa_read_Some in Hv as (H1 & _).
    unfold getkey. rewrite H1. fwd.
    unfold idler_period_clk, idler_if in *.
    destruct (Qeqb _ _) eqn:Hif'; [apply Qeqb_true in Hif'; contradiction|].
    fwd. unfold get_clk_f, get_clk_T. fwd.
    destruct (Z.eqb_spec (py_round (1 / Qabs (pump_freq v - readout_freq s
                                               - readout_freq s)
                                    * presto.clk_f sdk)) 0) as [H0|_];
      [contradiction|].
    fwd. unfold ret. rewrite !logs_calls. reflexivity.
  - intros ->. cbn. by rewrite logs_nil.
Qed.

(** The [with] block up to the assignment of [control_freq_arr]. *)
Lemma with_block_frequencies address port ext arr st :
  let s := self st in
  let fs_dac := presto.fs sdk "dac" in
  presto.hardware sdk = true ->
  (control_freq_span s / 2 < control_freq_center s)%Q ->
  (control_freq_span s < fs_dac / 2)%Q ->
  np_linspace (fs_dac / 4 - control_freq_span s / 2)
    (fs_dac / 4 + control_freq_span s / 2) (control_freq_nr s) = Ok arr ->
  with_block sdk address port ext st
  = closing sdk
      (measure sdk s arr (control_freq_center s - fs_dac / 4)%Q
         (swept sdk st arr
            [presto.Pulsed_enter address port ext CONVERTER_CONFIGURATION;
             presto.get_fs "dac"; presto.get_fs "dac"])).
Proof.
  intros s fs_dac Hhw Hc Hs Harr.
  unfold with_block, with_Pulsed. rewrite call_good by reflexivity.
  rewrite Hhw. cbn [assert]. rewrite bind_lift_Ok.
  unfold bind at 1, get_self. change (self (logs _ st)) with s.
  unfold bind at 1.
  rewrite (figure_out_frequencies_run sdk s _ arr) by (done || intros h; by apply Hq).
  cbn [fst snd]. unfold closing, swept, logs. cbn [self trace files].
  fold s. fold fs_dac. rewrite <- !app_assoc.
  destruct (measure sdk s arr _ _) as [r st2]. reflexivity.
Qed.

(** The measurement up to the adjustment of the period. *)
Lemma measure_before_adjust s arr nco jv delays st :
  jpa_present s jv ->
  iter_numbers (delay_arr s) = Ok delays ->
  measure sdk s arr nco st
  = (T <- adjust_period sdk s (loop_end s delays 0 + wait_delay s)%Q ;;
     run_experiment sdk s T)%M
      (logs (map Call (hardware_calls s nco ++ from_option jpa_on_calls [] jv
                       ++ setup_calls sdk s arr
                       ++ concat (loop_calls s (presto.long_drive sdk)
                                    (presto.template sdk) delays 0)
                       ++ [presto.next_frequency (loop_end s delays 0)
                             (control_port s)])) st).
Proof.
  intros Hjv Hd. unfold measure.
  unfold bind at 1. rewrite (configure_hardware_fwd s _ jv) by done.
  unfold bind at 1. rewrite setup_measurement_fwd. cbn [fst snd].
  unfold bind at 1. rewrite (program_pulse_sequence_fwd s _ _ delays) by done.
  rewrite !logs_calls. rewrite <- !app_assoc. reflexivity.
Qed.

Lemma jpa_ready_present s jv : jpa_ready sdk s jv -> jpa_present s jv.
Proof.
  unfold jpa_ready, jpa_present. destruct (jpa_params s); [|done].
  intros (v & ? & ? & _). eauto.
Qed.

(** Up to the call of [pls.run], a ready object gets through. *)
Lemma with_block_before_run address port ext jv arr delays st :
  let s := self st in
  ready sdk s jv arr delays ->
  with_block sdk address port ext st
  = closing sdk
      (run_experiment sdk s (period sdk s jv (loop_end s delays 0 + wait_delay s))
         (swept sdk st arr
            (calls_before_run sdk s address port ext jv arr delays))).
Proof.
  intros s (Hhw & Hc & Hs & Harr & Hd & Hjpa).
  rewrite (with_block_frequencies address port ext arr) by done.
  fold s. f_equal.
  rewrite (measure_before_adjust s arr _ jv delays)
    by (done || by apply jpa_ready_present).
  unfold bind at 1. rewrite (adjust_period_fwd s jv) by done.
  f_equal. unfold swept, logs, calls_before_run. cbn [self trace files].
  fold s. rewrite <- !app_assoc, !map_app, <- !app_assoc. reflexivity.
Qed.

End Forward.

Section ForwardQuiet.

Variable sdk : presto.Presto.
Hypothesis Hq : quiet sdk.

Lemma call_quiet c st : call sdk c st = (Ok tt, logs (map Call [c]) st).
Proof. unfold call. by rewrite Hq. Qed.

Lemma run_experiment_fwd s jv T st :
  jpa_ready sdk s jv ->
  run_experiment sdk s T st
  = (Ok tt,
     {| self := set_store (presto.store_data sdk) (self st);
        trace := trace st
                 ++ map Call ([presto.run T (control_freq_nr s) (num_averages s) true;
                               presto.get_store_data]
                              ++ from_option jpa_off_calls [] jv);
        files := files st |}).
Proof.
  intros Hjpa. unfold run_experiment, get_store_data, bind, set_self, ret.
  rewrite !call_quiet. cbn [self trace files logs].
  unfold jpa_ready in Hjpa. destruct (jpa_params s) as [jpa|].
  - destruct Hjpa as (v & -> & Hv & _).
    apply jpa_read_Some in Hv as (_ & _ & H3 & _ & H5).
    unfold lift, getkey. rewrite H3, H5. rewrite !call_quiet.
    unfold logs. cbn [self trace files from_option jpa_off_calls].
    rewrite <- !app_assoc. reflexivity.
  - subst jv. unfold logs. cbn [self trace files from_option].
    rewrite <- !app_assoc. reflexivity.
Qed.

Lemma with_block_fwd address port ext jv arr delays st :
  ready sdk (self st) jv arr delays ->
  with_block sdk address port ext st
  = (Ok tt,
     {| self := measured sdk (self st) arr;
        trace := trace st
                 ++ map Call (run_calls sdk (self st) address port ext
                                jv arr delays);
        files := files st |}).
Proof.
  intros Hready.
  rewrite (with_block_before_run sdk (quiet_until_run_of_quiet sdk Hq)
             address port ext jv arr delays st Hready).
  rewrite (run_experiment_fwd _ jv) by apply Hready.
  unfold closing. cbn [fst snd]. rewrite call_quiet.
  unfold swept, logs, measured, run_calls, run_call.
  cbn [self trace files]. rewrite <- !app_assoc, !map_app, <- !app_assoc.
  reflexivity.
Qed.

End ForwardQuiet.

Lemma iter_numbers_1d {A} (a : ndarray A) n :
  shape a = [n] -> iter_numbers a = Ok (data a).
Proof. unfold iter_numbers. intros H. rewrite H. by destruct n. Qed.

(** X1. On an instrument that raises nothing, and for a one-dimensional
    [delay_arr], the [with] block of [run] completes, so that [run] goes
    on to [save], exactly when [pls.hardware] is set,
    [control_freq_center > control_freq_span / 2],
    [control_freq_span < fs_dac / 2], [control_freq_nr >= 0], and
    [jpa_params] is [None] or holds the five entries [run] reads, with a
    pump that is not at twice the readout frequency and an idler period
    that does not round to zero clock cycles. *)
Theorem run_gets_through_iff sdk py address port ext st n :
  let s := self st in
  let fs_dac := presto.fs sdk "dac" in
  quiet sdk ->
  shape (delay_arr s) = [n] ->
  (exists st1, with_block sdk address port ext st = (Ok tt, st1)
               /\ run sdk py address port ext st = save py None st1)
  <-> (presto.hardware sdk = true
       /\ (control_freq_span s / 2 < control_freq_center s)%Q
       /\ (control_freq_span s < fs_dac / 2)%Q
       /\ (0 <= control_freq_nr s)%Z
       /\ exists jv, jpa_ready sdk s jv).
Proof.
  intros s fs_dac Hq Hshape. split.
  - intros (st1 & Hblock & _).
    apply with_block_exact in Hblock
      as (jv & arr & delays & (Hhw & Hc & Hs & Harr & _ & Hjpa) & _).
    apply np_linspace_Ok in Harr as [Hnr _]. eauto 10.
  - intros (Hhw & Hc & Hs & Hnr & jv & Hjpa).
    destruct (np_linspace_nonneg (fs_dac / 4 - control_freq_span s / 2)
                (fs_dac / 4 + control_freq_span s / 2) (control_freq_nr s) Hnr)
      as [arr Harr].
    assert (Hready : ready sdk s jv arr (data (delay_arr s))).
    { repeat (split; [done|]). split; [|done]. by apply (iter_numbers_1d _ n). }
    eexists. split.
    + by apply (with_block_fwd sdk Hq address port ext jv arr (data (delay_arr s))).
    + rewrite run_with_block. unfold bind.
      by rewrite (with_block_fwd sdk Hq address port ext jv arr
                    (data (delay_arr s)) st Hready).
Qed.

Lemma run_gets_through_iff_witness :
  let st := demo_state 3 in
  (exists st1, with_block demo_sdk "192.168.42.50" None false st = (Ok tt, st1)
               /\ run demo_sdk demo_py "192.168.42.50" None false st
                  = save demo_py None st1)
  <-> (presto.hardware demo_sdk = true
       /\ (control_freq_span (self st) / 2 < control_freq_center (self st))%Q
       /\ (control_freq_span (self st) < presto.fs demo_sdk "dac" / 2)%Q
       /\ (0 <= control_freq_nr (self st))%Z
       /\ exists jv, jpa_ready demo_sdk (self st) jv).
Proof.
  apply (run_gets_through_iff demo_sdk demo_py "192.168.42.50" None false
           (demo_state 3) 2).
  - intros h c. reflexivity.
  - reflexivity.
Defined.

(** ** What [run] never calls *)

Section Emits.

Variable sdk : presto.Presto.
Variable Q : presto.call -> bool.

Lemma emits_ret {A} (a : A) : emits Q (ret a).
Proof. intros st. exists []. cbn. by rewrite app_nil_r. Qed.

Lemma emits_raise {A} e : emits Q (@raise A e).
Proof. intros st. exists []. cbn. by rewrite app_nil_r. Qed.

Lemma emits_lift {A} (r : result A) : emits Q (lift r).
Proof. intros st. exists []. cbn. by rewrite app_nil_r. Qed.

Lemma emits_set_self f : emits Q (set_self f).
Proof. intros st. exists []. cbn. by rewrite app_nil_r. Qed.

Lemma emits_call c : Q c = true -> emits Q (call sdk c).
Proof.
  intros Hc st. exists [c]. rewrite call_state. cbn. by rewrite Hc.
Qed.

Lemma emits_bind {A B} (m : M A) (k : A -> M B) :
  emits Q m -> (forall a, emits Q (k a)) -> emits Q (bind m k).
Proof.
  intros Hm Hk st. unfold bind. destruct (Hm st) as (cs1 & H1 & HQ1).
  destruct (m st) as [[a|e] st1]; cbn [snd] in *.
  - destruct (Hk a st1) as (cs2 & H2 & HQ2). exists (cs1 ++ cs2).
    rewrite H2, H1, map_app, app_assoc, forallb_app, HQ1, HQ2. done.
  - exists cs1. done.
Qed.

Lemma emits_get_self_bind {B} (k : RamseyChevron -> M B) :
  (forall s, emits Q (k s)) -> emits Q (bind get_self k).
Proof. intros Hk st. unfold bind, get_self. apply Hk. Qed.

End Emits.

Ltac emits_step :=
  first
    [ apply emits_bind; [|intros ?]
    | apply emits_call; reflexivity
    | apply emits_ret
    | apply emits_lift
    | apply emits_set_self
    | apply emits_raise
    | match goal with
      | |- emits _ (match ?x with _ => _ end) => destruct x
      | |- emits _ (if ?x then _ else _) => destruct x
      end ].

Section Allowed.

Variable sdk : presto.Presto.
Variable s : RamseyChevron.

Lemma emits_pulse_loop Q rp cp delays T :
  (forall c, presto.is_sequence_call c = true -> Q c = true) ->
  emits Q (pulse_loop sdk s rp cp delays T).
Proof.
  intros HQ. revert T. induction delays as [|d ds IH]; intros T; cbn [pulse_loop].
  - apply emits_ret.
  - repeat first [ apply emits_bind; [|intros ?]
                 | apply emits_call; by apply HQ ].
    apply IH.
Qed.

Lemma emits_figure_out_frequencies :
  emits (allowed s) (figure_out_frequencies sdk s).
Proof.
  unfold figure_out_frequencies, get_fs, allowed.
  destruct (jpa_params s); repeat emits_step.
Qed.

Lemma emits_measure arr nco : emits (allowed s) (measure sdk s arr nco).
Proof.
  unfold measure, configure_hardware, setup_measurement, setup_long_drive,
    get_fs, setup_template, program_pulse_sequence, adjust_period,
    run_experiment, get_store_data, get_clk_f, get_clk_T.
  assert (Hloop : forall rp cp delays T,
             emits (allowed s) (pulse_loop sdk s rp cp delays T)).
  { intros. apply emits_pulse_loop. unfold allowed.
    intros [] Hc; try discriminate; by destruct (jpa_params s). }
  unfold allowed in *. destruct (jpa_params s) as [jpa|];
    repeat first [ apply Hloop | emits_step ].
Qed.

End Allowed.

Lemma emits_body sdk st :
  let s := self st in
  exists cs,
    trace (snd ((lift (assert (presto.hardware sdk)) ;;
                 s <- get_self ;;
                 freqs <- figure_out_frequencies sdk s ;;
                 measure sdk s (fst freqs) (snd freqs))%M st))
    = trace st ++ map Call cs
    /\ forallb (allowed s) cs = true.
Proof.
  intros s. unfold bind at 1, lift.
  destruct (assert (presto.hardware sdk)).
  2:{ exists []. cbn. by rewrite app_nil_r. }
  unfold bind at 1, get_self. fold s.
  apply (emits_bind (allowed s)).
  - apply emits_figure_out_frequencies.
  - intros freqs. apply emits_measure.
Qed.

Lemma save_calls py fn st :
  calls_of (trace (snd (save py fn st))) = calls_of (trace st).
Proof.
  unfold save, Base_save.
  destruct (control_freq_arr (self st)), (t_arr (self st)),
    (store_arr (self st)); cbn [snd trace]; try reflexivity.
  rewrite calls_of_app. cbn. by rewrite app_nil_r.
Qed.

Lemma with_Pulsed_unfold {A} sdk address port ext conf (body : M A) st :
  with_Pulsed sdk address port ext conf body st
  = match presto.raises sdk (calls_of (trace st))
            (presto.Pulsed_enter address port ext conf) with
    | Some msg =>
        (Raise (VendorError msg),
         log (Call (presto.Pulsed_enter address port ext conf)) st)
    | None =>
        let '(r, st2) :=
          body (log (Call (presto.Pulsed_enter address port ext conf)) st) in
        match call sdk presto.Pulsed_exit st2 with
        | (Ok _, st3) => (r, st3)
        | (Raise e, st3) => (Raise e, st3)
        end
    end.
Proof.
  unfold with_Pulsed, call at 1. by destruct (presto.raises sdk _ _).
Qed.

(** The calls of the [with] block, whether it returns or raises. *)
Lemma with_block_calls_shape sdk address port ext st :
  let s := self st in
  let r := with_block sdk address port ext st in
  let enter := presto.Pulsed_enter address port ext CONVERTER_CONFIGURATION in
  match presto.raises sdk (calls_of (trace st)) enter with
  | Some msg =>
      fst r = Raise (VendorError msg)
      /\ calls_of (trace (snd r)) = calls_of (trace st) ++ [enter]
  | None =>
      exists body,
        calls_of (trace (snd r))
        = calls_of (trace st) ++ [enter] ++ body ++ [presto.Pulsed_exit]
        /\ forallb (allowed s) body = true
  end.
Proof.
  intros s r enter. subst r.
  unfold with_block. rewrite with_Pulsed_unfold. fold enter.
  destruct (presto.raises sdk (calls_of (trace st)) enter) as [msg|].
  - unfold log. cbn [fst snd trace]. rewrite calls_of_app. done.
  - destruct (emits_body sdk (log (Call enter) st)) as (body & Hbody & Hall).
    change (self (log (Call enter) st)) with s in Hall.
    destruct ((lift (assert (presto.hardware sdk));; _)%M (log (Call enter) st))
      as [res st2].
    cbn [snd] in Hbody.
    pose proof (call_state sdk presto.Pulsed_exit st2) as Hexit.
    exists body. split; [|exact Hall].
    assert (Hcalls : calls_of (trace (logs (map Call [presto.Pulsed_exit]) st2))
                     = calls_of (trace st) ++ [enter] ++ body ++ [presto.Pulsed_exit]).
    { unfold logs. cbn [trace]. rewrite Hbody. unfold log. cbn [trace].
      rewrite !calls_of_app, calls_of_Call. cbn. by rewrite <- !app_assoc. }
    destruct (call sdk presto.Pulsed_exit st2) as [[[]|e] st3];
      cbn [snd] in Hexit; subst st3; exact Hcalls.
Qed.

(** The calls of any [run], returning or not. *)
Lemma run_calls_shape sdk py address port ext st :
  let s := self st in
  let r := run sdk py address port ext st in
  let enter := presto.Pulsed_enter address port ext CONVERTER_CONFIGURATION in
  match presto.raises sdk (calls_of (trace st)) enter with
  | Some msg =>
      fst r = Raise (VendorError msg)
      /\ calls_of (trace (snd r)) = calls_of (trace st) ++ [enter]
  | None =>
      exists body,
        calls_of (trace (snd r))
        = calls_of (trace st) ++ [enter] ++ body ++ [presto.Pulsed_exit]
        /\ forallb (allowed s) body = true
  end.
Proof.
  intros s r enter. subst r.
  pose proof (with_block_calls_shape sdk address port ext st) as H.
  cbv zeta in H. fold s enter in H.
  rewrite run_with_block. unfold bind.
  destruct (with_block sdk address port ext st) as [[[]|e] st1];
    cbn [fst snd] in *.
  - rewrite save_calls.
    destruct (presto.raises sdk _ _); [destruct H; discriminate | exact H].
  - destruct (presto.raises sdk _ _); [|exact H].
    destruct H as [[= ->] H]. done.
Qed.

(** X2. Whatever the instrument does, [run] opens the connection once,
    as its first call.  When that call raises, [run] raises the same
    error and calls nothing else; when it returns, the exit of the [with]
    block is the last call [run] makes, whether it returns or raises, and
    no call in between opens or closes a connection. *)
Theorem run_closes_connection sdk py address port ext st :
  let r := run sdk py address port ext st in
  let enter := presto.Pulsed_enter address port ext CONVERTER_CONFIGURATION in
  match presto.raises sdk (calls_of (trace st)) enter with
  | Some msg =>
      fst r = Raise (VendorError msg)
      /\ calls_of (trace (snd r)) = calls_of (trace st) ++ [enter]
  | None =>
      exists body,
        calls_of (trace (snd r))
        = calls_of (trace st) ++ [enter] ++ body ++ [presto.Pulsed_exit]
        /\ forallb (fun c => negb (is_connection c)) body = true
  end.
Proof.
  intros r enter.
  pose proof (run_calls_shape sdk py address port ext st) as H. cbv zeta in H.
  fold enter in H. fold r in H.
  destruct (presto.raises sdk (calls_of (trace st)) enter); [exact H|].
  destruct H as (body & Hcalls & Hall). exists body. split; [exact Hcalls|].
  revert Hall. apply forallb_impl. intros c. unfold allowed.
  by intros [? _]%andb_prop.
Qed.

(** X4. Without [jpa_params], [run] never calls [set_lmx],
    [set_dc_bias] or [sleep] on [pls.hardware] and never asks for the
    clock ([get_clk_f], [get_clk_T]), whatever the instrument does and
    whether [run] returns or raises. *)
Theorem run_without_jpa_makes_no_jpa_call sdk py address port ext st :
  jpa_params (self st) = None ->
  exists cs,
    calls_of (trace (snd (run sdk py address port ext st)))
    = calls_of (trace st) ++ cs
    /\ forallb (fun c => negb (is_jpa_call c || is_clock_query c)) cs = true.
Proof.
  intros Hjpa.
  pose proof (run_calls_shape sdk py address port ext st) as H. cbv zeta in H.
  destruct (presto.raises sdk _ _).
  - destruct H as [_ ->]. eexists. split; reflexivity.
  - destruct H as (body & -> & Hall). eexists. split; [reflexivity|].
    cbn [app forallb is_jpa_call is_clock_query orb negb andb].
    rewrite forallb_app. cbn. rewrite andb_true_r.
    revert Hall. apply forallb_impl. intros c. unfold allowed. rewrite Hjpa.
    by intros [_ ?]%andb_prop.
Qed.

Lemma run_without_jpa_makes_no_jpa_call_witness :
  exists cs,
    calls_of (trace (snd (run demo_sdk demo_py "192.168.42.50" None false
                            (demo_state 3))))
    = calls_of (trace (demo_state 3)) ++ cs
    /\ forallb (fun c => negb (is_jpa_call c || is_clock_query c)) cs = true.
Proof.
  apply (run_without_jpa_makes_no_jpa_call demo_sdk demo_py "192.168.42.50"
           None false (demo_state 3)).
  reflexivity.
Defined.

(** X3. [run] never changes a constructor parameter of the object,
    whatever the instrument does and whether [run] returns or raises: the
    only attributes it assigns are [control_freq_arr], [t_arr] and
    [store_arr]. *)
Theorem run_keeps_parameters sdk py address port ext st :
  parameters (self (snd (run sdk py address port ext st)))
  = parameters (self st).
Proof.
  set (P := fun s => parameters s = parameters (self st)).
  assert (Hfig : forall s, P s ->
            sound (fun _ => True) P (figure_out_frequencies sdk s)).
  { intros s Hs st0 HP. split; [|done].
    unfold figure_out_frequencies, get_fs, bind, lift, ret, set_self, call.
    destruct (assert _); [|done].
    destruct (presto.raises sdk _ _); [done|].
    destruct (assert _); [|done].
    destruct (presto.raises sdk _ _); [done|].
    destruct (np_linspace _ _ _); done. }
  destruct (sound_run sdk py (fun _ => True) P
              ltac:(done) ltac:(done) ltac:(done) ltac:(done) ltac:(done)
              address port ext Hfig (or_introl I) st eq_refl) as [HP _].
  exact HP.
Qed.

Lemma run_exact sdk py address port ext fname st st' :
  run sdk py address port ext st = (Ok fname, st') ->
  exists jv arr delays,
    ready sdk (self st) jv arr delays
    /\ self st' = measured sdk (self st) arr
    /\ calls_of (trace st')
       = calls_of (trace st)
         ++ run_calls sdk (self st) address port ext jv arr delays.
Proof.
  intros H. rewrite run_with_block in H.
  apply bind_Ok in H as ([] & st1 & Hblock & Hsave).
  apply with_block_exact in Hblock as (jv & arr & delays & Hready & ->).
  exists jv, arr, delays. split; [exact Hready|].
  unfold save in Hsave. apply Base_save_Ok in Hsave
    as (? & ? & ? & _ & _ & _ & _ & ->).
  cbn [self trace]. split; [reflexivity|].
  rewrite !calls_of_app, calls_of_Call. cbn. by rewrite app_nil_r.
Qed.

(** ** The order of the steps *)

Lemma calls_before_run_configuration sdk s address port ext jv arr delays :
  forallb is_configuration
    (calls_before_run sdk s address port ext jv arr delays) = true.
Proof.
  unfold calls_before_run.
  assert (H4 : forallb is_configuration
                 (concat (loop_calls s (presto.long_drive sdk)
                            (presto.template sdk) delays 0)) = true).
  { generalize (loop_calls_sequence s (presto.long_drive sdk)
                  (presto.template sdk) delays 0).
    apply forallb_impl. by intros []. }
  rewrite !forallb_app, H4. by destruct jv.
Qed.

(** C5. When [run] returns, what it did is, in this order: the calls
    that configure the instrument and place the sequence, which are the
    calls [calls_before_run] lists from the constructor parameters (the
    connection, the converters and mixers, the JPA if there is one, the
    tables, pulses and sampling window, the sequence itself and the
    queries for its period); then [pls.run]; then [pls.get_store_data],
    whose two results are [self.t_arr] and [self.store_arr]; then (after
    the calls that switch a JPA off and the end of the [with] block)
    [save], which writes the file; the value returned is the file name
    [save] returned. *)
Theorem run_order sdk py address port ext st fname st' :
  run sdk py address port ext st = (Ok fname, st') ->
  let s := self st in
  exists jv control_if_arr delays st_run,
    ready sdk s jv control_if_arr delays
    /\ trace st' =
         trace st
         ++ map Call
              (calls_before_run sdk s address port ext jv control_if_arr delays
               ++ [presto.run
                     (period sdk s jv (loop_end s delays 0 + wait_delay s))
                     (control_freq_nr s) (num_averages s) true;
                   presto.get_store_data]
               ++ from_option jpa_off_calls [] jv
               ++ [presto.Pulsed_exit])
         ++ [H5Write fname]
    /\ forallb is_configuration
         (calls_before_run sdk s address port ext jv control_if_arr delays)
       = true
    /\ forallb presto.is_hardware_call (from_option jpa_off_calls [] jv) = true
    /\ t_arr (self st') = Some (fst (presto.store_data sdk))
    /\ store_arr (self st') = Some (snd (presto.store_data sdk))
    /\ save py None st_run = (Ok fname, st')
    /\ trace st' = trace st_run ++ [H5Write fname]
    /\ is_Some (files st' !! fname).
Proof.
  intros H s. rewrite run_with_block in H.
  apply bind_Ok in H as ([] & st_run & Hblock & Hsave).
  apply with_block_exact in Hblock as (jv & arr & delays & Hready & Hrun).
  exists jv, arr, delays, st_run. split; [exact Hready|].
  pose proof Hsave as Hs. unfold save in Hs.
  apply Base_save_Ok in Hs as (cfa & ta & sa & _ & _ & _ & _ & Hst').
  split.
  { rewrite Hst', Hrun. cbn [self trace files]. by rewrite <- app_assoc. }
  split; [apply calls_before_run_configuration|].
  split; [by destruct jv|].
  split; [by rewrite Hst', Hrun|]. split; [by rewrite Hst', Hrun|].
  split; [exact Hsave|]. split; [by rewrite Hst'|].
  rewrite Hst'. cbn [files]. rewrite lookup_insert_eq. eauto.
Qed.

Lemma run_order_witness :
  let st := demo_state 3 in
  let st' := snd (run demo_sdk demo_py "192.168.42.50" None false st) in
  let s := self st in
  exists jv control_if_arr delays st_run,
    ready demo_sdk s jv control_if_arr delays
    /\ trace st' =
         trace st
         ++ map Call
              (calls_before_run demo_sdk s "192.168.42.50" None false jv
                 control_if_arr delays
               ++ [presto.run
                     (period demo_sdk s jv (loop_end s delays 0 + wait_delay s))
                     (control_freq_nr s) (num_averages s) true;
                   presto.get_store_data]
               ++ from_option jpa_off_calls [] jv
               ++ [presto.Pulsed_exit])
         ++ [H5Write "data/ramsey_chevron.h5"]
    /\ forallb is_configuration
         (calls_before_run demo_sdk s "192.168.42.50" None false jv
            control_if_arr delays)
       = true
    /\ forallb presto.is_hardware_call (from_option jpa_off_calls [] jv) = true
    /\ t_arr (self st') = Some (fst (presto.store_data demo_sdk))
    /\ store_arr (self st') = Some (snd (presto.store_data demo_sdk))
    /\ save demo_py None st_run = (Ok "data/ramsey_chevron.h5", st')
    /\ trace st' = trace st_run ++ [H5Write "data/ramsey_chevron.h5"]
    /\ is_Some (files st' !! "data/ramsey_chevron.h5").
Proof.
  apply (run_order demo_sdk demo_py "192.168.42.50" None false (demo_state 3)
           "data/ramsey_chevron.h5").
  vm_compute. reflexivity.
Defined.

(** ** The JPA *)

Lemma filter_none {A} (f : A -> bool) l :
  forallb (fun x => negb (f x)) l = true -> List.filter f l = [].
Proof.
  induction l as [|x l IH]; [done|]. cbn.
  intros [Hx Hl]%andb_prop. destruct (f x); [discriminate|]. by apply IH.
Qed.

Lemma loop_calls_no_hardware s rp cp delays T :
  forallb (fun c => negb (presto.is_hardware_call c))
    (concat (loop_calls s rp cp delays T)) = true.
Proof.
  generalize (loop_calls_sequence s rp cp delays T).
  apply forallb_impl. by intros [].
Qed.

(** X5. When [run] returns for an object with [jpa_params], it has set
    the pump and the bias of the JPA (and paused) right after configuring
    the mixers, with the five entries of [jpa_params]; no call on
    [pls.hardware] follows until [pls.run]; and right after
    [get_store_data] it has set the pump and the bias to zero, on the same
    two ports, as its last calls before the end of the [with] block. *)
Theorem run_switches_jpa_on_and_off sdk py address port ext st fname st' jpa :
  run sdk py address port ext st = (Ok fname, st') ->
  jpa_params (self st) = Some jpa ->
  let s := self st in
  let control_nco := (control_freq_center s - presto.fs sdk "dac" / 4)%Q in
  exists v mid T,
    jpa_read jpa = Some v
    /\ calls_of (trace st')
       = calls_of (trace st)
         ++ [presto.Pulsed_enter address port ext CONVERTER_CONFIGURATION;
             presto.get_fs "dac"; presto.get_fs "dac"]
         ++ hardware_calls s control_nco
         ++ jpa_on_calls v
         ++ mid
         ++ [presto.run T (control_freq_nr s) (num_averages s) true;
             presto.get_store_data]
         ++ jpa_off_calls v
         ++ [presto.Pulsed_exit]
    /\ forallb (fun c => negb (presto.is_hardware_call c)) mid = true.
Proof.
  intros H Hjpa s nco.
  apply run_exact in H as (jv & arr & delays & Hready & _ & Hcalls).
  destruct Hready as (_ & _ & _ & _ & _ & Hjv).
  unfold jpa_ready in Hjv. rewrite Hjpa in Hjv.
  destruct Hjv as (v & -> & Hv & _).
  exists v,
    (setup_calls sdk s arr
     ++ concat (loop_calls s (presto.long_drive sdk) (presto.template sdk) delays 0)
     ++ [presto.next_frequency (loop_end s delays 0) (control_port s)]
     ++ adjust_calls (Some v)),
    (period sdk s (Some v) (loop_end s delays 0 + wait_delay s)).
  split; [exact Hv|]. split.
  - rewrite Hcalls. unfold run_calls, calls_before_run, run_call. fold s.
    cbn [from_option]. rewrite <- !app_assoc. reflexivity.
  - rewrite !forallb_app, loop_calls_no_hardware. reflexivity.
Qed.

Lemma run_switches_jpa_on_and_off_witness :
  let st := demo_state_jpa in
  let st' := snd (run demo_sdk demo_py "192.168.42.50" None false st) in
  let s := self st in
  let control_nco := (control_freq_center s - presto.fs demo_sdk "dac" / 4)%Q in
  exists v mid T,
    jpa_read demo_jpa = Some v
    /\ calls_of (trace st')
       = calls_of (trace st)
         ++ [presto.Pulsed_enter "192.168.42.50" None false CONVERTER_CONFIGURATION;
             presto.get_fs "dac"; presto.get_fs "dac"]
         ++ hardware_calls s control_nco
         ++ jpa_on_calls v
         ++ mid
         ++ [presto.run T (control_freq_nr s) (num_averages s) true;
             presto.get_store_data]
         ++ jpa_off_calls v
         ++ [presto.Pulsed_exit]
    /\ forallb (fun c => negb (presto.is_hardware_call c)) mid = true.
Proof.
  apply (run_switches_jpa_on_and_off demo_sdk demo_py "192.168.42.50" None false
           demo_state_jpa "data/ramsey_chevron.h5").
  - vm_compute. reflexivity.
  - reflexivity.
Defined.

Lemma filter_calls_before_run sdk s address port ext jv arr delays :
  List.filter is_jpa_call
    (calls_before_run sdk s address port ext jv arr delays)
  = from_option jpa_on_calls [] jv.
Proof.
  unfold calls_before_run. rewrite !List.filter_app.
  rewrite (filter_none is_jpa_call (concat _)).
  2:{ generalize (loop_calls_sequence s (presto.long_drive sdk)
                    (presto.template sdk) delays 0).
      apply forallb_impl. by intros []. }
  destruct jv as [v|]; cbn; reflexivity.
Qed.

Lemma run_experiment_run_raises sdk msg s T st :
  (forall h c, is_run c = true -> presto.raises sdk h c = Some msg) ->
  run_experiment sdk s T st
  = (Raise (VendorError msg),
     log (Call (presto.run T (control_freq_nr s) (num_averages s) true)) st).
Proof.
  intros Hrun. unfold run_experiment, bind, call.
  by rewrite Hrun.
Qed.

(** X6. The JPA is switched off only when [pls.run] and
    [get_store_data] return.  On an instrument that answers every call
    but [pls.run], for an object with [jpa_params] that is otherwise fit
    to run, [run] raises the error of [pls.run] after closing the
    connection; the pump and the bias have been set, and the calls that
    set them to zero are never made.  [t_arr] and [store_arr] are left as
    they were. *)
Theorem run_leaves_jpa_on_when_run_raises sdk py address port ext st v arr
    delays msg :
  let s := self st in
  let r := run sdk py address port ext st in
  quiet_until_run sdk ->
  (forall h c, is_run c = true -> presto.raises sdk h c = Some msg) ->
  ready sdk s (Some v) arr delays ->
  fst r = Raise (VendorError msg)
  /\ (exists cs,
        calls_of (trace (snd r)) = calls_of (trace st) ++ cs
        /\ cs = calls_before_run sdk s address port ext (Some v) arr delays
                ++ [run_call sdk s (Some v) delays; presto.Pulsed_exit]
        /\ List.filter is_jpa_call cs = jpa_on_calls v)
  /\ t_arr (self (snd r)) = t_arr s
  /\ store_arr (self (snd r)) = store_arr s.
Proof.
  intros s r Hq Hrun Hready.
  assert (Hr : r = (Raise (VendorError msg),
                    logs (map Call [run_call sdk s (Some v) delays;
                                    presto.Pulsed_exit])
                      (swept sdk st arr
                         (calls_before_run sdk s address port ext (Some v)
                            arr delays)))).
  { subst r. rewrite run_with_block. unfold bind.
    rewrite (with_block_before_run sdk Hq address port ext (Some v) arr delays
               st Hready).
    fold s. rewrite (run_experiment_run_raises sdk msg) by exact Hrun.
    unfold closing. cbn [fst snd].
    rewrite (call_good sdk Hq) by reflexivity.
    unfold logs, log, run_call. cbn [self trace files map].
    rewrite <- !app_assoc. reflexivity. }
  rewrite Hr. cbn [fst snd].
  split; [reflexivity|]. split; [|split; reflexivity].
  eexists. split; [|split; [reflexivity|]].
  - unfold logs, swept. cbn [trace]. rewrite !calls_of_app, !calls_of_Call.
    rewrite <- !app_assoc. reflexivity.
  - rewrite List.filter_app, filter_calls_before_run.
    cbn [from_option List.filter run_call is_jpa_call]. apply app_nil_r.
Qed.

Lemma demo_ready sdk :
  presto.hardware sdk = true ->
  presto.fs sdk = (fun _ => 10%Q) ->
  presto.clk_f sdk = 1000%Q ->
  ready sdk (self demo_state_jpa) (Some demo_jpa_values) demo_if_arr
    [0%Q; 1 # 2].
Proof.
  intros Hhw Hfs Hclk. unfold ready, jpa_ready, idler_period_clk.
  rewrite Hfs, Hclk.
  split; [exact Hhw|]. split; [reflexivity|]. split; [reflexivity|].
  split; [vm_compute; reflexivity|]. split; [reflexivity|].
  exists demo_jpa_values. split; [reflexivity|].
  split; [vm_compute; reflexivity|]. split.
  - intros H. vm_compute in H. discriminate.
  - vm_compute. discriminate.
Qed.

Lemma run_leaves_jpa_on_when_run_raises_witness :
  let st := demo_state_jpa in
  let s := self st in
  let r := run demo_sdk_run_fails demo_py "192.168.42.50" None false st in
  fst r = Raise (VendorError "timeout")
  /\ (exists cs,
        calls_of (trace (snd r)) = calls_of (trace st) ++ cs
        /\ cs = calls_before_run demo_sdk_run_fails s "192.168.42.50" None false
                  (Some demo_jpa_values) demo_if_arr [0%Q; 1 # 2]
                ++ [run_call demo_sdk_run_fails s (Some demo_jpa_values)
                      [0%Q; 1 # 2];
                    presto.Pulsed_exit]
        /\ List.filter is_jpa_call cs = jpa_on_calls demo_jpa_values)
  /\ t_arr (self (snd r)) = t_arr s
  /\ store_arr (self (snd r)) = store_arr s.
Proof.
  apply (run_leaves_jpa_on_when_run_raises demo_sdk_run_fails demo_py
           "192.168.42.50" None false demo_state_jpa demo_jpa_values
           demo_if_arr [0%Q; 1 # 2] "timeout").
  - intros h c Hc. cbn. by rewrite Hc.
  - intros h c Hc. cbn. by rewrite Hc.
  - by apply demo_ready.
Defined.

(** ** The period with a JPA *)

Lemma py_round_nonneg x : (0 <= x)%Q -> (0 <= py_round x)%Z.
Proof.
  intros Hx. unfold py_round.
  assert (Hf : (0 <= Qfloor x)%Z).
  { change 0%Z with (Qfloor 0). by apply Qfloor_resp_le. }
  destruct (_ ?= _)%Q; [destruct (Z.even _)| |]; lia.
Qed.

Lemma adjusted_multiple (T_clk p : Z) :
  (0 < p)%Z ->
  exists k,
    (if (0 <? T_clk mod p)%Z then T_clk + (p - T_clk mod p) else T_clk)%Z
    = (k * p)%Z
    /\ (T_clk <= k * p < T_clk + p)%Z.
Proof.
  intros Hp.
  pose proof (Z.mod_pos_bound T_clk p Hp) as Hmod.
  pose proof (Z.div_mod T_clk p ltac:(lia)) as Hdiv.
  destruct (Z.ltb_spec 0 (T_clk mod p)).
  - exists (T_clk / p + 1)%Z. split; nia.
  - exists (T_clk / p)%Z. split; nia.
Qed.

Lemma idler_period_clk_pos sdk s v :
  (0 < presto.clk_f sdk)%Q ->
  idler_period_clk sdk s v <> 0%Z ->
  (0 < idler_period_clk sdk s v)%Z.
Proof.
  intros Hclk Hne.
  assert (H0 : (0 <= idler_period_clk sdk s v)%Z).
  { unfold idler_period_clk. apply py_round_nonneg.
    apply Qmult_le_0_compat; [|lra].
    unfold Qdiv. rewrite Qmult_1_l. apply Qinv_le_0_compat.
    unfold idler_if. apply Qabs_nonneg. }
  lia.
Qed.

Lemma run_calls_one_run sdk s address port ext jv arr delays :
  forallb (fun c => negb (is_run c))
    (calls_before_run sdk s address port ext jv arr delays) = true
  /\ forallb (fun c => negb (is_run c))
       ([presto.get_store_data] ++ from_option jpa_off_calls [] jv
        ++ [presto.Pulsed_exit]) = true.
Proof.
  split.
  - unfold calls_before_run. rewrite !forallb_app.
    assert (Hloop : forallb (fun c => negb (is_run c))
                      (concat (loop_calls s (presto.long_drive sdk)
                                 (presto.template sdk) delays 0)) = true).
    { generalize (loop_calls_sequence s (presto.long_drive sdk)
                    (presto.template sdk) delays 0).
      apply forallb_impl. by intros []. }
    rewrite Hloop. by destruct jv.
  - by destruct jv.
Qed.

(** X7. When [run] returns for an object with [jpa_params], on an
    instrument whose clock frequency is positive, the period passed to
    [pls.run], which [run] calls once, is [(k * p + 1) * clk_T], where [p]
    is the idler period [1 / |pump_freq - 2 * readout_freq|] in clock
    cycles (rounded, and at least 1) and [k * p] is the least multiple of
    [p] that is not below the length of the sequence in clock cycles
    (rounded): one clock cycle past a whole number of idler periods. *)
Theorem run_period_with_jpa sdk py address port ext st fname st' jpa :
  run sdk py address port ext st = (Ok fname, st') ->
  jpa_params (self st) = Some jpa ->
  (0 < presto.clk_f sdk)%Q ->
  let s := self st in
  exists v delays k pre post,
    jpa_read jpa = Some v
    /\ iter_numbers (delay_arr s) = Ok delays
    /\ let p := py_round (1 / Qabs (pump_freq v - readout_freq s - readout_freq s)
                          * presto.clk_f sdk) in
       let T_clk := py_round ((loop_end s delays 0 + wait_delay s)
                              * presto.clk_f sdk) in
       (0 < p)%Z
       /\ (T_clk <= k * p < T_clk + p)%Z
       /\ calls_of (trace st')
          = calls_of (trace st) ++ pre
            ++ [presto.run (inject_Z (k * p + 1) * presto.clk_T sdk)
                  (control_freq_nr s) (num_averages s) true]
            ++ post
       /\ forallb (fun c => negb (is_run c)) (pre ++ post) = true.
Proof.
  intros H Hjpa Hclk s.
  apply run_exact in H as (jv & arr & delays & Hready & _ & Hcalls).
  destruct Hready as (_ & _ & _ & _ & Hd & Hjv).
  unfold jpa_ready in Hjv. rewrite Hjpa in Hjv.
  destruct Hjv as (v & -> & Hv & _ & Hp).
  pose proof (idler_period_clk_pos sdk s v Hclk Hp) as Hpos.
  destruct (adjusted_multiple
              (py_round ((loop_end s delays 0 + wait_delay s) * presto.clk_f sdk))
              (idler_period_clk sdk s v) Hpos) as (k & Hk & Hbounds).
  destruct (run_calls_one_run sdk s address port ext (Some v) arr delays)
    as [Hpre Hpost].
  exists v, delays, k,
    (calls_before_run sdk s address port ext (Some v) arr delays),
    ([presto.get_store_data] ++ from_option jpa_off_calls [] (Some v)
     ++ [presto.Pulsed_exit]).
  split; [exact Hv|]. split; [exact Hd|].
  fold (idler_if s v). fold (idler_period_clk sdk s v). cbv zeta.
  split; [exact Hpos|]. split; [exact Hbounds|]. split.
  - rewrite Hcalls. unfold run_calls, run_call, period, adjusted_clk.
    fold s. rewrite Hk. reflexivity.
  - rewrite forallb_app, Hpre, Hpost. reflexivity.
Qed.

Lemma run_period_with_jpa_witness :
  let st := demo_state_jpa in
  let st' := snd (run demo_sdk demo_py "192.168.42.50" None false st) in
  let s := self st in
  exists v delays k pre post,
    jpa_read demo_jpa = Some v
    /\ iter_numbers (delay_arr s) = Ok delays
    /\ let p := py_round (1 / Qabs (pump_freq v - readout_freq s - readout_freq s)
                          * presto.clk_f demo_sdk) in
       let T_clk := py_round ((loop_end s delays 0 + wait_delay s)
                              * presto.clk_f demo_sdk) in
       (0 < p)%Z
       /\ (T_clk <= k * p < T_clk + p)%Z
       /\ calls_of (trace st')
          = calls_of (trace st) ++ pre
            ++ [presto.run (inject_Z (k * p + 1) * presto.clk_T demo_sdk)
                  (control_freq_nr s) (num_averages s) true]
            ++ post
       /\ forallb (fun c => negb (is_run c)) (pre ++ post) = true.
Proof.
  apply (run_period_with_jpa demo_sdk demo_py "192.168.42.50" None false
           demo_state_jpa "data/ramsey_chevron.h5").
  - vm_compute. reflexivity.
  - reflexivity.
  - reflexivity.
Defined.

(** In the example the sequence lasts 23.5, that is 23500 clock cycles,
    and the idler period is 333 clock cycles: the period is
    [71 * 333 + 1 = 23644] clock cycles. *)
Example run_period_with_jpa_demo :
  exists pre post,
    calls_of (trace (snd (run demo_sdk demo_py "192.168.42.50" None false
                            demo_state_jpa)))
    = pre ++ [presto.run (inject_Z 23644 * (1 # 1000)) 3 10 true] ++ post.
Proof.
  eexists (calls_before_run demo_sdk (self demo_state_jpa) "192.168.42.50" None
             false (Some demo_jpa_values) demo_if_arr [0%Q; 1 # 2]), _.
  vm_compute. reflexivity.
Qed.

Section Failing.

Variable sdk : presto.Presto.
Hypothesis Hq : quiet_until_run sdk.

Lemma adjust_period_zero s v T st :
  jpa_present s (Some v) ->
  ~ idler_if s v == 0 ->
  idler_period_clk sdk s v = 0%Z ->
  adjust_period sdk s T st
  = (Raise ZeroDivisionError,
     logs (map Call [presto.get_clk_f; presto.get_clk_f]) st).
Proof.
  unfold jpa_present, adjust_period. destruct (jpa_params s) as [jpa|]; [|done].
  intros (v' & [= <-] & Hv) Hif Hp.
  apply jpa_read_Some in Hv as (H1 & _).
  unfold getkey. rewrite H1. rewrite bind_lift_Ok.
  unfold idler_period_clk, idler_if in *.
  destruct (Qeqb _ _) eqn:Hif'; [apply Qeqb_true in Hif'; contradiction|].
  rewrite bind_ret_l. unfold get_clk_f.
  rewrite !(bind_query_good sdk Hq) by reflexivity.
  rewrite Hp. cbn [Z.eqb]. unfold bind, raise. by rewrite logs_calls.
Qed.

Lemma configure_hardware_missing s nco jpa k st :
  jpa_params s = Some jpa ->
  first_missing jpa = Some k ->
  configure_hardware sdk s nco st
  = (Raise (KeyError k),
     logs (map Call (hardware_calls s nco ++ pump_calls jpa)) st).
Proof.
  intros Hjpa Hk. unfold configure_hardware.
  rewrite !(bind_call_good sdk Hq) by reflexivity.
  rewrite Hjpa. unfold first_missing, jpa_keys in Hk. cbn [List.find] in Hk.
  unfold pump_calls, getkey.
  destruct (jpa !! "pump_freq") as [pf|].
  2:{ injection Hk as <-. rewrite !logs_calls. reflexivity. }
  rewrite bind_lift_Ok.
  destruct (jpa !! "pump_pwr") as [pp|].
  2:{ injection Hk as <-. rewrite !logs_calls. reflexivity. }
  rewrite bind_lift_Ok.
  destruct (jpa !! "pump_port") as [pport|].
  2:{ injection Hk as <-. rewrite !logs_calls. reflexivity. }
  rewrite bind_lift_Ok. rewrite (bind_call_good sdk Hq) by reflexivity.
  destruct (jpa !! "bias") as [b|].
  2:{ injection Hk as <-. rewrite !logs_calls. reflexivity. }
  rewrite bind_lift_Ok.
  destruct (jpa !! "bias_port") as [bp|]; [discriminate|].
  injection Hk as <-. rewrite !logs_calls. reflexivity.
Qed.

End Failing.

(** X8. An idler period that rounds to zero clock cycles stops [run]: on
    an instrument that answers every call before [pls.run], for an object
    that is otherwise fit to run and whose [jpa_params] puts the idler
    away from zero, [run] raises [ZeroDivisionError] when
    [1 / |pump_freq - 2 * readout_freq|] times the clock frequency rounds
    to 0.  The sequence has been programmed and the clock asked for twice;
    [pls.run] is not called, and the pump and the bias, which have been
    set, are not set back to zero. *)
Theorem run_idler_period_rounds_to_zero sdk py address port ext st v arr
    delays :
  let s := self st in
  let fs_dac := presto.fs sdk "dac" in
  let r := run sdk py address port ext st in
  quiet_until_run sdk ->
  presto.hardware sdk = true ->
  (control_freq_span s / 2 < control_freq_center s)%Q ->
  (control_freq_span s < fs_dac / 2)%Q ->
  np_linspace (fs_dac / 4 - control_freq_span s / 2)
    (fs_dac / 4 + control_freq_span s / 2) (control_freq_nr s) = Ok arr ->
  iter_numbers (delay_arr s) = Ok delays ->
  jpa_present s (Some v) ->
  ~ Qabs (pump_freq v - readout_freq s - readout_freq s) == 0 ->
  py_round (1 / Qabs (pump_freq v - readout_freq s - readout_freq s)
            * presto.clk_f sdk) = 0%Z ->
  fst r = Raise ZeroDivisionError
  /\ calls_of (trace (snd r))
     = calls_of (trace st)
       ++ [presto.Pulsed_enter address port ext CONVERTER_CONFIGURATION;
           presto.get_fs "dac"; presto.get_fs "dac"]
       ++ hardware_calls s (control_freq_center s - fs_dac / 4)
       ++ jpa_on_calls v
       ++ setup_calls sdk s arr
       ++ concat (loop_calls s (presto.long_drive sdk) (presto.template sdk)
                    delays 0)
       ++ [presto.next_frequency (loop_end s delays 0) (control_port s);
           presto.get_clk_f; presto.get_clk_f; presto.Pulsed_exit].
Proof.
  intros s fs_dac r Hq Hhw Hc Hs Harr Hd Hjv Hif Hp.
  assert (Hr : exists st2,
             r = (Raise ZeroDivisionError, st2)
             /\ trace st2
                = trace st
                  ++ map Call
                       ([presto.Pulsed_enter address port ext CONVERTER_CONFIGURATION;
                         presto.get_fs "dac"; presto.get_fs "dac"]
                        ++ hardware_calls s (control_freq_center s - fs_dac / 4)
                        ++ jpa_on_calls v
                        ++ setup_calls sdk s arr
                        ++ concat (loop_calls s (presto.long_drive sdk)
                                     (presto.template sdk) delays 0)
                        ++ [presto.next_frequency (loop_end s delays 0)
                              (control_port s);
                            presto.get_clk_f; presto.get_clk_f;
                            presto.Pulsed_exit])).
  { subst r. rewrite run_with_block. unfold bind at 1.
    rewrite (with_block_frequencies sdk Hq address port ext arr) by done.
    fold s. fold fs_dac.
    rewrite (measure_before_adjust sdk Hq s arr _ (Some v) delays) by done.
    unfold bind at 1. rewrite (adjust_period_zero sdk Hq s v) by done.
    unfold closing. cbn [fst snd]. rewrite (call_good sdk Hq) by reflexivity.
    eexists. split; [reflexivity|].
    unfold logs, swept. cbn [trace from_option].
    rewrite <- !app_assoc, !map_app, <- !app_assoc. reflexivity. }
  destruct Hr as (st2 & -> & Htrace). cbn [fst snd].
  split; [reflexivity|].
  rewrite Htrace, calls_of_app, calls_of_Call. reflexivity.
Qed.

Lemma run_idler_period_rounds_to_zero_witness :
  let st := {| self := with_jpa demo_jpa_fast (demo_self 3);
               trace := []; files := ∅ |} in
  let s := self st in
  let v := {| pump_freq := 4012; pump_pwr := 3; pump_port := 4;
              bias := 1 # 2; bias_port := 1 |} in
  let r := run demo_sdk demo_py "192.168.42.50" None false st in
  fst r = Raise ZeroDivisionError
  /\ calls_of (trace (snd r))
     = calls_of (trace st)
       ++ [presto.Pulsed_enter "192.168.42.50" None false CONVERTER_CONFIGURATION;
           presto.get_fs "dac"; presto.get_fs "dac"]
       ++ hardware_calls s (control_freq_center s - presto.fs demo_sdk "dac" / 4)
       ++ jpa_on_calls v
       ++ setup_calls demo_sdk s demo_if_arr
       ++ concat (loop_calls s (presto.long_drive demo_sdk)
                    (presto.template demo_sdk) [0%Q; 1 # 2] 0)
       ++ [presto.next_frequency (loop_end s [0%Q; 1 # 2] 0) (control_port s);
           presto.get_clk_f; presto.get_clk_f; presto.Pulsed_exit].
Proof.
  apply (run_idler_period_rounds_to_zero demo_sdk demo_py "192.168.42.50" None
           false
           {| self := with_jpa demo_jpa_fast (demo_self 3);
              trace := []; files := ∅ |}
           {| pump_freq := 4012; pump_pwr := 3; pump_port := 4;
              bias := 1 # 2; bias_port := 1 |}
           demo_if_arr [0%Q; 1 # 2]).
  - intros h c _. reflexivity.
  - reflexivity.
  - reflexivity.
  - reflexivity.
  - vm_compute. reflexivity.
  - reflexivity.
  - eexists. split; [reflexivity|]. vm_compute. reflexivity.
  - intros H. vm_compute in H. discriminate.
  - vm_compute. reflexivity.
Defined.

(** X9. A missing entry of [jpa_params] stops [run] with [KeyError]: on
    an instrument that answers every call before [pls.run], with
    [pls.hardware] set and the frequencies accepted, [run] raises
    [KeyError] for the first of [pump_freq], [pump_pwr], [pump_port],
    [bias], [bias_port] that [jpa_params] lacks.  Converters and mixers
    have been configured; when the three entries of the pump are there
    (so that [bias] or [bias_port] is the one missing) the pump has been
    set as well; the connection is closed and nothing else is called. *)
Theorem run_missing_jpa_entry sdk py address port ext st jpa k :
  let s := self st in
  let fs_dac := presto.fs sdk "dac" in
  let r := run sdk py address port ext st in
  quiet_until_run sdk ->
  presto.hardware sdk = true ->
  (control_freq_span s / 2 < control_freq_center s)%Q ->
  (control_freq_span s < fs_dac / 2)%Q ->
  (0 <= control_freq_nr s)%Z ->
  jpa_params s = Some jpa ->
  first_missing jpa = Some k ->
  fst r = Raise (KeyError k)
  /\ calls_of (trace (snd r))
     = calls_of (trace st)
       ++ [presto.Pulsed_enter address port ext CONVERTER_CONFIGURATION;
           presto.get_fs "dac"; presto.get_fs "dac"]
       ++ hardware_calls s (control_freq_center s - fs_dac / 4)
       ++ pump_calls jpa
       ++ [presto.Pulsed_exit].
Proof.
  intros s fs_dac r Hq Hhw Hc Hs Hnr Hjpa Hk.
  destruct (np_linspace_nonneg (fs_dac / 4 - control_freq_span s / 2)
              (fs_dac / 4 + control_freq_span s / 2) (control_freq_nr s) Hnr)
    as [arr Harr].
  assert (Hr : exists st2,
             r = (Raise (KeyError k), st2)
             /\ trace st2
                = trace st
                  ++ map Call
                       ([presto.Pulsed_enter address port ext CONVERTER_CONFIGURATION;
                         presto.get_fs "dac"; presto.get_fs "dac"]
                        ++ hardware_calls s (control_freq_center s - fs_dac / 4)
                        ++ pump_calls jpa
                        ++ [presto.Pulsed_exit])).
  { subst r. rewrite run_with_block. unfold bind at 1.
    rewrite (with_block_frequencies sdk Hq address port ext arr) by done.
    fold s. fold fs_dac. unfold measure. unfold bind at 1.
    rewrite (configure_hardware_missing sdk Hq s _ jpa k) by done.
    unfold closing. cbn [fst snd]. rewrite (call_good sdk Hq) by reflexivity.
    eexists. split; [reflexivity|].
    unfold logs, swept. cbn [trace].
    rewrite <- !app_assoc, !map_app, <- !app_assoc. reflexivity. }
  destruct Hr as (st2 & -> & Htrace). cbn [fst snd].
  split; [reflexivity|].
  rewrite Htrace, calls_of_app, calls_of_Call. reflexivity.
Qed.

Lemma run_missing_jpa_entry_witness :
  let st := {| self := with_jpa demo_jpa_no_bias (demo_self 3);
               trace := []; files := ∅ |} in
  let s := self st in
  let r := run demo_sdk demo_py "192.168.42.50" None false st in
  fst r = Raise (KeyError "bias")
  /\ calls_of (trace (snd r))
     = calls_of (trace st)
       ++ [presto.Pulsed_enter "192.168.42.50" None false CONVERTER_CONFIGURATION;
           presto.get_fs "dac"; presto.get_fs "dac"]
       ++ hardware_calls s (control_freq_center s - presto.fs demo_sdk "dac" / 4)
       ++ pump_calls demo_jpa_no_bias
       ++ [presto.Pulsed_exit].
Proof.
  apply (run_missing_jpa_entry demo_sdk demo_py "192.168.42.50" None false
           {| self := with_jpa demo_jpa_no_bias (demo_self 3);
              trace := []; files := ∅ |}
           demo_jpa_no_bias "bias").
  - intros h c _. reflexivity.
  - reflexivity.
  - reflexivity.
  - reflexivity.
  - cbn. lia.
  - reflexivity.
  - vm_compute. reflexivity.
Defined.

(** ** The sequence in time *)

Lemma iter_numbers_Ok {A} (a : ndarray A) l :
  iter_numbers a = Ok l -> l = data a \/ l = [].
Proof.
  unfold iter_numbers.
  destruct (shape a) as [|[|n] [|m sh]]; intros [= <-]; auto.
Qed.

Lemma loop_times s rp cp delays T :
  (0 <= control_duration s)%Q -> (0 <= readout_duration s)%Q ->
  (0 <= wait_delay s)%Q -> Forall (fun d => (0 <= d)%Q) delays ->
  let ts := omap pulse_time (concat (loop_calls s rp cp delays T))
            ++ [loop_end s delays T] in
  StronglySorted Qle ts /\ Forall (Qle T) ts.
Proof.
  intros Hcd Hrd Hwd Hds. revert T.
  induction Hds as [|d ds Hd Hds IH]; intros T; cbn [loop_calls concat loop_end].
  - cbn. split; [repeat constructor | repeat constructor; apply Qle_refl].
  - destruct (IH (iteration_end s T d)) as [Hsorted Hall].
    set (ts' := omap pulse_time _ ++ [loop_end s ds _]) in *.
    rewrite omap_app. cbn [iteration_calls omap pulse_time].
    rewrite <- app_assoc. fold ts'.
    set (t2 := (T + control_duration s + d)%Q).
    set (t3 := (t2 + control_duration s)%Q).
    assert (H2 : (T <= t2)%Q) by (unfold t2; lra).
    assert (H3 : (t2 <= t3)%Q) by (unfold t3; lra).
    assert (H4 : (t3 <= iteration_end s T d)%Q).
    { unfold iteration_end, t3, t2. lra. }
    assert (Hall3 : Forall (Qle t3) ts').
    { eapply Forall_impl; [exact Hall|]. intros t Ht. cbn in Ht. lra. }
    assert (Hall2 : Forall (Qle t2) ts').
    { eapply Forall_impl; [exact Hall3|]. intros t Ht. cbn in Ht. lra. }
    assert (HallT : Forall (Qle T) ts').
    { eapply Forall_impl; [exact Hall2|]. intros t Ht. cbn in Ht. lra. }
    cbn [app mbind option_bind]. split.
    + repeat (constructor; [|repeat (constructor; [lra|]); try assumption]).
      exact Hsorted.
    + repeat (constructor; [lra|]). exact HallT.
Qed.

Lemma sorted_below_last l x :
  StronglySorted Qle (l ++ [x]) -> Forall (fun t => (t <= x)%Q) l.
Proof.
  induction l as [|a l IH]; cbn; [constructor|].
  intros H. apply StronglySorted_inv in H as [Hs Hall].
  constructor; [|by apply IH].
  apply Forall_app in Hall as [_ Hx]. by apply Forall_inv in Hx.
Qed.

Lemma omap_pulse_time_none l :
  forallb (fun c => negb (presto.is_sequence_call c)) l = true ->
  omap pulse_time l = [].
Proof.
  induction l as [|c l IH]; [done|]. cbn [forallb].
  intros [Hc Hl]%andb_prop. specialize (IH Hl).
  destruct c; try discriminate; cbn; exact IH.
Qed.

(** X10. With non-negative durations and delays, a [run] that returns
    has placed the pulses in the order of time: the times at which it
    outputs a pulse, resets a phase and steps the frequency never
    decrease from one call to the next, all lie between 0 and the time
    [T_end] of the final [next_frequency], and, without [jpa_params], the
    period passed to [pls.run] is [T_end + wait_delay]. *)
Theorem run_sequence_in_time_order sdk py address port ext st fname st' :
  let s := self st in
  run sdk py address port ext st = (Ok fname, st') ->
  (0 <= control_duration s)%Q ->
  (0 <= readout_duration s)%Q ->
  (0 <= wait_delay s)%Q ->
  Forall (fun d => (0 <= d)%Q) (data (delay_arr s)) ->
  exists cs T_end,
    calls_of (trace st') = calls_of (trace st) ++ cs
    /\ StronglySorted Qle (omap pulse_time cs)
    /\ Forall (fun t => (0 <= t)%Q /\ (t <= T_end)%Q) (omap pulse_time cs)
    /\ last (omap pulse_time cs) = Some T_end
    /\ In (presto.next_frequency T_end (control_port s)) cs
    /\ (jpa_params s = None ->
        In (presto.run (T_end + wait_delay s) (control_freq_nr s)
              (num_averages s) true) cs).
Proof.
  intros s H Hcd Hrd Hwd Hdelays.
  apply run_exact in H as (jv & arr & delays & Hready & _ & Hcalls).
  destruct Hready as (_ & _ & _ & _ & Hd & Hjv). fold s in Hd, Hjv, Hcalls.
  assert (Hds : Forall (fun d => (0 <= d)%Q) delays).
  { apply iter_numbers_Ok in Hd as [-> | ->]; [exact Hdelays | constructor]. }
  destruct (loop_times s (presto.long_drive sdk) (presto.template sdk) delays 0
              Hcd Hrd Hwd Hds) as [Hsorted Hall].
  set (loop := concat (loop_calls s (presto.long_drive sdk)
                         (presto.template sdk) delays 0)) in *.
  assert (Htimes : omap pulse_time (run_calls sdk s address port ext jv arr delays)
                   = omap pulse_time loop ++ [loop_end s delays 0]).
  { unfold run_calls, calls_before_run, run_call. fold loop.
    rewrite !omap_app.
    rewrite (omap_pulse_time_none (from_option jpa_on_calls [] jv))
      by (by destruct jv).
    rewrite (omap_pulse_time_none (from_option jpa_off_calls [] jv))
      by (by destruct jv).
    rewrite (omap_pulse_time_none (adjust_calls jv)) by (by destruct jv).
    cbn. by rewrite app_nil_r. }
  exists (run_calls sdk s address port ext jv arr delays), (loop_end s delays 0).
  split; [exact Hcalls|]. rewrite Htimes.
  split; [exact Hsorted|]. split; [|split; [|split]].
  - apply Forall_forall. intros t Ht. split.
    + rewrite Forall_forall in Hall. by apply Hall.
    + apply elem_of_app in Ht as [Ht|Ht].
      * apply sorted_below_last in Hsorted. rewrite Forall_forall in Hsorted.
        by apply Hsorted.
      * apply list_elem_of_singleton in Ht as ->. apply Qle_refl.
  - by rewrite last_snoc.
  - unfold run_calls, calls_before_run. rewrite !in_app_iff. cbn. tauto.
  - intros HN. unfold jpa_ready in Hjv. rewrite HN in Hjv. subst jv.
    unfold run_calls, run_call, period. rewrite !in_app_iff. cbn. tauto.
Qed.

Lemma run_sequence_in_time_order_witness :
  let st := demo_state 3 in
  let st' := snd (run demo_sdk demo_py "192.168.42.50" None false st) in
  let s := self st in
  exists cs T_end,
    calls_of (trace st') = calls_of (trace st) ++ cs
    /\ StronglySorted Qle (omap pulse_time cs)
    /\ Forall (fun t => (0 <= t)%Q /\ (t <= T_end)%Q) (omap pulse_time cs)
    /\ last (omap pulse_time cs) = Some T_end
    /\ In (presto.next_frequency T_end (control_port s)) cs
    /\ (jpa_params s = None ->
        In (presto.run (T_end + wait_delay s) (control_freq_nr s)
              (num_averages s) true) cs).
Proof.
  apply (run_sequence_in_time_order demo_sdk demo_py "192.168.42.50" None false
           (demo_state 3) "data/ramsey_chevron.h5").
  - vm_compute. reflexivity.
  - cbn. lra.
  - cbn. lra.
  - cbn. lra.
  - repeat constructor; cbn; lra.
Defined.

(** ** The frequencies on the instrument *)

(** Linear arithmetic with halves and quarters. *)
Ltac qlra :=
  unfold Qdiv in *;
  change (/ 2)%Q with (1 # 2)%Q in *;
  change (/ 4)%Q with (1 # 4)%Q in *;
  lra.

Lemma np_linspace_bounds start stop num arr :
  (start <= stop)%Q ->
  np_linspace start stop num = Ok arr ->
  length arr = Z.to_nat num
  /\ Forall (fun f => (start <= f)%Q /\ (f <= stop)%Q) arr.
Proof.
  intros Hle H. apply np_linspace_Ok in H as [Hnum ->]. cbv zeta.
  set (step := ((stop - start) / inject_Z (num - 1))%Q).
  set (y := map (fun i : nat => (inject_Z (Z.of_nat i) * step + start)%Q)
              (seq 0 (Z.to_nat num))).
  assert (Hlen : length y = Z.to_nat num).
  { unfold y. by rewrite length_map, length_seq. }
  assert (Hy : Forall (fun f => (start <= f)%Q /\ (f <= stop)%Q) y).
  { unfold y. apply Forall_fmap, Forall_forall. intros i Hi.
    apply elem_of_seq in Hi. cbn.
    destruct (Z.ltb_spec 1 num) as [H1|H1].
    - assert (Hm : (0 < inject_Z (num - 1))%Q).
      { unfold Qlt. cbn. lia. }
      assert (Hstep : (0 <= step)%Q).
      { unfold step. apply Qle_shift_div_l; [exact Hm|]. lra. }
      assert (Hi' : (inject_Z (Z.of_nat i) <= inject_Z (num - 1))%Q).
      { rewrite <- Zle_Qle. lia. }
      assert (H0 : (0 <= inject_Z (Z.of_nat i))%Q).
      { change 0%Q with (inject_Z 0). rewrite <- Zle_Qle. lia. }
      assert (Hfull : (inject_Z (num - 1) * step == stop - start)%Q).
      { unfold step. field. lra. }
      pose proof (Qmult_le_compat_r _ _ step Hi' Hstep) as Hup.
      pose proof (Qmult_le_0_compat _ _ H0 Hstep) as Hlow.
      split; lra.
    - assert (i = 0%nat) as -> by lia.
      change (inject_Z (Z.of_nat 0)) with 0%Q. split; lra. }
  destruct (Z.ltb_spec 1 num).
  - rewrite length_insert. split; [exact Hlen|].
    apply Forall_insert; [exact Hy|]. split; [exact Hle | apply Qle_refl].
  - done.
Qed.

(** X11. When [run] returns for a non-negative [control_freq_span], the
    frequencies it has programmed agree with the ones it records, and
    they fit: the mixer of the control port is set to
    [control_nco = control_freq_center - fs_dac / 4]; the frequency table
    of the control port holds [control_freq_nr] intermediate frequencies,
    each strictly between 0 and [fs_dac / 2], with as many phases (0, and
    [-pi / 2] for the quadrature); and [control_freq_arr] is
    [control_nco] plus that table, every entry positive and within
    [control_freq_span / 2] of [control_freq_center]. *)
Theorem run_frequencies_in_band sdk py address port ext st fname st' :
  let s := self st in
  let fs_dac := presto.fs sdk "dac" in
  let control_nco := (control_freq_center s - fs_dac / 4)%Q in
  run sdk py address port ext st = (Ok fname, st') ->
  (0 <= control_freq_span s)%Q ->
  exists control_if_arr,
    control_freq_arr (self st')
    = Some (array1 (map (fun f => (control_nco + f)%Q) control_if_arr))
    /\ length control_if_arr = Z.to_nat (control_freq_nr s)
    /\ In (presto.hardware_configure_mixer control_nco None (control_port s) true)
         (calls_of (trace st'))
    /\ In (presto.setup_freq_lut (control_port s) 0 (presto.many control_if_arr)
             (presto.many (repeat (presto.pi_times 0) (length control_if_arr)))
             (presto.many (repeat (presto.pi_times (- (1 # 2)))
                             (length control_if_arr))))
         (calls_of (trace st'))
    /\ Forall (fun f => (0 < f)%Q /\ (f < fs_dac / 2)%Q) control_if_arr
    /\ Forall (fun f => (0 < f)%Q
                        /\ (control_freq_center s - control_freq_span s / 2 <= f)%Q
                        /\ (f <= control_freq_center s + control_freq_span s / 2)%Q)
         (map (fun f => (control_nco + f)%Q) control_if_arr).
Proof.
  intros s fs_dac nco H Hspan.
  apply run_exact in H as (jv & arr & delays & Hready & Hself & Hcalls).
  destruct Hready as (_ & Hc & Hs & Harr & _ & _).
  fold s fs_dac in Hc, Hs, Harr.
  apply np_linspace_bounds in Harr as [Hlen Hall].
  2:{ clear -Hspan. clearbody fs_dac s. qlra. }
  exists arr. split; [by rewrite Hself|]. split; [exact Hlen|].
  split; [|split; [|split]].
  - rewrite Hcalls. unfold run_calls, calls_before_run, hardware_calls.
    fold s fs_dac nco. rewrite !in_app_iff. cbn. tauto.
  - rewrite Hcalls. unfold run_calls, calls_before_run, setup_calls, np_full_like.
    fold s. rewrite !in_app_iff. cbn. tauto.
  - eapply Forall_impl; [exact Hall|]. intros f [H1 H2]. cbn beta in *.
    clear -H1 H2 Hs Hspan. clearbody fs_dac s. split; qlra.
  - apply Forall_fmap. eapply Forall_impl; [exact Hall|].
    intros f [H1 H2]. cbn beta in *. unfold nco.
    clear -H1 H2 Hc Hspan. clearbody fs_dac s. repeat split; qlra.
Qed.

Lemma run_frequencies_in_band_witness :
  let st := demo_state 3 in
  let st' := snd (run demo_sdk demo_py "192.168.42.50" None false st) in
  let s := self st in
  let fs_dac := presto.fs demo_sdk "dac" in
  let control_nco := (control_freq_center s - fs_dac / 4)%Q in
  exists control_if_arr,
    control_freq_arr (self st')
    = Some (array1 (map (fun f => (control_nco + f)%Q) control_if_arr))
    /\ length control_if_arr = Z.to_nat (control_freq_nr s)
    /\ In (presto.hardware_configure_mixer control_nco None (control_port s) true)
         (calls_of (trace st'))
    /\ In (presto.setup_freq_lut (control_port s) 0 (presto.many control_if_arr)
             (presto.many (repeat (presto.pi_times 0) (length control_if_arr)))
             (presto.many (repeat (presto.pi_times (- (1 # 2)))
                             (length control_if_arr))))
         (calls_of (trace st'))
    /\ Forall (fun f => (0 < f)%Q /\ (f < fs_dac / 2)%Q) control_if_arr
    /\ Forall (fun f => (0 < f)%Q
                        /\ (control_freq_center s - control_freq_span s / 2 <= f)%Q
                        /\ (f <= control_freq_center s + control_freq_span s / 2)%Q)
         (map (fun f => (control_nco + f)%Q) control_if_arr).
Proof.
  apply (run_frequencies_in_band demo_sdk demo_py "192.168.42.50" None false
           (demo_state 3) "data/ramsey_chevron.h5").
  - vm_compute. reflexivity.
  - cbn. lra.
Defined.

(** ** From [run] to [analyze] *)

Lemma rbind_no {A B} e (r : result A) (k : A -> result B) :
  r <> Raise e -> (forall a, k a <> Raise e) -> rbind r k <> Raise e.
Proof. intros Hr Hk. destruct r as [a|e']; cbn; [apply Hk | congruence]. Qed.

Lemma has_index_no_assert {A} (a : ndarray A) i :
  has_index a i <> Raise AssertionError.
Proof.
  unfold has_index. destruct (shape a); [discriminate|].
  destruct (_ <? _)%nat; discriminate.
Qed.

Lemma np_len_no_assert {A} (a : ndarray A) : np_len a <> Raise AssertionError.
Proof. unfold np_len. destruct (shape a); discriminate. Qed.

Lemma response_map_no_assert s sa : response_map s sa <> Raise AssertionError.
Proof.
  unfold response_map. apply rbind_no.
  - unfold np_take_2. destruct (shape sa) as [|? [|? [|? [|? ?]]]]; try discriminate.
    destruct (_ && _); discriminate.
  - intros w. apply rbind_no.
    + unfold np_mean_last. destruct (shape w) as [|? [|? [|? ?]]]; discriminate.
    + intros r. apply rbind_no; [apply np_len_no_assert|].
      intros n. unfold set_shape. destruct (_ =? _)%nat; discriminate.
Qed.

Lemma analyze_asserts_pass num s all_plots :
  analyze_asserts s ->
  analyze_plot_data num s all_plots <> Raise AssertionError.
Proof.
  intros (ta & sa & cfa & n & Hta & Hsa & Hcfa & Hn & Hnr).
  unfold analyze_plot_data. rewrite Hta, Hsa, Hcfa, Hn. cbn [rbind].
  apply Z.eqb_eq in Hnr. rewrite Hnr. cbn [assert rbind].
  repeat first
    [ apply has_index_no_assert
    | apply np_len_no_assert
    | apply response_map_no_assert
    | discriminate
    | apply rbind_no; [|intros ?] ].
  - destruct all_plots; [|discriminate].
    destruct (shape sa) as [|? [|? [|? ?]]]; try discriminate.
    destruct (_ && _); discriminate.
  - unfold np_max.
    match goal with
    | |- match ?l with _ => _ end <> _ => destruct l
    end; discriminate.
Qed.

(** X12. A [run] that returns leaves the object as the assertions at the
    head of [analyze] want it: [t_arr], [store_arr] and
    [control_freq_arr] are set and [control_freq_arr] has
    [control_freq_nr] entries, so that [analyze], called next, does not
    stop at an assertion. *)
Theorem run_then_analyze_asserts sdk py address port ext st fname st' :
  run sdk py address port ext st = (Ok fname, st') ->
  analyze_asserts (self st')
  /\ forall num all_plots,
       analyze_plot_data num (self st') all_plots <> Raise AssertionError.
Proof.
  intros H.
  assert (Hasserts : analyze_asserts (self st')).
  { apply run_exact in H as (jv & arr & delays & Hready & Hself & _).
    destruct Hready as (_ & _ & _ & Harr & _ & _).
    apply np_linspace_Ok in Harr as [Hnr Harr].
    assert (Hlen : length arr = Z.to_nat (control_freq_nr (self st))).
    { rewrite Harr. cbv zeta.
      destruct (_ <? _)%Z; rewrite ?length_insert, length_map, length_seq; done. }
    rewrite Hself. unfold analyze_asserts, measured.
    eexists _, _, _, _. cbn.
    split; [reflexivity|]. split; [reflexivity|]. split; [reflexivity|].
    split; [reflexivity|]. rewrite length_map, Hlen. lia. }
  split; [exact Hasserts|]. intros num all_plots.
  by apply analyze_asserts_pass.
Qed.

Lemma run_then_analyze_asserts_witness :
  let st' := snd (run demo_sdk demo_py "192.168.42.50" None false (demo_state 3)) in
  analyze_asserts (self st')
  /\ forall num all_plots,
       analyze_plot_data num (self st') all_plots <> Raise AssertionError.
Proof.
  apply (run_then_analyze_asserts demo_sdk demo_py "192.168.42.50" None false
           (demo_state 3) "data/ramsey_chevron.h5").
  vm_compute. reflexivity.
Defined.

(** ** The analysis *)

Lemma fold_max_spec l x :
  let m := fold_left (fun m y => if Qltb m y then y else m) l x in
  (x <= m)%Q /\ Forall (fun v => (v <= m)%Q) l /\ (m = x \/ In m l).
Proof.
  revert x. induction l as [|y l IH]; intros x; cbn.
  - split; [apply Qle_refl|]. split; [constructor | by left].
  - destruct (IH (if Qltb x y then y else x)) as (H1 & H2 & H3).
    destruct (Qltb x y) eqn:Hxy.
    + apply Qltb_lt in Hxy. split; [lra|]. split; [by constructor|].
      destruct H3 as [-> | H3]; auto.
    + apply Qltb_ge in Hxy. split; [exact H1|]. split; [constructor; [lra|done]|].
      destruct H3 as [-> | H3]; auto.
Qed.

Lemma fold_min_spec l x :
  let m := fold_left (fun m y => if Qltb y m then y else m) l x in
  (m <= x)%Q /\ Forall (fun v => (m <= v)%Q) l /\ (m = x \/ In m l).
Proof.
  revert x. induction l as [|y l IH]; intros x; cbn.
  - split; [apply Qle_refl|]. split; [constructor | by left].
  - destruct (IH (if Qltb y x then y else x)) as (H1 & H2 & H3).
    destruct (Qltb y x) eqn:Hxy.
    + apply Qltb_lt in Hxy. split; [lra|]. split; [by constructor|].
      destruct H3 as [-> | H3]; auto.
    + apply Qltb_ge in Hxy. split; [exact H1|]. split; [constructor; [lra|done]|].
      destruct H3 as [-> | H3]; auto.
Qed.

Lemma np_max_Ok l m :
  np_max l = Ok m -> Forall (fun v => (v <= m)%Q) l /\ In m l.
Proof.
  unfold np_max. destruct l as [|x l]; [discriminate|]. intros [= <-].
  destruct (fold_max_spec l x) as (H1 & H2 & H3). split.
  - by constructor.
  - destruct H3 as [-> | H3]; [by left | by right].
Qed.

Lemma np_min_Ok l m :
  np_min l = Ok m -> Forall (fun v => (m <= v)%Q) l /\ In m l.
Proof.
  unfold np_min. destruct l as [|x l]; [discriminate|]. intros [= <-].
  destruct (fold_min_spec l x) as (H1 & H2 & H3). split.
  - by constructor.
  - destruct H3 as [-> | H3]; [by left | by right].
Qed.

(** X13. [analyze] scales the data it draws by a power of 1000 chosen
    from the largest magnitude [data_max] of the rotated response: by
    [1e9] below [1e-6], by [1e6] below [1e-3], by [1e3] below [1], and not
    at all from [1] on.  Whenever [1e-9 <= data_max < 1], the largest
    magnitude of the scaled data lies in [[1, 1000)]. *)
Theorem analyze_scales_plot_data num s all_plots pd cfa :
  analyze_plot_data num s all_plots = Ok (pd, cfa) ->
  exists sa resp data_max mult,
    store_arr s = Some sa
    /\ response_map s sa = Ok resp
    /\ let raw := map fst (data (rotate_opt num resp)) in
       np_max (map Qabs raw) = Ok data_max
       /\ shape pd = shape (rotate_opt num resp)
       /\ data pd = map (fun v => (v * mult)%Q) raw
       /\ mult = (if Qltb data_max (1 # 1000000) then 1000000000
                  else if Qltb data_max (1 # 1000) then 1000000
                  else if Qltb data_max 1 then 1000 else 1)%Q
       /\ ((1 # 1000000000 <= data_max)%Q -> (data_max < 1)%Q ->
           (1 <= data_max * mult)%Q /\ (data_max * mult < 1000)%Q)
       /\ Forall (fun v => (Qabs v <= data_max * mult)%Q) (data pd)
       /\ Exists (fun v => (Qabs v == data_max * mult)%Q) (data pd).
Proof.
  unfold analyze_plot_data.
  destruct (t_arr s) as [ta|], (store_arr s) as [sa|],
    (control_freq_arr s) as [cfa0|]; try discriminate.
  intros H.
  repeat match type of H with
         | rbind (response_map _ _) _ = _ => fail 1
         | rbind _ _ = Ok _ => apply rbind_Ok in H as (? & _ & H)
         end.
  apply rbind_Ok in H as (resp & Hresp & H).
  apply rbind_Ok in H as (data_max & Hmax & H).
  repeat (apply rbind_Ok in H as (? & _ & H)).
  injection H as <- _.
  exists sa, resp, data_max. eexists.
  split; [reflexivity|]. split; [exact Hresp|]. cbv zeta.
  split; [exact Hmax|]. split; [reflexivity|]. split; [reflexivity|].
  split; [reflexivity|].
  set (mult := if Qltb data_max (1 # 1000000) then _ else _).
  apply np_max_Ok in Hmax as [Hall Hin].
  assert (Hmult : (0 < mult)%Q).
  { unfold mult. repeat destruct (Qltb _ _); reflexivity. }
  split; [|split].
  - intros Hlo Hhi. unfold mult.
    destruct (Qltb data_max (1 # 1000000)) eqn:H6.
    { apply Qltb_lt in H6. split; lra. }
    apply Qltb_ge in H6.
    destruct (Qltb data_max (1 # 1000)) eqn:H3.
    { apply Qltb_lt in H3. split; lra. }
    apply Qltb_ge in H3.
    destruct (Qltb data_max 1) eqn:H0.
    { apply Qltb_lt in H0. split; lra. }
    apply Qltb_ge in H0. lra.
  - cbn [data]. apply Forall_fmap, Forall_forall. intros v Hv. cbn beta.
    unfold compose. rewrite Qabs_Qmult. rewrite (Qabs_pos mult) by lra.
    apply Qmult_le_compat_r; [|lra].
    rewrite Forall_forall in Hall. apply Hall.
    apply list_elem_of_fmap. by exists v.
  - cbn [data]. apply Exists_exists.
    apply in_map_iff in Hin as (v & Hv & Hin).
    exists (v * mult)%Q. split.
    + apply list_elem_of_fmap. exists v. split; [done|]. by apply list_elem_of_In.
    + rewrite Qabs_Qmult, (Qabs_pos mult), Hv by lra. reflexivity.
Qed.

Lemma analyze_scales_plot_data_witness :
  exists sa resp data_max mult,
    store_arr demo_weak = Some sa
    /\ response_map demo_weak sa = Ok resp
    /\ let raw := map fst (data (rotate_opt demo_num resp)) in
       np_max (map Qabs raw) = Ok data_max
       /\ shape demo_weak_plot_data = shape (rotate_opt demo_num resp)
       /\ data demo_weak_plot_data = map (fun v => (v * mult)%Q) raw
       /\ mult = (if Qltb data_max (1 # 1000000) then 1000000000
                  else if Qltb data_max (1 # 1000) then 1000000
                  else if Qltb data_max 1 then 1000 else 1)%Q
       /\ ((1 # 1000000000 <= data_max)%Q -> (data_max < 1)%Q ->
           (1 <= data_max * mult)%Q /\ (data_max * mult < 1000)%Q)
       /\ Forall (fun v => (Qabs v <= data_max * mult)%Q) (data demo_weak_plot_data)
       /\ Exists (fun v => (Qabs v == data_max * mult)%Q) (data demo_weak_plot_data).
Proof.
  apply (analyze_scales_plot_data demo_num demo_weak false
           demo_weak_plot_data (array1 [3%Q; 5%Q])).
  vm_compute. reflexivity.
Defined.

Lemma has_index_Ok {A} (a : ndarray A) i u :
  has_index a i = Ok u -> exists n, np_len a = Ok n /\ (i < n)%nat.
Proof.
  unfold has_index, np_len. destruct (shape a) as [|n sh]; [discriminate|].
  destruct (Nat.ltb_spec i n); [|discriminate]. eauto.
Qed.

Lemma response_map_Ok s sa resp n0 n1 n2 :
  shape sa = [n0; n1; n2] ->
  response_map s sa = Ok resp ->
  exists nd,
    np_len (delay_arr s) = Ok nd
    /\ (1 <= n1)%nat /\ (IDX_HIGH <= n2)%nat
    /\ n0 = (Z.to_nat (control_freq_nr s) * nd)%nat.
Proof.
  intros Hshape H. unfold response_map, np_take_2 in H. rewrite Hshape in H.
  destruct (Nat.ltb_spec 0 n1) as [Hn1|]; [|discriminate].
  destruct (forallb _ _) eqn:Hidx; [|discriminate].
  cbn [andb rbind np_mean_last shape data] in H.
  apply rbind_Ok in H as (nd & Hnd & H). exists nd. split; [exact Hnd|].
  split; [lia|]. split.
  - rewrite forallb_forall in Hidx.
    pose proof IDX_LOW_le_HIGH as Hlh.
    assert (Hlt : IDX_LOW <> IDX_HIGH) by (vm_compute; discriminate).
    specialize (Hidx (IDX_HIGH - 1)%nat).
    rewrite Nat.ltb_lt in Hidx. assert (IDX_HIGH - 1 < n2)%nat; [|lia].
    apply Hidx. unfold np_arange. apply in_seq. lia.
  - unfold set_shape in H. cbn [shape shape_size fold_right] in H.
    destruct (Nat.eqb_spec (Z.to_nat (control_freq_nr s) * (nd * 1)) (n0 * 1));
      [lia | discriminate].
Qed.

(** X14. What [analyze] needs of the object to get to the fits: for a
    three-dimensional [store_arr] of shape [(n0, n1, n2)], [analyze]
    returns only if there is a port 0 ([n1 >= 1]), every trace has at
    least [IDX_HIGH] samples, the number of traces [n0] is
    [control_freq_nr * len(delay_arr)], [t_arr] has more than [IDX_HIGH]
    entries, and there are at least two delays and at least two control
    frequencies. *)
Theorem analyze_needs num s all_plots a sa n0 n1 n2 :
  analyze num s all_plots = Ok a ->
  store_arr s = Some sa ->
  shape sa = [n0; n1; n2] ->
  exists ta nt nd,
    t_arr s = Some ta
    /\ np_len ta = Ok nt /\ (IDX_HIGH < nt)%nat
    /\ (1 <= n1)%nat /\ (IDX_HIGH <= n2)%nat
    /\ np_len (delay_arr s) = Ok nd /\ (2 <= nd)%nat
    /\ (2 <= control_freq_nr s)%Z
    /\ n0 = (Z.to_nat (control_freq_nr s) * nd)%nat.
Proof.
  intros H Hsa Hshape. unfold analyze in H.
  apply rbind_Ok in H as ([pd cfa] & Hpd & _).
  unfold analyze_plot_data in Hpd. rewrite Hsa in Hpd.
  destruct (t_arr s) as [ta|]; [|discriminate].
  destruct (control_freq_arr s) as [cfa0|]; [|discriminate].
  apply rbind_Ok in Hpd as (n & Hn & Hpd).
  apply rbind_Ok in Hpd as ([] & Hassert & Hpd).
  apply rbind_Ok in Hpd as ([] & _ & Hpd).
  apply rbind_Ok in Hpd as ([] & Hhigh & Hpd).
  apply rbind_Ok in Hpd as ([] & _ & Hpd).
  apply rbind_Ok in Hpd as (resp & Hresp & Hpd).
  apply rbind_Ok in Hpd as (data_max & _ & Hpd).
  apply rbind_Ok in Hpd as ([] & _ & Hpd).
  apply rbind_Ok in Hpd as (nd' & _ & Hpd).
  apply rbind_Ok in Hpd as ([] & _ & Hpd).
  apply rbind_Ok in Hpd as ([] & Hd1 & Hpd).
  apply rbind_Ok in Hpd as ([] & _ & Hpd).
  apply rbind_Ok in Hpd as (n' & _ & Hpd).
  apply rbind_Ok in Hpd as ([] & _ & Hpd).
  apply rbind_Ok in Hpd as ([] & Hc1 & _).
  apply has_index_Ok in Hhigh as (nt & Hnt & Hlt).
  apply has_index_Ok in Hd1 as (nd & Hnd & Hnd2).
  apply has_index_Ok in Hc1 as (nc & Hnc & Hnc2).
  rewrite Hn in Hnc. injection Hnc as <-.
  apply assert_Ok, Z.eqb_eq in Hassert.
  destruct (response_map_Ok s sa resp n0 n1 n2 Hshape Hresp)
    as (nd0 & Hnd0 & H1 & H2 & H0).
  rewrite Hnd in Hnd0. injection Hnd0 as <-.
  exists ta, nt, nd. repeat (split; [done || lia|]). exact H0.
Qed.

Lemma analyze_needs_witness :
  exists ta nt nd,
    t_arr demo_analyzed = Some ta
    /\ np_len ta = Ok nt /\ (IDX_HIGH < nt)%nat
    /\ (1 <= 1)%nat /\ (IDX_HIGH <= 2000)%nat
    /\ np_len (delay_arr demo_analyzed) = Ok nd /\ (2 <= nd)%nat
    /\ (2 <= control_freq_nr demo_analyzed)%Z
    /\ 4%nat = (Z.to_nat (control_freq_nr demo_analyzed) * nd)%nat.
Proof.
  apply (analyze_needs demo_num demo_analyzed false
           {| plot_data := demo_plot_data; fit_freq := [Fin 3; NaN];
              err_freq := [Fin 4; Fin 0]; x0_opt := Fin 3; x0_err := Fin 0 |}
           demo_store 4 1 2000).
  - vm_compute. reflexivity.
  - reflexivity.
  - reflexivity.
Defined.

Section AllFail.

Variable num : Numerics.
Variable x : ndarray Q.
Variable plot_data : ndarray Q.
Hypothesis Hfail : forall xs y p0, exists e, curve_fit_func num xs y p0 = Raise e.

Lemma fit_simple_fails y : exists e, _fit_simple num x y = Raise e.
Proof.
  unfold _fit_simple.
  repeat match goal with
         | |- exists e, rbind (curve_fit_func num ?a ?b ?c) _ = Raise e =>
             destruct (Hfail a b c) as [e ->]; cbn [rbind]; eauto
         | |- exists e, rbind ?r _ = Raise e =>
             destruct r; cbn [rbind]; [|eauto]
         end.
Qed.

Lemma fit_row_fails jj fit_freq err_freq :
  (jj < length fit_freq)%nat ->
  fit_row num x plot_data jj fit_freq err_freq
  = Ok (<[jj := NaN]> fit_freq, err_freq).
Proof.
  intros Hjj. unfold fit_row.
  destruct (np_row plot_data jj) as [row|e]; cbn [rbind].
  - destruct (fit_simple_fails row) as [e ->]. by rewrite setitem_Ok.
  - by rewrite setitem_Ok.
Qed.

Lemma fit_loop_fails rows fit_freq err_freq :
  (forall jj, jj ∈ rows -> (jj < length fit_freq)%nat) ->
  exists fit_freq',
    fit_loop num x plot_data rows fit_freq err_freq = Ok (fit_freq', err_freq)
    /\ length fit_freq' = length fit_freq
    /\ (forall k, k ∈ rows -> fit_freq' !! k = Some NaN)
    /\ (forall k, k ∉ rows -> fit_freq' !! k = fit_freq !! k).
Proof.
  revert fit_freq. induction rows as [|jj rows IH]; intros fit_freq Hlt.
  - exists fit_freq. cbn. repeat split; try done.
    intros k Hk. by apply elem_of_nil in Hk.
  - cbn [fit_loop]. rewrite fit_row_fails by (apply Hlt; left).
    cbn [rbind fst snd].
    destruct (IH (<[jj := NaN]> fit_freq)) as (ff & Hloop & Hlen & Hin & Hout).
    { intros k Hk. rewrite length_insert. apply Hlt. by right. }
    exists ff. split; [exact Hloop|]. rewrite length_insert in Hlen.
    split; [exact Hlen|]. split.
    + intros k Hk. destruct (decide (k ∈ rows)) as [Hr|Hr]; [by apply Hin|].
      rewrite (Hout k Hr). apply elem_of_cons in Hk as [->|Hk]; [|done].
      apply list_lookup_insert_eq. apply Hlt. left.
    + intros k Hk. apply not_elem_of_cons in Hk as [Hne Hk].
      rewrite (Hout k Hk). by apply list_lookup_insert_ne.
Qed.

End AllFail.

Lemma nanargmin_all_nan l :
  Forall (fun v => v = NaN) l -> np_nanargmin l = Raise ValueError.
Proof.
  intros H. unfold np_nanargmin.
  destruct l as [|v l]; [reflexivity|].
  assert (Hall : forallb isnan (v :: l) = true).
  { apply forallb_forall. intros x Hx. rewrite Forall_forall in H.
    by rewrite (H x) by (by apply list_elem_of_In). }
  by rewrite Hall.
Qed.

(** X15. When the fit of every row fails, [analyze] does not return:
    every entry of [fit_freq] is NaN, and [np.nanargmin] raises
    [ValueError] for want of a value to start the last fit from. *)
Theorem analyze_all_fits_fail num s all_plots pd cfa_arr cfa :
  analyze_plot_data num s all_plots = Ok (pd, cfa_arr) ->
  numbers cfa_arr = Ok cfa ->
  (forall xs y p0, exists e, curve_fit_func num xs y p0 = Raise e) ->
  analyze num s all_plots = Raise ValueError.
Proof.
  intros Hpre Hnum Hfail.
  destruct (analyze_plot_data_Ok _ _ _ _ _ Hpre) as (n & Hn & Hnr).
  assert (Hlen : length (np_zeros_like cfa_arr) = Z.to_nat (control_freq_nr s)).
  { unfold np_zeros_like. rewrite repeat_length.
    unfold numbers in Hnum. unfold np_len in Hn.
    destruct (shape cfa_arr) as [|m [|? ?]]; try discriminate.
    injection Hn as ->. cbn. lia. }
  destruct (fit_loop_fails num (delay_arr s) pd Hfail
              (seq 0 (Z.to_nat (control_freq_nr s)))
              (np_zeros_like cfa_arr) (np_zeros_like cfa_arr))
    as (ff & Hloop & Hlenff & Hin & _).
  { intros jj Hjj. apply elem_of_seq in Hjj. lia. }
  unfold analyze. rewrite Hpre. cbn [rbind fst snd]. rewrite Hnum. cbn [rbind].
  rewrite Hloop. cbn [rbind fst snd].
  assert (Hall : Forall (fun v => v = NaN) ff).
  { apply Forall_lookup. intros k v Hk.
    assert (Hlt : (k < Z.to_nat (control_freq_nr s))%nat).
    { apply lookup_lt_Some in Hk. lia. }
    rewrite Hin in Hk by (apply elem_of_seq; lia). by injection Hk as <-. }
  by rewrite nanargmin_all_nan.
Qed.

Lemma analyze_all_fits_fail_witness :
  analyze demo_num_failing demo_analyzed false = Raise ValueError.
Proof.
  apply (analyze_all_fits_fail demo_num_failing demo_analyzed false
           demo_plot_data (array1 [3%Q; 5%Q]) [3%Q; 5%Q]).
  - vm_compute. reflexivity.
  - reflexivity.
  - intros xs y p0. eexists. reflexivity.
Defined.

(** X16. The starting point [_fit_simple] gives [curve_fit]: the offset
    and the amplitude are such that every point of the data lies within
    the amplitude of the offset, the smallest and the largest point
    exactly that far from it; the decay time is half the spread of the
    delays; the frequency is the bin of
    [rfftfreq(len(x), x[1] - x[0])] at the peak of the spectrum, and the
    phase the phase there.  What [_fit_simple] returns is the optimum of
    [curve_fit] from that point, and the square roots of the diagonal of
    its covariance. *)
Theorem fit_simple_initial_guess num x y popt perr :
  _fit_simple num x y = Ok (popt, perr) ->
  exists xs offset amplitude T2 frequency x0 x1 pcov d,
    numbers x = Ok xs
    /\ curve_fit_func num xs y
         [Fin offset; Fin amplitude; Fin T2; frequency; snd (rfft_peak num y)]
       = Ok (popt, pcov)
    /\ np_diag NaN pcov = Ok d
    /\ perr = map (sqrt num) d
    /\ Forall (fun v => (offset - amplitude <= v)%Q
                        /\ (v <= offset + amplitude)%Q) y
    /\ Exists (fun v => (v == offset - amplitude)%Q) y
    /\ Exists (fun v => (v == offset + amplitude)%Q) y
    /\ (exists lo hi,
          In lo xs /\ In hi xs
          /\ Forall (fun t => (lo <= t)%Q /\ (t <= hi)%Q) xs
          /\ (2 * T2 == hi - lo)%Q)
    /\ xs !! 0%nat = Some x0
    /\ xs !! 1%nat = Some x1
    /\ np_rfftfreq (length xs) (x1 - x0) !! fst (rfft_peak num y)
       = Some frequency.
Proof.
  intros H. unfold _fit_simple in H.
  apply rbind_Ok in H as (ymax & Hymax & H).
  apply rbind_Ok in H as (ymin & Hymin & H).
  apply rbind_Ok in H as (ymin' & Hymin' & H).
  rewrite Hymin in Hymin'. injection Hymin' as <-.
  apply rbind_Ok in H as (xs & Hxs & H).
  apply rbind_Ok in H as (xmax & Hxmax & H).
  apply rbind_Ok in H as (xmin & Hxmin & H).
  apply rbind_Ok in H as (x1 & Hx1 & H).
  apply rbind_Ok in H as (x0 & Hx0 & H).
  apply rbind_Ok in H as (frequency & Hfreq & H).
  apply rbind_Ok in H as ([popt' pcov] & Hfit & H).
  apply rbind_Ok in H as (d & Hd & H).
  cbn [fst snd] in *. injection H as <- <-.
  apply np_max_Ok in Hymax as [Hymax Hinmax].
  apply np_min_Ok in Hymin as [Hymin Hinmin].
  apply np_max_Ok in Hxmax as [Hxmax Hxinmax].
  apply np_min_Ok in Hxmin as [Hxmin Hxinmin].
  unfold getitem in Hx1, Hx0, Hfreq.
  destruct (xs !! 1%nat) as [x1'|] eqn:E1; [|discriminate]. injection Hx1 as ->.
  destruct (xs !! 0%nat) as [x0'|] eqn:E0; [|discriminate]. injection Hx0 as ->.
  destruct (np_rfftfreq _ _ !! _) as [f|] eqn:Ef; [|discriminate].
  injection Hfreq as ->.
  eexists xs, _, _, _, frequency, x0, x1, pcov, d.
  split; [exact Hxs|]. split; [exact Hfit|]. split; [exact Hd|].
  split; [reflexivity|]. split; [|split; [|split; [|split]]].
  - rewrite Forall_forall in Hymax, Hymin. apply Forall_forall. intros v Hv.
    specialize (Hymax v Hv). specialize (Hymin v Hv). cbn beta in *.
    split; qlra.
  - apply Exists_exists. exists ymin. split; [by apply list_elem_of_In|]. qlra.
  - apply Exists_exists. exists ymax. split; [by apply list_elem_of_In|]. qlra.
  - exists xmin, xmax. split; [exact Hxinmin|]. split; [exact Hxinmax|]. split.
    + rewrite Forall_forall in Hxmax, Hxmin. apply Forall_forall. intros t Ht.
      split; [by apply Hxmin | by apply Hxmax].
    + qlra.
  - done.
Qed.

Lemma fit_simple_initial_guess_witness :
  exists xs offset amplitude T2 frequency x0 x1 pcov d,
    numbers (array1 [0%Q; 1 # 2]) = Ok xs
    /\ curve_fit_func demo_num xs [1%Q; 2%Q]
         [Fin offset; Fin amplitude; Fin T2; frequency;
          snd (rfft_peak demo_num [1%Q; 2%Q])]
       = Ok ([Fin 0; Fin 1; Fin 1; Fin (-3); Fin 0], pcov)
    /\ np_diag NaN pcov = Ok d
    /\ repeat (Fin 4) 5 = map (sqrt demo_num) d
    /\ Forall (fun v => (offset - amplitude <= v)%Q
                        /\ (v <= offset + amplitude)%Q) [1%Q; 2%Q]
    /\ Exists (fun v => (v == offset - amplitude)%Q) [1%Q; 2%Q]
    /\ Exists (fun v => (v == offset + amplitude)%Q) [1%Q; 2%Q]
    /\ (exists lo hi,
          In lo xs /\ In hi xs
          /\ Forall (fun t => (lo <= t)%Q /\ (t <= hi)%Q) xs
          /\ (2 * T2 == hi - lo)%Q)
    /\ xs !! 0%nat = Some x0
    /\ xs !! 1%nat = Some x1
    /\ np_rfftfreq (length xs) (x1 - x0) !! fst (rfft_peak demo_num [1%Q; 2%Q])
       = Some frequency.
Proof.
  apply (fit_simple_initial_guess demo_num (array1 [0%Q; 1 # 2]) [1%Q; 2%Q]).
  vm_compute. reflexivity.
Defined.

(** ** The last fit *)

Lemma flt_ltb_irrefl v : flt_ltb v v = false.
Proof.
  destruct v as [q|[]|]; cbn; try reflexivity.
  apply Qltb_ge. apply Qle_refl.
Qed.

Lemma flt_ltb_trans x b r :
  flt_ltb x b = true -> flt_ltb b r = true -> flt_ltb x r = true.
Proof.
  destruct x as [x|[]|], b as [b|[]|], r as [r|[]|]; cbn; try done.
  intros H1 H2. apply Qltb_lt in H1, H2. apply Qltb_lt. lra.
Qed.

Lemma flt_ltb_total x b r :
  x <> NaN -> b <> NaN -> r <> NaN ->
  flt_ltb x b = false -> flt_ltb x r = true -> flt_ltb b r = true.
Proof.
  destruct x as [x|[]|], b as [b|[]|], r as [r|[]|]; cbn; try done.
  intros _ _ _ H1 H2. apply Qltb_ge in H1. apply Qltb_lt in H2.
  apply Qltb_lt. lra.
Qed.

Lemma nan_to_inf_not_nan x : nan_to_inf x <> NaN.
Proof. by destruct x. Qed.

(** [np.argmin] returns the index of a value that no value of the array
    is below. *)
Lemma argmin_from_spec l i best :
  Forall (fun w => w <> NaN) l ->
  snd best <> NaN ->
  let r := argmin_from l i best in
  snd r <> NaN
  /\ (r = best \/ exists j, l !! j = Some (snd r) /\ fst r = (i + j)%nat)
  /\ (forall j w, l !! j = Some w -> flt_ltb w (snd r) = false)
  /\ flt_ltb (snd best) (snd r) = false.
Proof.
  revert i best. induction l as [|x l IH]; intros i best Hl Hbest; cbn zeta.
  - cbn. split; [exact Hbest|]. split; [by left|]. split; [done|].
    apply flt_ltb_irrefl.
  - apply Forall_cons in Hl as [Hx Hl]. cbn [argmin_from].
    set (best' := if flt_ltb x (snd best) then (i, x) else best).
    assert (Hbest' : snd best' <> NaN).
    { subst best'. by destruct (flt_ltb x (snd best)). }
    destruct (IH (S i) best' Hl Hbest') as (H1 & H2 & H3 & H4).
    set (r := argmin_from l (S i) best') in *.
    assert (Hxr : flt_ltb x (snd r) = false /\ flt_ltb (snd best) (snd r) = false).
    { subst best'. destruct (flt_ltb x (snd best)) eqn:Hxb; cbn [snd] in H4.
      - split; [exact H4|].
        destruct (flt_ltb (snd best) (snd r)) eqn:Hbr; [|reflexivity].
        by rewrite (flt_ltb_trans _ _ _ Hxb Hbr) in H4.
      - split; [|exact H4].
        destruct (flt_ltb x (snd r)) eqn:Hxr; [|reflexivity].
        by rewrite (flt_ltb_total x (snd best) (snd r) Hx Hbest H1 Hxb Hxr) in H4. }
    destruct Hxr as [Hxr Hb].
    split; [exact H1|]. split; [|split; [|exact Hb]].
    + destruct H2 as [H2|(j & Hj & Hk)].
      * subst best'. destruct (flt_ltb x (snd best)); [|by left].
        right. exists 0%nat. rewrite H2. cbn. split; [done | lia].
      * right. exists (S j). split; [exact Hj | lia].
    + intros [|j] w Hw; [by injection Hw as <-|]. by apply (H3 j).
Qed.

(** [np.nanargmin] returns the index of a value that, with NaN read as
    [+inf], no value of the array is below; it returns whenever some
    value is not NaN. *)
Lemma np_nanargmin_Ok l i :
  np_nanargmin l = Ok i ->
  exists least,
    l !! i = Some least
    /\ Exists (fun w => w <> NaN) l
    /\ (forall j w, l !! j = Some w ->
        flt_ltb (nan_to_inf w) (nan_to_inf least) = false).
Proof.
  unfold np_nanargmin. intros H.
  destruct l as [|x l]; [discriminate|].
  cbn [length Nat.eqb negb andb] in H.
  destruct (forallb isnan (x :: l)) eqn:Hall; [discriminate|].
  cbn [map np_argmin] in H. injection H as <-.
  pose proof (argmin_from_spec (map nan_to_inf l) 1 (0%nat, nan_to_inf x)) as Hs.
  cbn zeta in Hs.
  destruct Hs as (_ & Hwhere & Hleast & Hfirst).
  { apply Forall_forall. intros w Hw. apply list_elem_of_fmap in Hw as (v & -> & _).
    apply nan_to_inf_not_nan. }
  { apply nan_to_inf_not_nan. }
  set (r := argmin_from (map nan_to_inf l) 1 (0%nat, nan_to_inf x)) in *.
  cbn [snd] in Hfirst.
  assert (Hat : exists least, (x :: l) !! fst r = Some least
                              /\ nan_to_inf least = snd r).
  { destruct Hwhere as [->|(j & Hj & ->)].
    - exists x. done.
    - rewrite list_lookup_fmap in Hj.
      destruct (l !! j) as [v|] eqn:Hv; [|discriminate].
      exists v. cbn in *. split; [exact Hv | congruence]. }
  destruct Hat as (least & Hat & Heq).
  exists least. split; [exact Hat|]. split.
  - apply Exists_exists.
    assert (Hex : exists w, In w (x :: l) /\ isnan w = false).
    { apply not_true_iff_false in Hall.
      destruct (existsb (fun w => negb (isnan w)) (x :: l)) eqn:He.
      - apply existsb_exists in He as (w & Hw & Hn). exists w.
        split; [exact Hw|]. by destruct (isnan w).
      - exfalso. apply Hall. apply forallb_forall. intros w Hw.
        destruct (isnan w) eqn:Hn; [done|]. 
        assert (existsb (fun w => negb (isnan w)) (x :: l) = true).
        { apply existsb_exists. exists w. by rewrite Hn. }
        congruence. }
    destruct Hex as (w & Hw & Hn). exists w.
    split; [by apply list_elem_of_In|]. by intros ->.
  - rewrite Heq. intros [|j] w Hw.
    + injection Hw as <-. exact Hfirst.
    + change (l !! j = Some w) in Hw. apply (Hleast j).
      rewrite list_lookup_fmap. by rewrite Hw.
Qed.

(** A NaN counts as [+inf]: it is picked when nothing smaller follows. *)
Example nanargmin_nan_before_inf :
  np_nanargmin [NaN; Inf false] = Ok 0%nat
  /\ np_nanargmin [NaN; Fin 2; Fin 1; Fin 1] = Ok 2%nat
  /\ np_nanargmin [NaN; NaN] = Raise ValueError
  /\ np_nanargmin [] = Raise ValueError.
Proof. repeat split. Qed.

Lemma select_isfinite l :
  select (map isfinite l) l = List.filter isfinite l.
Proof.
  unfold select. induction l as [|v l IH]; [done|].
  cbn. destruct (isfinite v); cbn; by rewrite IH.
Qed.

Lemma analyze_plot_data_cfa num s all_plots pd cfa_arr :
  analyze_plot_data num s all_plots = Ok (pd, cfa_arr) ->
  control_freq_arr s = Some cfa_arr.
Proof.
  unfold analyze_plot_data.
  destruct (t_arr s), (store_arr s), (control_freq_arr s); try discriminate.
  intros H. repeat (apply rbind_Ok in H as (? & _ & H)).
  by injection H as _ <-.
Qed.

(** X17. The last fit of [analyze], of the detuning against the control
    frequency, gets the fitted frequencies that are finite, the control
    frequencies and the errors at the same places, and starts from the
    control frequency at the index [np.nanargmin] picks: some fitted
    frequency is not NaN, and with NaN read as [+inf] no fitted frequency
    is below the one at that index; when some fitted frequency is finite,
    the one picked is neither NaN nor [+inf].  The frequency of the qubit
    that [analyze] reports, and its error, are the optimum of that fit
    and the square root of its variance. *)
Theorem analyze_last_fit num s all_plots a :
  analyze num s all_plots = Ok a ->
  exists cfa_arr cfa i guess least popt pcov d,
    control_freq_arr s = Some cfa_arr
    /\ numbers cfa_arr = Ok cfa
    /\ np_nanargmin (fit_freq a) = Ok i
    /\ cfa !! i = Some guess
    /\ fit_freq a !! i = Some least
    /\ Exists (fun w => w <> NaN) (fit_freq a)
    /\ (forall j w, fit_freq a !! j = Some w ->
        flt_ltb (nan_to_inf w) (nan_to_inf least) = false)
    /\ (Exists (fun w => isfinite w = true) (fit_freq a) ->
        least <> NaN /\ least <> Inf false)
    /\ (let good_idx := map isfinite (fit_freq a) in
        curve_fit_detuning num (select good_idx cfa)
          (List.filter isfinite (fit_freq a)) [Fin guess]
          (select good_idx (err_freq a))
        = Ok (popt, pcov))
    /\ popt !! 0%nat = Some (x0_opt a)
    /\ np_diag NaN pcov = Ok d
    /\ map (sqrt num) d !! 0%nat = Some (x0_err a).
Proof.
  intros H. unfold analyze in H.
  apply rbind_Ok in H as ([pd cfa_arr] & Hpd & H). cbn [fst snd] in H.
  apply rbind_Ok in H as (cfa & Hcfa & H).
  apply rbind_Ok in H as ([ff ef] & Hloop & H). cbn [fst snd] in H.
  apply rbind_Ok in H as (i & Hi & H).
  apply rbind_Ok in H as (guess & Hguess & H).
  apply rbind_Ok in H as ([popt pcov] & Hfit & H). cbn [fst snd] in H.
  apply rbind_Ok in H as (d & Hd & H).
  apply rbind_Ok in H as (x0 & Hx0 & H).
  apply rbind_Ok in H as (xe & Hxe & H).
  injection H as <-. cbn [fit_freq err_freq x0_opt x0_err].
  unfold getitem in Hguess, Hx0, Hxe.
  destruct (cfa !! i) as [g|] eqn:Eg; [|discriminate]. injection Hguess as ->.
  destruct (popt !! 0%nat) as [p|] eqn:Ep; [|discriminate]. injection Hx0 as ->.
  destruct (map (sqrt num) d !! 0%nat) as [e|] eqn:Ee; [|discriminate].
  injection Hxe as ->.
  destruct (np_nanargmin_Ok ff i Hi) as (least & Hat & Hsome & Hleast).
  exists cfa_arr, cfa, i, guess, least, popt, pcov, d.
  split; [by apply analyze_plot_data_cfa in Hpd|].
  split; [exact Hcfa|]. split; [exact Hi|]. split; [exact Eg|].
  split; [exact Hat|]. split; [exact Hsome|]. split; [exact Hleast|].
  split.
  { intros (w & Hw & Hfin)%Exists_exists.
    apply list_elem_of_lookup in Hw as [j Hj].
    specialize (Hleast j w Hj).
    destruct w as [q| |]; try discriminate.
    split; intros ->; discriminate. }
  split; [by rewrite <- select_isfinite|]. done.
Qed.

Lemma analyze_last_fit_witness :
  let a := {| plot_data := demo_plot_data; fit_freq := [Fin 3; NaN];
              err_freq := [Fin 4; Fin 0]; x0_opt := Fin 3; x0_err := Fin 0 |} in
  exists cfa_arr cfa i guess least popt pcov d,
    control_freq_arr demo_analyzed = Some cfa_arr
    /\ numbers cfa_arr = Ok cfa
    /\ np_nanargmin (fit_freq a) = Ok i
    /\ cfa !! i = Some guess
    /\ fit_freq a !! i = Some least
    /\ Exists (fun w => w <> NaN) (fit_freq a)
    /\ (forall j w, fit_freq a !! j = Some w ->
        flt_ltb (nan_to_inf w) (nan_to_inf least) = false)
    /\ (Exists (fun w => isfinite w = true) (fit_freq a) ->
        least <> NaN /\ least <> Inf false)
    /\ (let good_idx := map isfinite (fit_freq a) in
        curve_fit_detuning demo_num (select good_idx cfa)
          (List.filter isfinite (fit_freq a)) [Fin guess]
          (select good_idx (err_freq a))
        = Ok (popt, pcov))
    /\ popt !! 0%nat = Some (x0_opt a)
    /\ np_diag NaN pcov = Ok d
    /\ map (sqrt demo_num) d !! 0%nat = Some (x0_err a).
Proof.
  apply (analyze_last_fit demo_num demo_analyzed false
           {| plot_data := demo_plot_data; fit_freq := [Fin 3; NaN];
              err_freq := [Fin 4; Fin 0]; x0_opt := Fin 3; x0_err := Fin 0 |}).
  vm_compute. reflexivity.
Defined.

(** ** From the constructor to the sequence *)

Lemma count_app f cs1 cs2 : count f (cs1 ++ cs2) = (count f cs1 + count f cs2)%nat.
Proof. unfold count. by rewrite List.filter_app, length_app. Qed.

Lemma count_none f cs :
  forallb (fun c => negb (f c)) cs = true -> count f cs = 0%nat.
Proof. intros H. unfold count. by rewrite filter_none. Qed.

Lemma count_loop_calls f s rp cp delays T k :
  (forall T d, count f (iteration_calls s rp cp T d) = k) ->
  count f (concat (loop_calls s rp cp delays T)) = (k * length delays)%nat.
Proof.
  intros Hk. revert T. induction delays as [|d ds IH]; intros T.
  - cbn. lia.
  - cbn [loop_calls concat length]. rewrite count_app, Hk, IH. lia.
Qed.

Lemma count_run_calls f sdk s address port ext jv arr delays k :
  (forall c, presto.is_sequence_call c = false -> f c = false) ->
  (forall T d, count f (iteration_calls s (presto.long_drive sdk)
                          (presto.template sdk) T d) = k) ->
  count f (run_calls sdk s address port ext jv arr delays)
  = (k * length delays
     + count f [presto.next_frequency (loop_end s delays 0) (control_port s)])%nat.
Proof.
  intros Hf Hk. unfold run_calls, calls_before_run, run_call.
  rewrite !count_app, (count_loop_calls f _ _ _ _ _ k) by exact Hk.
  assert (Hz : forall cs,
             forallb (fun c => negb (presto.is_sequence_call c)) cs = true ->
             count f cs = 0%nat).
  { intros cs Hcs. apply count_none. revert Hcs. apply forallb_impl.
    intros c Hc. rewrite Hf; [done|]. by destruct (presto.is_sequence_call c). }
  rewrite !(Hz [_; _; _]) by reflexivity.
  rewrite (Hz (hardware_calls _ _)) by reflexivity.
  rewrite (Hz (setup_calls _ _ _)) by reflexivity.
  rewrite (Hz (from_option jpa_on_calls [] jv)) by (by destruct jv).
  rewrite (Hz (from_option jpa_off_calls [] jv)) by (by destruct jv).
  rewrite (Hz (adjust_calls jv)) by (by destruct jv).
  rewrite (Hz [_; presto.get_store_data]) by reflexivity.
  rewrite (Hz [presto.Pulsed_exit]) by reflexivity.
  lia.
Qed.

(** X18. From the constructor to the sequence: an object built from a
    number, a list of [n] numbers or a one-dimensional array of [n]
    numbers as [delay_arr] (a number counting as [n = 1]), when its [run]
    returns, has made exactly [n] [store] calls, [3 * n] [output_pulse]
    calls, [2 * n] [reset_phase] calls and one [next_frequency] call: one
    acquisition, two control pulses and one readout pulse for each delay
    given. *)
Theorem init_then_run_counts
    (rf cfc cfs : Q) (nr : Z) (ra ca rd cd sd : Q)
    (d : array_like) (xs : list pynum)
    (rp cp sp : Z) (wd rsd : Q) (navg : Z) (jpa : option jpa_dict) (dr : Q)
    sdk py address port ext tr disk self0 fname st' :
  delay_input d xs ->
  __init__ rf cfc cfs nr ra ca rd cd sd d rp cp sp wd rsd navg jpa dr = Ok self0 ->
  run sdk py address port ext {| self := self0; trace := tr; files := disk |}
  = (Ok fname, st') ->
  exists cs,
    calls_of (trace st') = calls_of tr ++ cs
    /\ count is_store cs = length xs
    /\ count is_output_pulse cs = (3 * length xs)%nat
    /\ count is_reset_phase cs = (2 * length xs)%nat
    /\ count is_next_frequency cs = 1%nat.
Proof.
  intros Hd Hinit Hrun.
  assert (Hdelays : iter_numbers (delay_arr self0) = Ok (map to_float64 xs)).
  { destruct (np_asarray_delay_input d xs Hd) as (a & Ha & H1).
    unfold __init__ in Hinit. rewrite Ha in Hinit. cbn [rbind] in Hinit.
    injection Hinit as <-. cbn [delay_arr]. rewrite H1.
    unfold iter_numbers, astype_float64, array1. cbn. by destruct (length xs). }
  apply run_exact in Hrun as (jv & arr & delays & Hready & _ & Hcalls).
  cbn [self trace] in *.
  destruct Hready as (_ & _ & _ & _ & Hiter & _).
  rewrite Hdelays in Hiter. injection Hiter as <-.
  eexists. split; [exact Hcalls|].
  split; [|split; [|split]].
  - rewrite (count_run_calls is_store _ _ _ _ _ _ _ _ 1);
      [| by intros [] | reflexivity].
    rewrite length_map. cbn. lia.
  - rewrite (count_run_calls is_output_pulse _ _ _ _ _ _ _ _ 3);
      [| by intros [] | reflexivity].
    rewrite length_map. cbn. lia.
  - rewrite (count_run_calls is_reset_phase _ _ _ _ _ _ _ _ 2);
      [| by intros [] | reflexivity].
    rewrite length_map. cbn. lia.
  - rewrite (count_run_calls is_next_frequency _ _ _ _ _ _ _ _ 0);
      [| by intros [] | reflexivity].
    cbn. lia.
Qed.

Lemma init_then_run_counts_witness :
  exists cs,
    calls_of (trace (snd (run demo_sdk demo_py "192.168.42.50" None false
                            (demo_state 3))))
    = calls_of [] ++ cs
    /\ count is_store cs = length [PyInt 0; PyFloat (1 # 2)]
    /\ count is_output_pulse cs = (3 * length [PyInt 0; PyFloat (1 # 2)])%nat
    /\ count is_reset_phase cs = (2 * length [PyInt 0; PyFloat (1 # 2)])%nat
    /\ count is_next_frequency cs = 1%nat.
Proof.
  apply (init_then_run_counts 6 4 2 3 1 1 2 1 3
           (Seq [Scalar (PyInt 0); Scalar (PyFloat (1 # 2))])
           [PyInt 0; PyFloat (1 # 2)] 1 2 1 5 0 10 None 0
           demo_sdk demo_py "192.168.42.50" None false [] ∅ (demo_self 3)
           "data/ramsey_chevron.h5").
  - apply (delay_list [PyInt 0; PyFloat (1 # 2)]).
  - reflexivity.
  - vm_compute. reflexivity.
Defined.
